(** * SuperBoL: spectral energy distributions and gap interpolation

    A shallow embedding of [superbol/sed.py]: the inverse-variance flux
    combiner, the SED builder and the gap interpolator.

    Numbers.  The Python code is duck-typed over numbers; here every number
    is a real ([R]), so arithmetic is exact, as the code computes on exact
    inputs ([int], [fractions.Fraction]); on [float] inputs the same
    formulas are computed up to rounding.  Comparisons ([==], [<], [<=])
    are the decidable comparisons of [R].  The module [Double] has the
    averaging functions once more over binary64 numbers, with the rounding,
    the overflow and the underflow of the doubles; what holds in exact
    arithmetic only is stated as such.

    Errors.  A Python exception is a value of [exn]; a function that can
    raise returns a [result].  The functions that mutate the collection of
    SEDs return the collection as the call leaves it together with an
    [outcome], so the part of the mutation done before an exception is kept.

    Mutation.  A collection of SEDs is a list of lists; [SED.append] is
    modelled by rebuilding the SED in place in the collection.  The SEDs of
    a collection are taken to be distinct list objects (as [get_SED] builds
    them), and the list of interpolated fluxes is the fresh list returned by
    [get_interpolated_fluxes]. *)

From Stdlib Require Import Reals Lra Lia List Permutation Sorted Bool.
From Stdlib Require PrimFloat.
Import ListNotations.

Open Scope R_scope.

(** ** Python values *)

(** The exceptions of the code.  The functions on exact numbers raise the
    first three; [OverflowError] comes from double-precision arithmetic
    only (module [Double]). *)
Inductive exn : Type :=
| ZeroDivisionError
| IndexError
| ValueError
| OverflowError.

Inductive result (A : Type) : Type :=
| OK (a : A)
| Raise (e : exn).

Arguments OK {A} a.
Arguments Raise {A} e.

Definition bind {A B : Type} (m : result A) (k : A -> result B) : result B :=
  match m with
  | OK a => k a
  | Raise e => Raise e
  end.

Notation "x <- m ;; k" := (bind m (fun x => k))
  (at level 61, m at next level, right associativity).

(** [[g(x) for x in xs]] for a [g] that can raise: left to right, stopping
    at the first exception. *)
Fixpoint mapM {A B : Type} (g : A -> result B) (xs : list A) : result (list B) :=
  match xs with
  | [] => OK []
  | x :: xs' => y <- g x ;; ys <- mapM g xs' ;; OK (y :: ys)
  end.

Inductive outcome : Type :=
| Done
| Raised (e : exn).

(** Comparisons of Python numbers as booleans. *)
Definition Reqb (x y : R) : bool := if Req_dec_T x y then true else false.
Definition Rltb (x y : R) : bool := if Rlt_dec x y then true else false.
Definition Rleb (x y : R) : bool := if Rle_dec x y then true else false.

(** [a / b]: raises [ZeroDivisionError] for a zero divisor. *)
Definition py_div (a b : R) : result R :=
  if Reqb b 0 then Raise ZeroDivisionError else OK (a / b).

(** [math.sqrt(x)]: raises [ValueError] for a negative argument. *)
Definition py_sqrt (x : R) : result R :=
  if Rltb x 0 then Raise ValueError else OK (sqrt x).

(** [s ** 2]. *)
Definition sq (x : R) : R := x * x.

(** [sum(xs)]: the built-in starts from [0] and adds from the left. *)
Definition py_sum (xs : list R) : R := fold_left Rplus xs 0.

(** [xs[i]]: raises [IndexError] out of range. *)
Definition py_index {A : Type} (xs : list A) (i : nat) : result A :=
  match nth_error xs i with
  | Some x => OK x
  | None => Raise IndexError
  end.

(** [x in xs], by [==]. *)
Definition py_in (x : R) (xs : list R) : bool := existsb (Reqb x) xs.

(** ** Data model *)

(** Modelled from the spec: [mag2flux.MonochromaticFlux], the record type
    built by [MonochromaticFlux(flux, flux_uncertainty, wavelength, time)];
    its module is not part of the sources at hand. *)
Record MonochromaticFlux : Type := mkFlux {
  flux : R;
  flux_uncertainty : R;
  wavelength : R;
  time : R
}.

Definition SED : Type := list MonochromaticFlux.

(** ** Flux combiner *)

Definition get_weights (uncertainties : list R) : result (list R) :=
  mapM (fun s => py_div 1 (sq s)) uncertainties.

Definition weighted_average (values uncertainties : list R) : result R :=
  weights <- get_weights uncertainties ;;
  let denominator := py_sum weights in
  products <- mapM (fun i => w <- py_index weights i ;;
                             v <- py_index values i ;;
                             OK (w * v))
                   (seq 0 (length values)) ;;
  let numerator := py_sum products in
  py_div numerator denominator.

Definition weighted_average_uncertainty (uncertainties : list R) : result R :=
  weights <- get_weights uncertainties ;;
  root <- py_sqrt (py_sum weights) ;;
  py_div 1 root.

Definition get_flux_values (fluxes : list MonochromaticFlux) : list R :=
  map flux fluxes.

Definition get_flux_uncertainties (fluxes : list MonochromaticFlux) : list R :=
  map flux_uncertainty fluxes.

Definition get_times (fluxes : list MonochromaticFlux) : list R :=
  map time fluxes.

Definition combine_fluxes (fluxes : list MonochromaticFlux) : result MonochromaticFlux :=
  let values := get_flux_values fluxes in
  let uncertainties := get_flux_uncertainties fluxes in
  combined_flux <- weighted_average values uncertainties ;;
  combined_uncertainty <- weighted_average_uncertainty uncertainties ;;
  first <- py_index fluxes 0 ;;
  OK (mkFlux combined_flux combined_uncertainty (wavelength first) (time first)).

(** ** SED builder *)

(** Iterating over [set(...)] visits each distinct element once, in an
    order the language leaves open.  The order is a parameter [set_order] of
    the functions that iterate over a set; [set_iteration] is what every
    such order satisfies. *)
Definition set_iteration (set_order : list R -> list R) : Prop :=
  forall xs, NoDup (set_order xs) /\ (forall x, In x (set_order xs) <-> In x xs).

Definition has_wavelength (wl : R) (f : MonochromaticFlux) : bool :=
  Reqb (wavelength f) wl.

Definition yield_fluxes_at_each_observed_wavelength
    (set_order : list R -> list R) (fluxes : list MonochromaticFlux)
    : list (list MonochromaticFlux) :=
  map (fun wl => filter (has_wavelength wl) fluxes)
      (set_order (map wavelength fluxes)).

(** The body of the loop of [get_SED]: what is appended to the SED for one
    group [f]. *)
Definition sed_entry (f : list MonochromaticFlux) : result MonochromaticFlux :=
  if Nat.eqb (length f) 1 then py_index f 0 else combine_fluxes f.

Definition get_SED (set_order : list R -> list R)
    (fluxes : list MonochromaticFlux) : result SED :=
  mapM sed_entry (yield_fluxes_at_each_observed_wavelength set_order fluxes).

(** One iteration order of a set, for examples: each distinct element once,
    in the order of the last occurrences. *)
Definition an_order (xs : list R) : list R := nodup Req_dec_T xs.

(** ** Gap interpolator *)

(** [sorted(list(set(xs)))]: the distinct elements of [xs] in increasing
    order, whatever the iteration order of the set. *)
Fixpoint insert_sorted (x : R) (l : list R) : list R :=
  match l with
  | [] => [x]
  | y :: l' =>
      if Rltb x y then x :: l
      else if Reqb x y then l
      else y :: insert_sorted x l'
  end.

Definition sorted_set (xs : list R) : list R := fold_right insert_sorted [] xs.

Definition get_observed_wavelengths (SEDs : list SED) : list R :=
  sorted_set (flat_map (map wavelength) SEDs).

Definition get_observed_times (SEDs : list SED) : list R :=
  sorted_set (flat_map get_times SEDs).

Definition get_monochromatic_lightcurve (SEDs : list SED) (wl : R)
    : list MonochromaticFlux :=
  flat_map (filter (has_wavelength wl)) SEDs.

Definition get_unobserved_times (lightcurve : list MonochromaticFlux)
    (observed_times : list R) : list R :=
  let times := get_times lightcurve in
  filter (fun observed_time => negb (py_in observed_time times)) observed_times.

(** [max(fluxes, key=lambda flux: flux.time)]: [ValueError] on an empty
    list; among fluxes of the largest time the first one is returned, the
    running maximum being replaced only by a strictly larger key. *)
Fixpoint max_time_from (best : MonochromaticFlux) (rest : list MonochromaticFlux)
    : MonochromaticFlux :=
  match rest with
  | [] => best
  | f :: rest' =>
      if Rltb (time best) (time f) then max_time_from f rest'
      else max_time_from best rest'
  end.

Definition py_max_by_time (fluxes : list MonochromaticFlux) : result MonochromaticFlux :=
  match fluxes with
  | [] => Raise ValueError
  | f :: rest => OK (max_time_from f rest)
  end.

(** [min(fluxes, key=lambda flux: flux.time)], likewise. *)
Fixpoint min_time_from (best : MonochromaticFlux) (rest : list MonochromaticFlux)
    : MonochromaticFlux :=
  match rest with
  | [] => best
  | f :: rest' =>
      if Rltb (time f) (time best) then min_time_from f rest'
      else min_time_from best rest'
  end.

Definition py_min_by_time (fluxes : list MonochromaticFlux) : result MonochromaticFlux :=
  match fluxes with
  | [] => Raise ValueError
  | f :: rest => OK (min_time_from f rest)
  end.

Definition earlier_fluxes (lightcurve : list MonochromaticFlux) (unobserved_time : R)
    : list MonochromaticFlux :=
  filter (fun f => Rltb 0 (unobserved_time - time f)) lightcurve.

Definition later_fluxes (lightcurve : list MonochromaticFlux) (unobserved_time : R)
    : list MonochromaticFlux :=
  filter (fun f => Rltb (unobserved_time - time f) 0) lightcurve.

Definition get_previous_flux (monochromatic_lightcurve : list MonochromaticFlux)
    (unobserved_time : R) : result MonochromaticFlux :=
  py_max_by_time (earlier_fluxes monochromatic_lightcurve unobserved_time).

Definition get_next_flux (monochromatic_lightcurve : list MonochromaticFlux)
    (unobserved_time : R) : result MonochromaticFlux :=
  py_min_by_time (later_fluxes monochromatic_lightcurve unobserved_time).

Definition get_interpolated_flux_uncertainty
    (previous_flux next_flux : MonochromaticFlux) (unobserved_time : R) : result R :=
  weight1 <- py_div (time next_flux - unobserved_time)
                    (time next_flux - time previous_flux) ;;
  weight2 <- py_div (unobserved_time - time previous_flux)
                    (time next_flux - time previous_flux) ;;
  py_sqrt (sq weight1 * sq (flux_uncertainty previous_flux)
           + sq weight2 + sq (flux_uncertainty next_flux)).

(** [interp1d([x0, x1], [y0, y1])(x)] of SciPy, for two nodes given in
    increasing order (its only use here): a point outside [[x0, x1]] raises
    [ValueError]; inside, the value on the line through the two nodes,
    computed as slope times offset plus the left value. *)
Definition interp1d (x0 x1 y0 y1 x : R) : result R :=
  if Rltb x x0 || Rltb x1 x then Raise ValueError
  else OK ((y1 - y0) / (x1 - x0) * (x - x0) + y0).

(** One turn of the loop of [get_interpolated_fluxes]: the fluxes it
    appends to [interpolated_fluxes] for one unobserved time. *)
Definition interpolate_at (lightcurve : list MonochromaticFlux) (unobserved_time : R)
    : result (list MonochromaticFlux) :=
  previous_flux <- get_previous_flux lightcurve unobserved_time ;;
  next_flux <- get_next_flux lightcurve unobserved_time ;;
  if Rleb (time next_flux - time previous_flux) 2 then
    interpolated_flux_value <-
      interp1d (time previous_flux) (time next_flux)
               (flux previous_flux) (flux next_flux) unobserved_time ;;
    interpolated_flux_uncertainty <-
      get_interpolated_flux_uncertainty previous_flux next_flux unobserved_time ;;
    OK [mkFlux interpolated_flux_value interpolated_flux_uncertainty
               (wavelength previous_flux) unobserved_time]
  else OK [].

Definition get_interpolated_fluxes (lightcurve : list MonochromaticFlux)
    (observed_times : list R) : result (list MonochromaticFlux) :=
  let unobserved_times := get_unobserved_times lightcurve observed_times in
  chunks <- mapM (interpolate_at lightcurve) unobserved_times ;;
  OK (concat chunks).

(** The inner loop of [append_interpolated_fluxes_to_SEDs], on one SED:
    [SED[0]] is read at every turn, and the SED grows at the end. *)
Fixpoint append_matching (interpolated_fluxes : list MonochromaticFlux) (sed : SED)
    : SED * outcome :=
  match interpolated_fluxes with
  | [] => (sed, Done)
  | interpolated_flux :: rest =>
      match py_index sed 0 with
      | Raise e => (sed, Raised e)
      | OK first =>
          if Reqb (time interpolated_flux) (time first)
          then append_matching rest (sed ++ [interpolated_flux])
          else append_matching rest sed
      end
  end.

Fixpoint append_interpolated_fluxes_to_SEDs
    (interpolated_fluxes : list MonochromaticFlux) (SEDs : list SED)
    : list SED * outcome :=
  match SEDs with
  | [] => ([], Done)
  | sed :: rest =>
      match append_matching interpolated_fluxes sed with
      | (sed', Raised e) => (sed' :: rest, Raised e)
      | (sed', Done) =>
          let (rest', o) := append_interpolated_fluxes_to_SEDs interpolated_fluxes rest in
          (sed' :: rest', o)
      end
  end.

(** The loop of [interpolate_missing_fluxes] over the observed wavelengths;
    the lightcurve of a wavelength is read from the collection as the
    earlier turns left it. *)
Fixpoint interpolate_wavelengths (observed_wavelengths observed_times : list R)
    (SEDs : list SED) : list SED * outcome :=
  match observed_wavelengths with
  | [] => (SEDs, Done)
  | wl :: rest =>
      let monochromatic_lightcurve := get_monochromatic_lightcurve SEDs wl in
      match get_interpolated_fluxes monochromatic_lightcurve observed_times with
      | Raise e => (SEDs, Raised e)
      | OK interpolated_fluxes =>
          match append_interpolated_fluxes_to_SEDs interpolated_fluxes SEDs with
          | (SEDs', Raised e) => (SEDs', Raised e)
          | (SEDs', Done) => interpolate_wavelengths rest observed_times SEDs'
          end
      end
  end.

Definition interpolate_missing_fluxes (SEDs : list SED) : list SED * outcome :=
  let observed_wavelengths := get_observed_wavelengths SEDs in
  let observed_times := get_observed_times SEDs in
  interpolate_wavelengths observed_wavelengths observed_times SEDs.

(** ** What the specification says, in its own words *)

(** The weight of a measurement, [1 / uncertainty^2]. *)
Definition spec_weight (s : R) : R := 1 / s ^ 2.

(** [Σ_i g(x_i)]. *)
Fixpoint spec_sum {A : Type} (g : A -> R) (xs : list A) : R :=
  match xs with
  | [] => 0
  | x :: xs' => g x + spec_sum g xs'
  end.

(** [Σ(weight_i * value_i) / Σ(weight_i)]. *)
Definition spec_weighted_average (values uncertainties : list R) : R :=
  spec_sum (fun vs => spec_weight (snd vs) * fst vs) (combine values uncertainties)
  / spec_sum spec_weight uncertainties.

(** [1 / sqrt(Σ weight_i)]. *)
Definition spec_weighted_average_uncertainty (uncertainties : list R) : R :=
  1 / sqrt (spec_sum spec_weight uncertainties).

(** [min(values)] and [max(values)] of a list with head [v] and tail [vs]. *)
Definition list_min (v : R) (vs : list R) : R := fold_left Rmin vs v.
Definition list_max (v : R) (vs : list R) : R := fold_left Rmax vs v.

(** The uncertainty of an interpolated flux as the specification gives it. *)
Definition spec_interpolated_uncertainty
    (prev next : MonochromaticFlux) (t : R) : R :=
  let weight1 := (time next - t) / (time next - time prev) in
  let weight2 := (t - time prev) / (time next - time prev) in
  sqrt (weight1 ^ 2 * flux_uncertainty prev ^ 2
        + weight2 ^ 2 * flux_uncertainty next ^ 2).

(** The linearly interpolated value as the specification gives it. *)
Definition spec_interpolated_value (prev next : MonochromaticFlux) (t : R) : R :=
  flux prev + (t - time prev) * (flux next - flux prev) / (time next - time prev).

(** The interpolated fluxes that [append_interpolated_fluxes_to_SEDs] is
    to append to a SED: those whose time is the time of its first flux. *)
Definition same_epoch (sed : SED) (f : MonochromaticFlux) : bool :=
  match sed with
  | [] => false
  | first :: _ => Reqb (time f) (time first)
  end.

(** [sed'] is [sed] with fluxes appended. *)
Definition appended_to (sed sed' : SED) : Prop :=
  exists appended, sed' = sed ++ appended.

(** The uncertainty that [get_interpolated_flux_uncertainty] computes when
    it does not raise: the second weight squared is added, not multiplied
    by the square of the next uncertainty. *)
Definition interpolated_uncertainty_as_coded
    (prev next : MonochromaticFlux) (t : R) : R :=
  sqrt (sq ((time next - t) / (time next - time prev)) * sq (flux_uncertainty prev)
        + sq ((t - time prev) / (time next - time prev))
        + sq (flux_uncertainty next)).

(** The flux that one turn of the loop of [get_interpolated_fluxes] builds
    from the two neighbours of a missing epoch. *)
Definition interpolated_flux_between
    (prev next : MonochromaticFlux) (t : R) : MonochromaticFlux :=
  mkFlux (spec_interpolated_value prev next t)
         (interpolated_uncertainty_as_coded prev next t)
         (wavelength prev) t.

(** A wavelength is settled in a collection when interpolating its
    lightcurve completes and none of the interpolated fluxes has the epoch
    of a SED of the collection: the turn of the loop for this wavelength
    then appends nothing. *)
Definition settled (wl : R) (observed_times : list R) (SEDs : list SED) : Prop :=
  exists interpolated_fluxes,
    get_interpolated_fluxes (get_monochromatic_lightcurve SEDs wl) observed_times
    = OK interpolated_fluxes
    /\ forall f sed, In f interpolated_fluxes -> In sed SEDs ->
                     same_epoch sed f = false.

(** ** The averaging functions on doubles *)

(** [get_weights] and [weighted_average] as they run on [float] inputs:
    every operation rounds to binary64.  [OverflowError] and the
    [ZeroDivisionError] of an underflowing square exist only here. *)
Module Double.
Import PrimFloat.

(** [s ** 2] on a float: [OverflowError] when a finite [s] has an infinite
    square; a square that underflows is [0.0]. *)
Definition py_pow2 (s : float) : result float :=
  let r := (s * s)%float in
  if PrimFloat.is_infinity r && negb (PrimFloat.is_infinity s)
  then Raise OverflowError else OK r.

(** [a / b] on floats: [ZeroDivisionError] for a divisor equal to [0.0]. *)
Definition py_div (a b : float) : result float :=
  if PrimFloat.eqb b 0%float then Raise ZeroDivisionError else OK (a / b)%float.

(** [sum(xs)] adding from the left, each addition rounded. *)
Definition py_sum (xs : list float) : float :=
  fold_left PrimFloat.add xs 0%float.



Definition get_weights (uncertainties : list float) : result (list float) :=
  mapM (fun s => s2 <- py_pow2 s ;; py_div 1%float s2) uncertainties.

(** [weighted_average], for either way [sum] of adding floats. *)
Definition weighted_average (sum : list float -> float)
    (values uncertainties : list float) : result float :=
  weights <- get_weights uncertainties ;;
  let denominator := sum weights in
  products <- mapM (fun i => w <- py_index weights i ;;
                             v <- py_index values i ;;
                             OK (w * v)%float)
                   (seq 0 (length values)) ;;
  let numerator := sum products in
  py_div numerator denominator.

(** [max(values)] of a list with head [v] and tail [vs]: the running
    maximum is replaced by a strictly larger element. *)
Definition list_max (v : float) (vs : list float) : float :=
  fold_left (fun best x => if PrimFloat.ltb best x then x else best) vs v.

End Double.

(** ** Grouping by day and the gap around an epoch *)

(** [[list(it) for k, it in itertools.groupby(xs, key)]]: the iterator
    keeps the key [tgt] of the group it is in and the group [run] read so
    far; an element whose key differs from [tgt] closes the group and
    starts the next one.  Keys are integers, as [math.floor] returns. *)
Fixpoint group_runs {A : Type} (key : A -> Z) (tgt : Z) (run xs : list A)
    : list (list A) :=
  match xs with
  | [] => [run]
  | x :: xs' =>
      if Z.eqb (key x) tgt then group_runs key tgt (run ++ [x]) xs'
      else run :: group_runs key (key x) [x] xs'
  end.

Definition groupby {A : Type} (key : A -> Z) (xs : list A) : list (list A) :=
  match xs with
  | [] => []
  | x :: xs' => group_runs key (key x) [x] xs'
  end.

(** [math.floor]. *)
Definition math_floor (x : R) : Z := Zfloor x.

Definition group_fluxes (keyfunc : R -> Z) (fluxes : list MonochromaticFlux)
    : list (list MonochromaticFlux) :=
  groupby (fun x => keyfunc (time x)) fluxes.

(** [min(xs)] and [max(xs)] of a list of numbers: [ValueError] on an empty
    list. *)
Definition py_min (xs : list R) : result R :=
  match xs with
  | [] => Raise ValueError
  | x :: xs' => OK (list_min x xs')
  end.

Definition py_max (xs : list R) : result R :=
  match xs with
  | [] => Raise ValueError
  | x :: xs' => OK (list_max x xs')
  end.

(** The loop of [get_gap_size] sorts each [delta] into one of two lists: a
    positive one into [positive_deltas], any other one (zero too) into
    [negative_deltas]. *)
Definition positive_deltas (times : list R) (unobserved_time : R) : list R :=
  map (fun time => unobserved_time - time)
      (filter (fun time => Rltb 0 (unobserved_time - time)) times).

Definition negative_deltas (times : list R) (unobserved_time : R) : list R :=
  map (fun time => unobserved_time - time)
      (filter (fun time => negb (Rltb 0 (unobserved_time - time))) times).

Definition get_gap_size (times : list R) (unobserved_time : R) : result R :=
  smallest <- py_min (positive_deltas times unobserved_time) ;;
  largest <- py_max (negative_deltas times unobserved_time) ;;
  OK (smallest - largest).

(** Groups of a list by key: a group is not empty and has one key; the
    keys of two groups differ, or increase. *)
Definition one_key {A : Type} (key : A -> Z) (g : list A) : Prop :=
  g <> [] /\ forall a b, In a g -> In b g -> key a = key b.

Definition keys_differ {A : Type} (key : A -> Z) (g g' : list A) : Prop :=
  forall a b, In a g -> In b g' -> key a <> key b.

Definition keys_increase {A : Type} (key : A -> Z) (g g' : list A) : Prop :=
  forall a b, In a g -> In b g' -> (key a < key b)%Z.

(** ** Invariants of a collection of SEDs *)

(** Every flux of the SED has the time of the first one. *)
Definition one_epoch (sed : SED) : Prop :=
  forall f, In f sed -> same_epoch sed f = true.

(** No two fluxes of the SED have the same wavelength. *)
Definition one_flux_per_wavelength (sed : SED) : Prop :=
  NoDup (map wavelength sed).

(** [sed'] is [sed] with fluxes of its epoch appended. *)
Definition appended_at_epoch (sed sed' : SED) : Prop :=
  exists appended,
    sed' = sed ++ appended /\ forall f, In f appended -> same_epoch sed f = true.

(** ** Example data *)

(** Three epochs (times 0, 1 and 2) and two wavelengths (1 and 2);
    wavelength 2 was not observed at time 1. *)
Definition a0 : MonochromaticFlux := mkFlux 10 1 1 0.
Definition b0 : MonochromaticFlux := mkFlux 30 1 2 0.
Definition a1 : MonochromaticFlux := mkFlux 12 1 1 1.
Definition a2 : MonochromaticFlux := mkFlux 14 1 1 2.
Definition b2 : MonochromaticFlux := mkFlux 50 1 2 2.

Definition three_epochs : list SED := [[a0; b0]; [a1]; [a2; b2]].

(** Two epochs (times 0 and 2); wavelength 2 was first observed at time 2,
    so time 0 is a leading gap of its lightcurve. *)
Definition leading_gap : list SED := [[a0]; [a2; b2]].

(** A flux of wavelength 1 at time 3: with [a1] a lightcurve observed at
    times 1 and 3. *)
Definition a3 : MonochromaticFlux := mkFlux 16 1 1 3.

(** Three fluxes, two of them at wavelength 5. *)
Definition two_at_5 : list MonochromaticFlux :=
  [mkFlux 10 1 5 0; mkFlux 20 2 5 1; mkFlux 30 1 6 0].

(** Two epochs (times 0 and 2), both wavelengths observed at both. *)
Definition two_full_epochs : list SED := [[a0; b0]; [a2; b2]].

(** * Properties *)

(** ** Comparisons and the error monad *)

Lemma Reqb_true_iff (x y : R) : Reqb x y = true <-> x = y.
Proof. unfold Reqb. destruct (Req_dec_T x y); split; congruence. Qed.

Lemma Reqb_false_iff (x y : R) : Reqb x y = false <-> x <> y.
Proof. unfold Reqb. destruct (Req_dec_T x y); split; congruence. Qed.

Lemma Rltb_true_iff (x y : R) : Rltb x y = true <-> x < y.
Proof. unfold Rltb. destruct (Rlt_dec x y); split; congruence. Qed.

Lemma Rltb_false_iff (x y : R) : Rltb x y = false <-> y <= x.
Proof. unfold Rltb. destruct (Rlt_dec x y); split; try congruence; lra. Qed.

Lemma Rleb_true_iff (x y : R) : Rleb x y = true <-> x <= y.
Proof. unfold Rleb. destruct (Rle_dec x y); split; congruence. Qed.

Lemma Rleb_false_iff (x y : R) : Rleb x y = false <-> y < x.
Proof. unfold Rleb. destruct (Rle_dec x y); split; try congruence; lra. Qed.

Lemma Reqb_refl (x : R) : Reqb x x = true.
Proof. now apply Reqb_true_iff. Qed.

Lemma py_in_true_iff (x : R) (xs : list R) : py_in x xs = true <-> In x xs.
Proof.
  unfold py_in. rewrite existsb_exists. split.
  - intros [y [Hin Heq]]. apply Reqb_true_iff in Heq. now subst.
  - intros Hin. exists x. split; [assumption | apply Reqb_refl].
Qed.

Lemma py_in_false_iff (x : R) (xs : list R) : py_in x xs = false <-> ~ In x xs.
Proof.
  rewrite <- py_in_true_iff. destruct (py_in x xs); split; congruence.
Qed.

Lemma py_div_ok (a b : R) : b <> 0 -> py_div a b = OK (a / b).
Proof.
  intros Hb. unfold py_div. apply Reqb_false_iff in Hb. now rewrite Hb.
Qed.

Lemma py_div_zero (a : R) : py_div a 0 = Raise ZeroDivisionError.
Proof. unfold py_div. now rewrite Reqb_refl. Qed.

Lemma py_sqrt_ok (x : R) : 0 <= x -> py_sqrt x = OK (sqrt x).
Proof.
  intros Hx. unfold py_sqrt. apply Rltb_false_iff in Hx. now rewrite Hx.
Qed.

Lemma mapM_total {A B : Type} (g : A -> result B) (h : A -> B) (xs : list A) :
  (forall x, In x xs -> g x = OK (h x)) -> mapM g xs = OK (map h xs).
Proof.
  induction xs as [|x xs IH]; intros Hg; simpl.
  - reflexivity.
  - rewrite (Hg x) by now left. simpl.
    rewrite IH by (intros y Hy; apply Hg; now right). reflexivity.
Qed.

Lemma mapM_ok_inv {A B : Type} (g : A -> result B) (xs : list A) (ys : list B) :
  mapM g xs = OK ys -> Forall2 (fun x y => g x = OK y) xs ys.
Proof.
  revert ys. induction xs as [|x xs IH]; simpl; intros ys H.
  - inversion H. constructor.
  - destruct (g x) as [y|e] eqn:Hx; simpl in H; [|discriminate].
    destruct (mapM g xs) as [ys'|e] eqn:Hxs; simpl in H; [|discriminate].
    inversion H; subst. constructor; [assumption | now apply IH].
Qed.

Lemma mapM_raise {A B : Type} (g : A -> result B) (xs : list A) (x : A) (e : exn) :
  In x xs -> g x = Raise e -> exists e', mapM g xs = Raise e'.
Proof.
  induction xs as [|y xs IH]; simpl; intros Hin Hx; [contradiction|].
  destruct Hin as [-> | Hin].
  - rewrite Hx. now exists e.
  - destruct (g y) as [b|e1]; simpl; [|now exists e1].
    destruct (IH Hin Hx) as [e' ->]. now exists e'.
Qed.

(** ** Flux combiner *)

Lemma py_sum_from (xs : list R) (a : R) :
  fold_left Rplus xs a = a + spec_sum (fun x => x) xs.
Proof.
  revert a. induction xs as [|x xs IH]; intros a; simpl.
  - lra.
  - rewrite IH. lra.
Qed.

Lemma py_sum_spec (xs : list R) : py_sum xs = spec_sum (fun x => x) xs.
Proof. unfold py_sum. rewrite py_sum_from. lra. Qed.

Lemma spec_sum_map {A : Type} (g : A -> R) (xs : list A) :
  spec_sum (fun x => x) (map g xs) = spec_sum g xs.
Proof. induction xs as [|x xs IH]; simpl; [reflexivity | now rewrite IH]. Qed.

Lemma spec_weight_pos (s : R) : s <> 0 -> 0 < spec_weight s.
Proof.
  intros Hs. unfold spec_weight.
  apply Rdiv_lt_0_compat; [lra|]. simpl. nra.
Qed.

Lemma spec_sum_weight_nonneg (us : list R) :
  Forall (fun s => s <> 0) us -> 0 <= spec_sum spec_weight us.
Proof.
  induction 1 as [|s us Hs _ IH]; simpl; [lra|].
  pose proof (spec_weight_pos s Hs). lra.
Qed.

Lemma spec_sum_weight_pos (s : R) (us : list R) :
  Forall (fun s => s <> 0) (s :: us) -> 0 < spec_sum spec_weight (s :: us).
Proof.
  intros H. inversion H as [|? ? Hs Hus]; subst. simpl.
  pose proof (spec_weight_pos s Hs).
  pose proof (spec_sum_weight_nonneg us Hus). lra.
Qed.

Lemma get_weights_ok (us : list R) :
  Forall (fun s => s <> 0) us -> get_weights us = OK (map spec_weight us).
Proof.
  intros H. unfold get_weights. apply mapM_total.
  intros s Hin. rewrite Forall_forall in H. specialize (H s Hin).
  rewrite py_div_ok by (unfold sq; nra).
  unfold spec_weight, sq. simpl. now rewrite Rmult_1_r.
Qed.

(** A zero uncertainty anywhere makes the weights fail. *)
Lemma get_weights_zero (us : list R) :
  In 0 us -> exists e, get_weights us = Raise e.
Proof.
  intros Hin. unfold get_weights.
  apply (mapM_raise _ us 0 ZeroDivisionError Hin).
  unfold sq. rewrite Rmult_0_l. apply py_div_zero.
Qed.

(** The list comprehension over [range(len(values))], read at an offset
    into both lists. *)
Lemma products_by_index (pw pv ws vs : list R) :
  length pw = length pv -> length ws = length vs ->
  mapM (fun i => w <- py_index (pw ++ ws) i ;;
                 v <- py_index (pv ++ vs) i ;;
                 OK (w * v))
       (seq (length pv) (length vs))
  = OK (map (fun wv => fst wv * snd wv) (combine ws vs)).
Proof.
  revert pw pv ws. induction vs as [|v vs IH]; intros pw pv ws Hp Hl.
  - destruct ws; [reflexivity | discriminate].
  - destruct ws as [|w ws]; [discriminate|]. simpl in Hl. injection Hl as Hl.
    cbn [length seq mapM combine map fst snd].
    unfold py_index at 1 2.
    rewrite <- Hp at 1.
    rewrite !nth_error_app2 by lia. rewrite !Nat.sub_diag. cbn [nth_error bind].
    replace (pw ++ w :: ws) with ((pw ++ [w]) ++ ws) by (now rewrite <- app_assoc).
    replace (pv ++ v :: vs) with ((pv ++ [v]) ++ vs) by (now rewrite <- app_assoc).
    replace (S (length pv)) with (length (pv ++ [v]))
      by (rewrite length_app; simpl; lia).
    rewrite IH; [reflexivity | rewrite !length_app; simpl; lia | assumption].
Qed.

Lemma weighted_average_ok (values uncertainties : list R) :
  values <> [] ->
  length values = length uncertainties ->
  Forall (fun s => s <> 0) uncertainties ->
  weighted_average values uncertainties
  = OK (spec_weighted_average values uncertainties).
Proof.
  intros Hne Hlen Hnz. unfold weighted_average.
  rewrite (get_weights_ok _ Hnz). cbn [bind].
  pose proof (products_by_index [] [] (map spec_weight uncertainties) values
                eq_refl) as Hprod.
  cbn [app length] in Hprod. rewrite Hprod by (now rewrite length_map).
  cbn [bind].
  destruct uncertainties as [|s us]; [destruct values; [congruence | discriminate]|].
  pose proof (spec_sum_weight_pos s us Hnz) as Hpos.
  rewrite !py_sum_spec, !spec_sum_map.
  rewrite py_div_ok by lra.
  unfold spec_weighted_average. f_equal. f_equal.
  clear. generalize (s :: us) as l. intros l. revert l.
  induction values as [|v vs IH]; intros [|u l]; simpl; try reflexivity.
  rewrite IH. reflexivity.
Qed.

(** C4. For non-empty lists of equal length with every uncertainty nonzero,
    [weighted_average] returns, without raising, the inverse-variance
    weighted mean [Σ(weight_i * value_i) / Σ(weight_i)] with
    [weight_i = 1 / uncertainty_i^2]; and values [[10; 20]] with
    uncertainties [[1; 2]] give [12]. *)
Theorem weighted_average_is_weighted_mean :
  (forall values uncertainties : list R,
      values <> [] ->
      length values = length uncertainties ->
      Forall (fun s => s <> 0) uncertainties ->
      weighted_average values uncertainties
      = OK (spec_sum (fun vs => spec_weight (snd vs) * fst vs)
                     (combine values uncertainties)
            / spec_sum spec_weight uncertainties))
  /\ weighted_average [10; 20] [1; 2] = OK 12.
Proof.
  split.
  - intros values uncertainties Hne Hlen Hnz.
    now rewrite weighted_average_ok.
  - rewrite weighted_average_ok.
    + f_equal. unfold spec_weighted_average, spec_weight. simpl. field.
    + discriminate.
    + reflexivity.
    + repeat constructor; lra.
Qed.

Lemma weighted_average_is_weighted_mean_witness :
  [10; 20] <> [] /\
  length [10; 20] = length [1; 2] /\
  Forall (fun s => s <> 0) [1; 2] /\
  weighted_average [10; 20] [1; 2]
  = OK (spec_sum (fun vs => spec_weight (snd vs) * fst vs)
                 (combine [10; 20] [1; 2])
        / spec_sum spec_weight [1; 2]).
Proof.
  assert (Hne : [10; 20] <> ([] : list R)) by discriminate.
  assert (Hnz : Forall (fun s => s <> 0) [1; 2]) by (repeat constructor; lra).
  repeat split; try assumption.
  exact (proj1 weighted_average_is_weighted_mean [10; 20] [1; 2] Hne eq_refl Hnz).
Defined.

(** The running minimum and maximum bound every element. *)
Lemma fold_min_le (vs : list R) (v : R) :
  fold_left Rmin vs v <= v /\ forall x, In x vs -> fold_left Rmin vs v <= x.
Proof.
  revert v. induction vs as [|y vs IH]; intros v; simpl.
  - split; [lra | contradiction].
  - destruct (IH (Rmin v y)) as [H1 H2].
    pose proof (Rmin_l v y). pose proof (Rmin_r v y).
    split; [lra|]. intros x [<- | Hin]; [lra | now apply H2].
Qed.

Lemma fold_max_ge (vs : list R) (v : R) :
  v <= fold_left Rmax vs v /\ forall x, In x vs -> x <= fold_left Rmax vs v.
Proof.
  revert v. induction vs as [|y vs IH]; intros v; simpl.
  - split; [lra | contradiction].
  - destruct (IH (Rmax v y)) as [H1 H2].
    pose proof (Rmax_l v y). pose proof (Rmax_r v y).
    split; [lra|]. intros x [<- | Hin]; [lra | now apply H2].
Qed.

Lemma list_min_le (v : R) (vs : list R) (x : R) :
  In x (v :: vs) -> list_min v vs <= x.
Proof.
  unfold list_min. destruct (fold_min_le vs v) as [H1 H2].
  intros [<- | Hin]; [assumption | now apply H2].
Qed.

Lemma list_max_ge (v : R) (vs : list R) (x : R) :
  In x (v :: vs) -> x <= list_max v vs.
Proof.
  unfold list_max. destruct (fold_max_ge vs v) as [H1 H2].
  intros [<- | Hin]; [assumption | now apply H2].
Qed.

(** The minimum and the maximum are elements of the list. *)
Lemma list_min_in (v : R) (vs : list R) : In (list_min v vs) (v :: vs).
Proof.
  unfold list_min. revert v. induction vs as [|y vs IH]; intros v; simpl.
  - now left.
  - destruct (IH (Rmin v y)) as [H | H].
    + rewrite <- H. unfold Rmin. destruct (Rle_dec v y); auto.
    + auto.
Qed.

Lemma list_max_in (v : R) (vs : list R) : In (list_max v vs) (v :: vs).
Proof.
  unfold list_max. revert v. induction vs as [|y vs IH]; intros v; simpl.
  - now left.
  - destruct (IH (Rmax v y)) as [H | H].
    + rewrite <- H. unfold Rmax. destruct (Rle_dec v y); auto.
    + auto.
Qed.




Lemma weighted_average_uncertainty_ok (uncertainties : list R) :
  uncertainties <> [] ->
  Forall (fun s => s <> 0) uncertainties ->
  weighted_average_uncertainty uncertainties
  = OK (spec_weighted_average_uncertainty uncertainties).
Proof.
  intros Hne Hnz. unfold weighted_average_uncertainty.
  rewrite (get_weights_ok _ Hnz). cbn [bind].
  rewrite py_sum_spec, spec_sum_map.
  destruct uncertainties as [|s us]; [congruence|].
  pose proof (spec_sum_weight_pos s us Hnz) as Hpos.
  rewrite py_sqrt_ok by lra. cbn [bind].
  rewrite py_div_ok; [reflexivity|].
  pose proof (sqrt_lt_R0 _ Hpos). lra.
Qed.

(** C5. For a non-empty list of fluxes with nonzero uncertainties,
    [combine_fluxes] returns one flux: its value is the inverse-variance
    weighted average of the values, its uncertainty is
    [1 / sqrt(Σ weight_i)], and its wavelength and time are those of the
    first flux of the list. *)
Theorem combine_fluxes_spec (f : MonochromaticFlux) (fs : list MonochromaticFlux) :
  Forall (fun g => flux_uncertainty g <> 0) (f :: fs) ->
  combine_fluxes (f :: fs)
  = OK (mkFlux
          (spec_weighted_average (map flux (f :: fs))
                                 (map flux_uncertainty (f :: fs)))
          (1 / sqrt (spec_sum spec_weight (map flux_uncertainty (f :: fs))))
          (wavelength f)
          (time f)).
Proof.
  intros Hnz. unfold combine_fluxes, get_flux_values, get_flux_uncertainties.
  assert (Hnz' : Forall (fun s => s <> 0) (map flux_uncertainty (f :: fs)))
    by (now apply Forall_map).
  rewrite weighted_average_ok;
    [| discriminate | now rewrite !length_map | assumption].
  cbn [bind].
  rewrite weighted_average_uncertainty_ok; [| discriminate | assumption].
  reflexivity.
Qed.

Lemma combine_fluxes_spec_witness :
  Forall (fun g => flux_uncertainty g <> 0)
         [mkFlux 10 1 5 0; mkFlux 20 2 5 0] /\
  combine_fluxes [mkFlux 10 1 5 0; mkFlux 20 2 5 0]
  = OK (mkFlux
          (spec_weighted_average (map flux [mkFlux 10 1 5 0; mkFlux 20 2 5 0])
             (map flux_uncertainty [mkFlux 10 1 5 0; mkFlux 20 2 5 0]))
          (1 / sqrt (spec_sum spec_weight
                       (map flux_uncertainty [mkFlux 10 1 5 0; mkFlux 20 2 5 0])))
          5 0).
Proof.
  assert (Hnz : Forall (fun g => flux_uncertainty g <> 0)
                       [mkFlux 10 1 5 0; mkFlux 20 2 5 0])
    by (repeat constructor; simpl; lra).
  split; [assumption|].
  exact (combine_fluxes_spec (mkFlux 10 1 5 0) [mkFlux 20 2 5 0] Hnz).
Defined.

(** ** SED builder *)

Lemma has_wavelength_true_iff (wl : R) (f : MonochromaticFlux) :
  has_wavelength wl f = true <-> wavelength f = wl.
Proof. unfold has_wavelength. apply Reqb_true_iff. Qed.

Lemma group_nonempty (wl : R) (fluxes : list MonochromaticFlux) :
  In wl (map wavelength fluxes) -> filter (has_wavelength wl) fluxes <> [].
Proof.
  intros Hin. apply in_map_iff in Hin as [f [Hwl Hf]].
  assert (Hg : In f (filter (has_wavelength wl) fluxes))
    by (apply filter_In; split; [assumption | now apply has_wavelength_true_iff]).
  intros Heq. rewrite Heq in Hg. contradiction.
Qed.

Lemma group_singleton (wl : R) (fluxes : list MonochromaticFlux) :
  NoDup (map wavelength fluxes) -> In wl (map wavelength fluxes) ->
  exists f, filter (has_wavelength wl) fluxes = [f].
Proof.
  induction fluxes as [|g fluxes IH]; simpl; intros Hnd Hin; [contradiction|].
  inversion Hnd as [|? ? Hnotin Hnd']; subst.
  destruct (has_wavelength wl g) eqn:Hg.
  - exists g. f_equal.
    apply has_wavelength_true_iff in Hg. subst wl.
    destruct (filter (has_wavelength (wavelength g)) fluxes) as [|h l] eqn:Hf;
      [reflexivity|].
    exfalso. apply Hnotin.
    assert (Hh : In h (filter (has_wavelength (wavelength g)) fluxes))
      by (rewrite Hf; now left).
    apply filter_In in Hh as [Hh1 Hh2].
    apply has_wavelength_true_iff in Hh2. rewrite <- Hh2. now apply in_map.
  - destruct Hin as [Heq | Hin].
    + apply has_wavelength_true_iff in Heq. congruence.
    + now apply IH.
Qed.

Lemma combine_fluxes_ok_inv (g : list MonochromaticFlux) (c : MonochromaticFlux) :
  combine_fluxes g = OK c ->
  exists first, nth_error g 0 = Some first
                /\ wavelength c = wavelength first /\ time c = time first.
Proof.
  unfold combine_fluxes. intros H.
  destruct (weighted_average _ _); simpl in H; [|discriminate].
  destruct (weighted_average_uncertainty _); simpl in H; [|discriminate].
  unfold py_index in H. destruct (nth_error g 0) as [first|]; simpl in H;
    [|discriminate].
  inversion H; subst. exists first. auto.
Qed.

Lemma sed_entry_wavelength (wl : R) (fluxes : list MonochromaticFlux)
    (y : MonochromaticFlux) :
  sed_entry (filter (has_wavelength wl) fluxes) = OK y -> wavelength y = wl.
Proof.
  unfold sed_entry. intros H.
  assert (Hfirst : forall first,
             nth_error (filter (has_wavelength wl) fluxes) 0 = Some first ->
             wavelength first = wl).
  { intros first Hn. apply nth_error_In in Hn. apply filter_In in Hn.
    now apply has_wavelength_true_iff. }
  destruct (Nat.eqb _ 1).
  - unfold py_index in H.
    destruct (nth_error _ 0) as [first|] eqn:Hn; [|discriminate].
    inversion H; subst. now apply Hfirst.
  - apply combine_fluxes_ok_inv in H as [first [Hn [Hw _]]].
    rewrite Hw. now apply Hfirst.
Qed.

Lemma get_SED_wavelengths (set_order : list R -> list R)
    (fluxes : list MonochromaticFlux) (sed : SED) :
  get_SED set_order fluxes = OK sed ->
  map wavelength sed = set_order (map wavelength fluxes)
  /\ Forall2 (fun wl y => sed_entry (filter (has_wavelength wl) fluxes) = OK y)
             (set_order (map wavelength fluxes)) sed.
Proof.
  unfold get_SED, yield_fluxes_at_each_observed_wavelength. intros H.
  apply mapM_ok_inv in H.
  remember (set_order (map wavelength fluxes)) as wls eqn:E. clear E.
  revert sed H. induction wls as [|wl wls IH]; intros sed H; simpl in H.
  - inversion H. split; [reflexivity | constructor].
  - inversion H as [|? y ? sed' Hy Hrest]; subst.
    destruct (IH _ Hrest) as [IH1 IH2]. split.
    + simpl. rewrite IH1. f_equal. now apply sed_entry_wavelength with fluxes.
    + now constructor.
Qed.

Lemma NoDup_map_injective {A B : Type} (g : A -> B) (l : list A) (x y : A) :
  NoDup (map g l) -> In x l -> In y l -> g x = g y -> x = y.
Proof.
  induction l as [|a l IH]; simpl; intros Hnd Hx Hy Heq; [contradiction|].
  inversion Hnd as [|? ? Hnotin Hnd']; subst.
  destruct Hx as [-> | Hx], Hy as [-> | Hy].
  - reflexivity.
  - exfalso. apply Hnotin. rewrite Heq. now apply in_map.
  - exfalso. apply Hnotin. rewrite <- Heq. now apply in_map.
  - now apply IH.
Qed.

Lemma sed_entry_in (wl : R) (fluxes : list MonochromaticFlux) (y : MonochromaticFlux) :
  length (filter (has_wavelength wl) fluxes) = 1%nat ->
  sed_entry (filter (has_wavelength wl) fluxes) = OK y ->
  In y fluxes.
Proof.
  unfold sed_entry. intros Hlen H. rewrite Hlen in H. simpl in H.
  unfold py_index in H.
  destruct (nth_error _ 0) as [first|] eqn:Hn; [|discriminate].
  inversion H; subst. apply nth_error_In in Hn. now apply filter_In in Hn.
Qed.

Lemma sed_entry_total (g : list MonochromaticFlux) :
  g <> [] -> Forall (fun f => flux_uncertainty f <> 0) g ->
  exists y, sed_entry g = OK y.
Proof.
  intros Hne Hnz. unfold sed_entry. destruct g as [|f fs]; [congruence|].
  destruct (Nat.eqb _ 1).
  - now exists f.
  - unfold combine_fluxes, get_flux_values, get_flux_uncertainties.
    assert (Hnz' : Forall (fun s => s <> 0) (map flux_uncertainty (f :: fs)))
      by (now apply Forall_map).
    rewrite weighted_average_ok;
      [| discriminate | now rewrite !length_map | assumption].
    cbn [bind].
    rewrite weighted_average_uncertainty_ok; [| discriminate | assumption].
    cbn [bind py_index nth_error]. eauto.
Qed.

Lemma mapM_exists {A B : Type} (g : A -> result B) (xs : list A) :
  (forall x, In x xs -> exists y, g x = OK y) -> exists ys, mapM g xs = OK ys.
Proof.
  induction xs as [|x xs IH]; intros Hg; simpl.
  - now exists [].
  - destruct (Hg x (or_introl eq_refl)) as [y ->].
    destruct (IH (fun z Hz => Hg z (or_intror Hz))) as [ys ->].
    now exists (y :: ys).
Qed.

Lemma Forall2_in_left {A B : Type} (P : A -> B -> Prop)
    (xs : list A) (ys : list B) (x : A) :
  Forall2 P xs ys -> In x xs -> exists y, In y ys /\ P x y.
Proof.
  induction 1 as [|a b xs ys Hab Hrest IH]; intros Hin; [contradiction|].
  destruct Hin as [-> | Hin].
  - exists b. split; [now left | assumption].
  - destruct (IH Hin) as [y [Hy HP]]. exists y. split; [now right | assumption].
Qed.

(** C6. Whatever the iteration order of the set of wavelengths:
    (1) on fluxes at pairwise distinct wavelengths [get_SED] returns a SED
    with the same fluxes, unmodified, so of the same length;
    (2) a returned SED has no two fluxes of the same wavelength, and for
    every wavelength whose group has more than one flux it holds the flux
    that [combine_fluxes] returns on that group;
    (3) on fluxes with nonzero uncertainties [get_SED] does return a SED. *)
Theorem get_SED_partitions_by_wavelength
    (set_order : list R -> list R) (fluxes : list MonochromaticFlux) :
  set_iteration set_order ->
  (NoDup (map wavelength fluxes) ->
   exists sed, get_SED set_order fluxes = OK sed
               /\ length sed = length fluxes /\ Permutation sed fluxes)
  /\ (forall sed, get_SED set_order fluxes = OK sed ->
        NoDup (map wavelength sed)
        /\ forall wl, In wl (map wavelength fluxes) ->
             (1 < length (filter (has_wavelength wl) fluxes))%nat ->
             exists c, combine_fluxes (filter (has_wavelength wl) fluxes) = OK c
                       /\ In c sed /\ wavelength c = wl)
  /\ (Forall (fun f => flux_uncertainty f <> 0) fluxes ->
      exists sed, get_SED set_order fluxes = OK sed).
Proof.
  intros Hset. destruct (Hset (map wavelength fluxes)) as [Hnd Hmem].
  assert (Hpart2 : forall sed, get_SED set_order fluxes = OK sed ->
        NoDup (map wavelength sed)
        /\ forall wl, In wl (map wavelength fluxes) ->
             (1 < length (filter (has_wavelength wl) fluxes))%nat ->
             exists c, combine_fluxes (filter (has_wavelength wl) fluxes) = OK c
                       /\ In c sed /\ wavelength c = wl).
  { intros sed Hsed. destruct (get_SED_wavelengths _ _ _ Hsed) as [Hw Hall].
    split; [now rewrite Hw|].
    intros wl Hwl Hlen. apply Hmem in Hwl.
    destruct (Forall2_in_left _ _ _ _ Hall Hwl) as [c [Hc Hentry]].
    exists c. pose proof (sed_entry_wavelength _ _ _ Hentry) as Hcw.
    unfold sed_entry in Hentry.
    destruct (Nat.eqb_spec (length (filter (has_wavelength wl) fluxes)) 1);
      [lia|]. auto. }
  split; [|split; [exact Hpart2|]].
  - intros Hndf.
    assert (Hex : exists sed, get_SED set_order fluxes = OK sed).
    { unfold get_SED, yield_fluxes_at_each_observed_wavelength.
      apply mapM_exists. intros g Hg.
      apply in_map_iff in Hg as [wl [<- Hwl]]. apply Hmem in Hwl.
      destruct (group_singleton wl fluxes Hndf Hwl) as [f ->]. now exists f. }
    destruct Hex as [sed Hsed]. exists sed. split; [assumption|].
    destruct (get_SED_wavelengths _ _ _ Hsed) as [Hw Hall].
    assert (Hsub : forall y, In y sed -> In y fluxes).
    { intros y Hy.
      assert (Hgen : forall ws ys,
                 Forall2 (fun wl y => sed_entry (filter (has_wavelength wl) fluxes) = OK y)
                         ws ys ->
                 (forall wl, In wl ws -> In wl (map wavelength fluxes)) ->
                 In y ys -> In y fluxes).
      { induction 1 as [|w z ws ys Hz Hrest IH]; intros Hws Hin; [contradiction|].
        destruct Hin as [-> | Hin].
        - destruct (group_singleton w fluxes Hndf (Hws w (or_introl eq_refl)))
            as [f Hf].
          apply sed_entry_in with w; [now rewrite Hf | assumption].
        - apply IH; [intros wl Hwl; apply Hws; now right | assumption]. }
      apply (Hgen _ _ Hall); [intros wl Hwl; now apply Hmem | assumption]. }
    assert (Hperm : Permutation sed fluxes).
    { apply NoDup_Permutation.
      - apply NoDup_map_inv with (f := wavelength). now rewrite Hw.
      - now apply NoDup_map_inv with (f := wavelength).
      - intros x. split; [apply Hsub|].
        intros Hx.
        assert (Hwx : In (wavelength x) (map wavelength sed))
          by (rewrite Hw; apply Hmem; now apply in_map).
        apply in_map_iff in Hwx as [y [Hyw Hy]].
        assert (y = x) by
          (apply (NoDup_map_injective wavelength fluxes); auto).
        now subst. }
    split; [now apply Permutation_length | assumption].
  - intros Hnz. unfold get_SED, yield_fluxes_at_each_observed_wavelength.
    apply mapM_exists. intros g Hg.
    apply in_map_iff in Hg as [wl [<- Hwl]]. apply Hmem in Hwl.
    apply sed_entry_total; [now apply group_nonempty|].
    rewrite Forall_forall in *. intros f Hf. apply Hnz.
    now apply filter_In in Hf.
Qed.

Lemma an_order_set_iteration : set_iteration an_order.
Proof.
  intros xs. unfold an_order. split.
  - apply NoDup_nodup.
  - intros x. apply nodup_In.
Qed.

Lemma get_SED_partitions_by_wavelength_witness :
  set_iteration an_order /\
  ((NoDup (map wavelength [mkFlux 10 1 5 0; mkFlux 20 2 5 0]) ->
    exists sed, get_SED an_order [mkFlux 10 1 5 0; mkFlux 20 2 5 0] = OK sed
                /\ length sed = length [mkFlux 10 1 5 0; mkFlux 20 2 5 0]
                /\ Permutation sed [mkFlux 10 1 5 0; mkFlux 20 2 5 0])
   /\ (forall sed, get_SED an_order [mkFlux 10 1 5 0; mkFlux 20 2 5 0] = OK sed ->
         NoDup (map wavelength sed)
         /\ forall wl, In wl (map wavelength [mkFlux 10 1 5 0; mkFlux 20 2 5 0]) ->
              (1 < length (filter (has_wavelength wl)
                             [mkFlux 10 1 5 0; mkFlux 20 2 5 0]))%nat ->
              exists c, combine_fluxes (filter (has_wavelength wl)
                                          [mkFlux 10 1 5 0; mkFlux 20 2 5 0]) = OK c
                        /\ In c sed /\ wavelength c = wl)
   /\ (Forall (fun f => flux_uncertainty f <> 0) [mkFlux 10 1 5 0; mkFlux 20 2 5 0] ->
       exists sed, get_SED an_order [mkFlux 10 1 5 0; mkFlux 20 2 5 0] = OK sed)).
Proof.
  split; [exact an_order_set_iteration|].
  exact (get_SED_partitions_by_wavelength an_order
           [mkFlux 10 1 5 0; mkFlux 20 2 5 0] an_order_set_iteration).
Defined.

(** ** Appending interpolated fluxes *)

Lemma append_matching_nonempty (ifs : list MonochromaticFlux)
    (first : MonochromaticFlux) (tl : SED) :
  append_matching ifs (first :: tl)
  = ((first :: tl) ++ filter (same_epoch (first :: tl)) ifs, Done).
Proof.
  revert tl. induction ifs as [|f ifs IH]; intros tl; simpl.
  - now rewrite app_nil_r.
  - destruct (Reqb (time f) (time first)).
    + change (first :: tl ++ [f]) with (first :: (tl ++ [f])).
      rewrite IH. simpl. now rewrite <- app_assoc.
    + apply IH.
Qed.

Lemma append_matching_empty (f : MonochromaticFlux) (ifs : list MonochromaticFlux) :
  append_matching (f :: ifs) [] = ([], Raised IndexError).
Proof. reflexivity. Qed.

Lemma append_matching_none (sed : SED) : append_matching [] sed = (sed, Done).
Proof. reflexivity. Qed.

Lemma append_all_nonempty (ifs : list MonochromaticFlux) (SEDs : list SED) :
  Forall (fun sed => sed <> []) SEDs ->
  append_interpolated_fluxes_to_SEDs ifs SEDs
  = (map (fun sed => sed ++ filter (same_epoch sed) ifs) SEDs, Done).
Proof.
  induction 1 as [|sed SEDs Hne _ IH]; simpl; [reflexivity|].
  destruct sed as [|first tl]; [congruence|].
  rewrite append_matching_nonempty, IH. reflexivity.
Qed.

Lemma append_all_empty_sed (ifs : list MonochromaticFlux) (SEDs : list SED) :
  ifs <> [] -> In [] SEDs ->
  snd (append_interpolated_fluxes_to_SEDs ifs SEDs) = Raised IndexError.
Proof.
  intros Hifs. destruct ifs as [|f ifs]; [congruence|]. clear Hifs.
  induction SEDs as [|sed SEDs IH]; intros Hin; [contradiction|].
  cbn [append_interpolated_fluxes_to_SEDs].
  destruct sed as [|first tl].
  - reflexivity.
  - rewrite append_matching_nonempty.
    destruct Hin as [Heq | Hin]; [discriminate|].
    specialize (IH Hin).
    destruct (append_interpolated_fluxes_to_SEDs (f :: ifs) SEDs) as [rest' o].
    exact IH.
Qed.

Lemma append_all_nothing (SEDs : list SED) :
  append_interpolated_fluxes_to_SEDs [] SEDs = (SEDs, Done).
Proof.
  induction SEDs as [|sed SEDs IH]; simpl; [reflexivity|]. now rewrite IH.
Qed.

(** C10. [append_interpolated_fluxes_to_SEDs] reads [SED[0]] of every SED
    for every interpolated flux: with at least one interpolated flux and an
    empty SED in the collection the call raises [IndexError]; when every
    SED is non-empty the call completes and each SED receives, in order,
    exactly the interpolated fluxes whose time is the time of its first
    flux. *)
Theorem append_reads_first_of_every_SED
    (interpolated_fluxes : list MonochromaticFlux) (SEDs : list SED) :
  (interpolated_fluxes <> [] -> In [] SEDs ->
   snd (append_interpolated_fluxes_to_SEDs interpolated_fluxes SEDs)
   = Raised IndexError)
  /\ (Forall (fun sed => sed <> []) SEDs ->
      append_interpolated_fluxes_to_SEDs interpolated_fluxes SEDs
      = (map (fun sed => sed ++ filter (same_epoch sed) interpolated_fluxes) SEDs,
         Done)).
Proof.
  split.
  - apply append_all_empty_sed.
  - apply append_all_nonempty.
Qed.

(** ** Only appending *)

Lemma appended_to_refl (sed : SED) : appended_to sed sed.
Proof. exists []. now rewrite app_nil_r. Qed.

Lemma appended_to_trans (s1 s2 s3 : SED) :
  appended_to s1 s2 -> appended_to s2 s3 -> appended_to s1 s3.
Proof.
  intros [a ->] [b ->]. exists (a ++ b). now rewrite app_assoc.
Qed.

Lemma Forall2_appended_refl (SEDs : list SED) : Forall2 appended_to SEDs SEDs.
Proof. induction SEDs; constructor; [apply appended_to_refl | assumption]. Qed.

Lemma Forall2_appended_trans (S1 S2 S3 : list SED) :
  Forall2 appended_to S1 S2 -> Forall2 appended_to S2 S3 ->
  Forall2 appended_to S1 S3.
Proof.
  intros H12. revert S3. induction H12 as [|a b S1 S2 Hab _ IH]; intros S3 H23.
  - inversion H23. constructor.
  - inversion H23; subst. constructor;
      [eapply appended_to_trans; eassumption | now apply IH].
Qed.

Lemma append_matching_appends (ifs : list MonochromaticFlux) (sed : SED) :
  appended_to sed (fst (append_matching ifs sed)).
Proof.
  destruct sed as [|first tl].
  - destruct ifs; apply appended_to_refl.
  - rewrite append_matching_nonempty. simpl. now eexists.
Qed.

Lemma append_all_appends (ifs : list MonochromaticFlux) (SEDs : list SED) :
  Forall2 appended_to SEDs (fst (append_interpolated_fluxes_to_SEDs ifs SEDs)).
Proof.
  induction SEDs as [|sed SEDs IH]; simpl; [constructor|].
  pose proof (append_matching_appends ifs sed) as Hsed.
  destruct (append_matching ifs sed) as [sed' [|e]]; simpl in *.
  - destruct (append_interpolated_fluxes_to_SEDs ifs SEDs) as [rest' o].
    constructor; assumption.
  - constructor; [assumption | apply Forall2_appended_refl].
Qed.

Lemma interpolate_wavelengths_appends (wls times : list R) (SEDs : list SED) :
  Forall2 appended_to SEDs (fst (interpolate_wavelengths wls times SEDs)).
Proof.
  revert SEDs. induction wls as [|wl wls IH]; intros SEDs; simpl.
  - apply Forall2_appended_refl.
  - destruct (get_interpolated_fluxes _ times) as [ifs|e]; simpl;
      [|apply Forall2_appended_refl].
    pose proof (append_all_appends ifs SEDs) as Hstep.
    destruct (append_interpolated_fluxes_to_SEDs ifs SEDs) as [SEDs' [|e]];
      simpl in *; [|assumption].
    eapply Forall2_appended_trans; [exact Hstep | apply IH].
Qed.

(** C9. [interpolate_missing_fluxes] only appends: however the call ends,
    and so whenever it completes, the collection has as many SEDs as
    before, and every SED is the SED it was with fluxes appended at its
    end, so each flux present before is at the same position afterwards. *)
Theorem interpolate_missing_fluxes_only_appends
    (SEDs SEDs' : list SED) (o : outcome) :
  interpolate_missing_fluxes SEDs = (SEDs', o) ->
  length SEDs' = length SEDs
  /\ Forall2 appended_to SEDs SEDs'
  /\ (forall k sed i f,
         nth_error SEDs k = Some sed -> nth_error sed i = Some f ->
         exists sed', nth_error SEDs' k = Some sed'
                      /\ nth_error sed' i = Some f).
Proof.
  intros Hcall.
  pose proof (interpolate_wavelengths_appends
                (get_observed_wavelengths SEDs) (get_observed_times SEDs) SEDs)
    as Happ.
  unfold interpolate_missing_fluxes in Hcall. rewrite Hcall in Happ.
  simpl in Happ. clear Hcall.
  split; [symmetry; eapply Forall2_length; eassumption|].
  split; [assumption|].
  induction Happ as [|s s' S S' Hs _ IH]; intros k sed i f Hk Hi.
  - destruct k; discriminate.
  - destruct k as [|k]; simpl in *.
    + inversion Hk; subst. destruct Hs as [extra ->].
      eexists. split; [reflexivity|].
      rewrite nth_error_app1; [assumption|].
      apply nth_error_Some. congruence.
    + eapply IH; eassumption.
Qed.

(** ** Neighbours of a missing epoch *)

Lemma max_time_from_spec (rest : list MonochromaticFlux) (best : MonochromaticFlux) :
  In (max_time_from best rest) (best :: rest)
  /\ forall g, In g (best :: rest) -> time g <= time (max_time_from best rest).
Proof.
  revert best. induction rest as [|f rest IH]; intros best; simpl.
  - split; [now left|]. intros g [<- | []]. lra.
  - destruct (Rltb (time best) (time f)) eqn:Hlt.
    + apply Rltb_true_iff in Hlt. destruct (IH f) as [Hin Hmax]. split.
      * simpl in Hin. tauto.
      * intros g [<- | Hg]; [|now apply Hmax].
        specialize (Hmax f (or_introl eq_refl)). lra.
    + apply Rltb_false_iff in Hlt. destruct (IH best) as [Hin Hmax]. split.
      * simpl in Hin. tauto.
      * intros g [<- | [<- | Hg]].
        -- apply Hmax. now left.
        -- specialize (Hmax best (or_introl eq_refl)). lra.
        -- apply Hmax. now right.
Qed.

Lemma min_time_from_spec (rest : list MonochromaticFlux) (best : MonochromaticFlux) :
  In (min_time_from best rest) (best :: rest)
  /\ forall g, In g (best :: rest) -> time (min_time_from best rest) <= time g.
Proof.
  revert best. induction rest as [|f rest IH]; intros best; simpl.
  - split; [now left|]. intros g [<- | []]. lra.
  - destruct (Rltb (time f) (time best)) eqn:Hlt.
    + apply Rltb_true_iff in Hlt. destruct (IH f) as [Hin Hmin]. split.
      * simpl in Hin. tauto.
      * intros g [<- | Hg]; [|now apply Hmin].
        specialize (Hmin f (or_introl eq_refl)). lra.
    + apply Rltb_false_iff in Hlt. destruct (IH best) as [Hin Hmin]. split.
      * simpl in Hin. tauto.
      * intros g [<- | [<- | Hg]].
        -- apply Hmin. now left.
        -- specialize (Hmin best (or_introl eq_refl)). lra.
        -- apply Hmin. now right.
Qed.

Lemma earlier_fluxes_In (lc : list MonochromaticFlux) (t : R) (g : MonochromaticFlux) :
  In g (earlier_fluxes lc t) <-> In g lc /\ time g < t.
Proof.
  unfold earlier_fluxes. rewrite filter_In, Rltb_true_iff.
  split; intros [H1 H2]; split; try assumption; lra.
Qed.

Lemma later_fluxes_In (lc : list MonochromaticFlux) (t : R) (g : MonochromaticFlux) :
  In g (later_fluxes lc t) <-> In g lc /\ t < time g.
Proof.
  unfold later_fluxes. rewrite filter_In, Rltb_true_iff.
  split; intros [H1 H2]; split; try assumption; lra.
Qed.

(** [get_previous_flux] returns a flux of the largest time strictly before
    [t]. *)
Lemma get_previous_flux_ok (lc : list MonochromaticFlux) (t : R)
    (p : MonochromaticFlux) :
  get_previous_flux lc t = OK p ->
  In p lc /\ time p < t /\ forall g, In g lc -> time g < t -> time g <= time p.
Proof.
  unfold get_previous_flux, py_max_by_time. intros H.
  destruct (earlier_fluxes lc t) as [|f rest] eqn:He; [discriminate|].
  inversion H; subst. clear H.
  destruct (max_time_from_spec rest f) as [Hin Hmax].
  rewrite <- He in Hin. apply earlier_fluxes_In in Hin as [Hin Ht].
  repeat split; try assumption.
  intros g Hg Hgt. apply Hmax. rewrite <- He. now apply earlier_fluxes_In.
Qed.

(** [get_next_flux] returns a flux of the smallest time strictly after
    [t]. *)
Lemma get_next_flux_ok (lc : list MonochromaticFlux) (t : R)
    (n : MonochromaticFlux) :
  get_next_flux lc t = OK n ->
  In n lc /\ t < time n /\ forall g, In g lc -> t < time g -> time n <= time g.
Proof.
  unfold get_next_flux, py_min_by_time. intros H.
  destruct (later_fluxes lc t) as [|f rest] eqn:He; [discriminate|].
  inversion H; subst. clear H.
  destruct (min_time_from_spec rest f) as [Hin Hmin].
  rewrite <- He in Hin. apply later_fluxes_In in Hin as [Hin Ht].
  repeat split; try assumption.
  intros g Hg Hgt. apply Hmin. rewrite <- He. now apply later_fluxes_In.
Qed.

Lemma get_previous_flux_raise (lc : list MonochromaticFlux) (t : R) :
  earlier_fluxes lc t = [] -> get_previous_flux lc t = Raise ValueError.
Proof. unfold get_previous_flux. now intros ->. Qed.

Lemma get_next_flux_raise (lc : list MonochromaticFlux) (t : R) :
  later_fluxes lc t = [] -> get_next_flux lc t = Raise ValueError.
Proof. unfold get_next_flux. now intros ->. Qed.

Lemma get_previous_flux_total (lc : list MonochromaticFlux) (t : R) :
  earlier_fluxes lc t <> [] -> exists p, get_previous_flux lc t = OK p.
Proof.
  unfold get_previous_flux, py_max_by_time.
  destruct (earlier_fluxes lc t); [congruence | eauto].
Qed.

Lemma get_next_flux_total (lc : list MonochromaticFlux) (t : R) :
  later_fluxes lc t <> [] -> exists n, get_next_flux lc t = OK n.
Proof.
  unfold get_next_flux, py_min_by_time.
  destruct (later_fluxes lc t); [congruence | eauto].
Qed.

(** ** One missing epoch *)

Lemma get_interpolated_flux_uncertainty_ok (p n : MonochromaticFlux) (t : R) :
  time p < time n ->
  get_interpolated_flux_uncertainty p n t
  = OK (interpolated_uncertainty_as_coded p n t).
Proof.
  intros Hlt. unfold get_interpolated_flux_uncertainty.
  rewrite !py_div_ok by lra. cbn [bind].
  rewrite py_sqrt_ok; [reflexivity|].
  assert (Hsq : forall a b c d, 0 <= sq a * sq b + sq c + sq d).
  { intros a b c d. unfold sq.
    pose proof (Rle_0_sqr (a * b)). pose proof (Rle_0_sqr c).
    pose proof (Rle_0_sqr d). unfold Rsqr in *. nra. }
  apply Hsq.
Qed.

Lemma interp1d_ok (x0 x1 y0 y1 x : R) :
  x0 < x < x1 ->
  interp1d x0 x1 y0 y1 x = OK (y0 + (x - x0) * (y1 - y0) / (x1 - x0)).
Proof.
  intros [H0 H1]. unfold interp1d.
  rewrite (proj2 (Rltb_false_iff x x0)) by lra.
  rewrite (proj2 (Rltb_false_iff x1 x)) by lra.
  simpl. f_equal. field. lra.
Qed.

(** With both neighbours found, one turn of the loop appends the
    interpolated flux when the neighbours are at most two days apart, and
    nothing otherwise. *)
Lemma interpolate_at_ok (lc : list MonochromaticFlux) (t : R)
    (p n : MonochromaticFlux) :
  get_previous_flux lc t = OK p -> get_next_flux lc t = OK n ->
  interpolate_at lc t
  = OK (if Rleb (time n - time p) 2
        then [interpolated_flux_between p n t] else []).
Proof.
  intros Hp Hn. unfold interpolate_at. rewrite Hp, Hn. cbn [bind].
  apply get_previous_flux_ok in Hp as [_ [Hpt _]].
  apply get_next_flux_ok in Hn as [_ [Hnt _]].
  destruct (Rleb (time n - time p) 2); [|reflexivity].
  rewrite interp1d_ok by lra. cbn [bind].
  rewrite get_interpolated_flux_uncertainty_ok by lra. reflexivity.
Qed.

(** Without a neighbour on one side, the turn raises [ValueError]. *)
Lemma interpolate_at_raise (lc : list MonochromaticFlux) (t : R) :
  earlier_fluxes lc t = [] \/ later_fluxes lc t = [] ->
  interpolate_at lc t = Raise ValueError.
Proof.
  intros H. unfold interpolate_at.
  destruct (earlier_fluxes lc t) as [|f rest] eqn:He.
  - now rewrite get_previous_flux_raise.
  - destruct H as [H | H]; [discriminate|].
    destruct (get_previous_flux_total lc t) as [p ->]; [congruence|].
    cbn [bind]. now rewrite get_next_flux_raise.
Qed.

Lemma interpolate_at_cases (lc : list MonochromaticFlux) (t : R) :
  (interpolate_at lc t = Raise ValueError
   /\ (earlier_fluxes lc t = [] \/ later_fluxes lc t = []))
  \/ (exists p n, get_previous_flux lc t = OK p /\ get_next_flux lc t = OK n
                  /\ interpolate_at lc t
                     = OK (if Rleb (time n - time p) 2
                           then [interpolated_flux_between p n t] else [])).
Proof.
  destruct (earlier_fluxes lc t) as [|f rest] eqn:He.
  - left. split; [apply interpolate_at_raise|]; now left.
  - destruct (later_fluxes lc t) as [|f' rest'] eqn:Hl.
    + left. split; [apply interpolate_at_raise|]; now right.
    + right.
      destruct (get_previous_flux_total lc t) as [p Hp]; [congruence|].
      destruct (get_next_flux_total lc t) as [n Hn]; [congruence|].
      exists p, n. repeat split; try assumption. now apply interpolate_at_ok.
Qed.

(** ** All missing epochs of a lightcurve *)

Lemma get_unobserved_times_In (lc : list MonochromaticFlux) (ots : list R) (t : R) :
  In t (get_unobserved_times lc ots) <-> In t ots /\ ~ In t (get_times lc).
Proof.
  unfold get_unobserved_times. rewrite filter_In, negb_true_iff, py_in_false_iff.
  reflexivity.
Qed.

Lemma mapM_raise_only {A B : Type} (g : A -> result B) (xs : list A)
    (x : A) (e0 : exn) :
  (forall y e, In y xs -> g y = Raise e -> e = e0) ->
  In x xs -> g x = Raise e0 -> mapM g xs = Raise e0.
Proof.
  induction xs as [|y xs IH]; simpl; intros Hall Hin Hx; [contradiction|].
  destruct (g y) as [b|e] eqn:Hy; simpl.
  - destruct Hin as [-> | Hin]; [congruence|].
    rewrite IH; [reflexivity | | assumption | assumption].
    intros z e Hz. apply Hall. now right.
  - f_equal. apply (Hall y e); auto.
Qed.

Lemma mapM_concat_In {A B : Type} (g : A -> result (list B))
    (xs : list A) (ys : list (list B)) (b : B) :
  mapM g xs = OK ys ->
  (In b (concat ys) <-> exists x y, In x xs /\ g x = OK y /\ In b y).
Proof.
  intros H. apply mapM_ok_inv in H.
  induction H as [|x y xs ys Hxy _ IH]; simpl.
  - split; [contradiction | intros [x [y [[] _]]]].
  - rewrite in_app_iff, IH. split.
    + intros [Hb | [x' [y' [Hx' [Hg Hb]]]]].
      * exists x, y. auto.
      * exists x', y'. auto.
    + intros [x' [y' [[<- | Hx'] [Hg Hb]]]].
      * left. congruence.
      * right. exists x', y'. auto.
Qed.

Lemma get_interpolated_fluxes_raise (lc : list MonochromaticFlux) (ots : list R)
    (t : R) :
  In t (get_unobserved_times lc ots) ->
  earlier_fluxes lc t = [] \/ later_fluxes lc t = [] ->
  get_interpolated_fluxes lc ots = Raise ValueError.
Proof.
  intros Hin Hedge. unfold get_interpolated_fluxes.
  rewrite (mapM_raise_only (interpolate_at lc) _ t ValueError); auto.
  - intros y e _ Hy.
    destruct (interpolate_at_cases lc y) as [[Hr _] | [p [n [_ [_ Hok]]]]];
      congruence.
  - now apply interpolate_at_raise.
Qed.

Lemma get_interpolated_fluxes_total (lc : list MonochromaticFlux) (ots : list R) :
  (forall t, In t (get_unobserved_times lc ots) ->
             earlier_fluxes lc t <> [] /\ later_fluxes lc t <> []) ->
  exists fs, get_interpolated_fluxes lc ots = OK fs.
Proof.
  intros Hall. unfold get_interpolated_fluxes.
  destruct (mapM_exists (interpolate_at lc) (get_unobserved_times lc ots))
    as [chunks ->]; [|cbn [bind]; eauto].
  intros t Ht. destruct (Hall t Ht) as [He Hl].
  destruct (interpolate_at_cases lc t) as [[_ [H | H]] | [p [n [_ [_ Hok]]]]];
    try contradiction. eauto.
Qed.

(** What a completed [get_interpolated_fluxes] found and returned. *)
Lemma get_interpolated_fluxes_ok_inv (lc : list MonochromaticFlux) (ots : list R)
    (fs : list MonochromaticFlux) :
  get_interpolated_fluxes lc ots = OK fs ->
  (forall t, In t (get_unobserved_times lc ots) ->
     exists p n, get_previous_flux lc t = OK p /\ get_next_flux lc t = OK n)
  /\ (forall f, In f fs <->
        exists t p n, In t (get_unobserved_times lc ots)
                      /\ get_previous_flux lc t = OK p
                      /\ get_next_flux lc t = OK n
                      /\ time n - time p <= 2
                      /\ f = interpolated_flux_between p n t).
Proof.
  unfold get_interpolated_fluxes. intros H.
  destruct (mapM (interpolate_at lc) (get_unobserved_times lc ots))
    as [chunks|e] eqn:Hm; [|discriminate].
  cbn [bind] in H. inversion H; subst. clear H. split.
  - intros t Ht.
    destruct (interpolate_at_cases lc t) as [[Hr _] | [p [n [Hp [Hn _]]]]];
      [|eauto].
    exfalso.
    destruct (mapM_raise _ _ t ValueError Ht Hr) as [e' He']. congruence.
  - intros f. rewrite (mapM_concat_In _ _ _ f Hm). split.
    + intros [t [chunk [Ht [Hchunk Hf]]]].
      destruct (interpolate_at_cases lc t) as [[Hr _] | [p [n [Hp [Hn Hok]]]]];
        [congruence|].
      rewrite Hok in Hchunk. inversion Hchunk; subst. clear Hchunk.
      destruct (Rleb (time n - time p) 2) eqn:Hgap; [|contradiction].
      destruct Hf as [<- | []].
      exists t, p, n. apply Rleb_true_iff in Hgap. auto 6.
    + intros [t [p [n [Ht [Hp [Hn [Hgap ->]]]]]]].
      exists t. eexists. split; [assumption|].
      split; [apply (interpolate_at_ok lc t p n Hp Hn)|].
      apply Rleb_true_iff in Hgap. rewrite Hgap. now left.
Qed.

(** C3, as the code has it.  For an epoch [t] that has an earlier and a
    later flux in the lightcurve, [get_previous_flux] returns a flux [prev]
    of the largest time before [t], [get_next_flux] a flux [next] of the
    smallest time after [t], and the turn of the loop of
    [get_interpolated_fluxes] for [t] builds one flux when the test
    [next.time - prev.time <= 2] of the code holds and none otherwise; the
    flux has the linearly interpolated value
    [prev.flux + (t - prev.time) * (next.flux - prev.flux) / (next.time - prev.time)],
    the wavelength of [prev] and the time [t].  When every missing epoch of
    the lightcurve has an earlier and a later flux, [get_interpolated_fluxes]
    returns, and a flux of time [t] is among the returned fluxes if and
    only if the test holds for the neighbours of [t].  When some missing
    epoch has no earlier, or no later, flux, [get_interpolated_fluxes]
    raises [ValueError] and returns no flux for any epoch. *)
Theorem interpolation_policy (lc : list MonochromaticFlux) (ots : list R) :
  (forall t,
      (exists g, In g lc /\ time g < t) ->
      (exists g, In g lc /\ t < time g) ->
      exists prev next,
        get_previous_flux lc t = OK prev
        /\ get_next_flux lc t = OK next
        /\ (In prev lc /\ time prev < t
            /\ forall g, In g lc -> time g < t -> time g <= time prev)
        /\ (In next lc /\ t < time next
            /\ forall g, In g lc -> t < time g -> time next <= time g)
        /\ interpolate_at lc t
           = OK (if Rleb (time next - time prev) 2
                 then [mkFlux (flux prev + (t - time prev) * (flux next - flux prev)
                                           / (time next - time prev))
                              (interpolated_uncertainty_as_coded prev next t)
                              (wavelength prev) t]
                 else []))
  /\ ((forall t, In t (get_unobserved_times lc ots) ->
                 (exists g, In g lc /\ time g < t)
                 /\ (exists g, In g lc /\ t < time g)) ->
      exists fs,
        get_interpolated_fluxes lc ots = OK fs
        /\ forall t, In t (get_unobserved_times lc ots) ->
             exists prev next,
               (In prev lc /\ time prev < t
                /\ forall g, In g lc -> time g < t -> time g <= time prev)
               /\ (In next lc /\ t < time next
                   /\ forall g, In g lc -> t < time g -> time next <= time g)
               /\ ((exists f, In f fs /\ time f = t)
                   <-> time next - time prev <= 2)
               /\ (time next - time prev > 2 ->
                   forall f, In f fs -> time f <> t)
               /\ (forall f, In f fs -> time f = t ->
                     flux f = flux prev + (t - time prev) * (flux next - flux prev)
                                          / (time next - time prev)
                     /\ wavelength f = wavelength prev))
  /\ ((exists t, In t (get_unobserved_times lc ots)
                 /\ ((forall g, In g lc -> t <= time g)
                     \/ (forall g, In g lc -> time g <= t))) ->
      get_interpolated_fluxes lc ots = Raise ValueError).
Proof.
  assert (Hearlier : forall t, (exists g, In g lc /\ time g < t) ->
                               earlier_fluxes lc t <> []).
  { intros t [g [Hg Hlt]] Heq.
    assert (Hin : In g (earlier_fluxes lc t)) by (apply earlier_fluxes_In; auto).
    rewrite Heq in Hin. contradiction. }
  assert (Hlater : forall t, (exists g, In g lc /\ t < time g) ->
                             later_fluxes lc t <> []).
  { intros t [g [Hg Hlt]] Heq.
    assert (Hin : In g (later_fluxes lc t)) by (apply later_fluxes_In; auto).
    rewrite Heq in Hin. contradiction. }
  assert (Hturn : forall t,
      (exists g, In g lc /\ time g < t) ->
      (exists g, In g lc /\ t < time g) ->
      exists prev next,
        get_previous_flux lc t = OK prev
        /\ get_next_flux lc t = OK next
        /\ (In prev lc /\ time prev < t
            /\ forall g, In g lc -> time g < t -> time g <= time prev)
        /\ (In next lc /\ t < time next
            /\ forall g, In g lc -> t < time g -> time next <= time g)
        /\ interpolate_at lc t
           = OK (if Rleb (time next - time prev) 2
                 then [interpolated_flux_between prev next t] else [])).
  { intros t He Hl.
    destruct (get_previous_flux_total lc t (Hearlier t He)) as [prev Hp].
    destruct (get_next_flux_total lc t (Hlater t Hl)) as [next Hn].
    exists prev, next. split; [assumption|]. split; [assumption|].
    split; [now apply get_previous_flux_ok|].
    split; [now apply get_next_flux_ok|].
    now apply interpolate_at_ok. }
  split; [exact Hturn|]. split.
  - intros Hall.
    destruct (get_interpolated_fluxes_total lc ots) as [fs Hfs].
    { intros t Ht. destruct (Hall t Ht) as [He Hl]. auto. }
    exists fs. split; [assumption|]. intros t Ht.
    destruct (Hall t Ht) as [He Hl].
    destruct (Hturn t He Hl) as [prev [next [Hp [Hn [Hprev [Hnext _]]]]]].
    exists prev, next. split; [assumption|]. split; [assumption|].
    destruct (get_interpolated_fluxes_ok_inv lc ots fs Hfs) as [_ Hin].
    assert (Hshape : forall f, In f fs -> time f = t ->
                       time next - time prev <= 2
                       /\ f = interpolated_flux_between prev next t).
    { intros f Hf Htf. apply Hin in Hf as [t' [p [n [_ [Hp' [Hn' [Hgap ->]]]]]]].
      simpl in Htf. subst t'.
      assert (p = prev) by congruence. assert (n = next) by congruence.
      subst. auto. }
    split; [split|split].
    + intros [f [Hf Htf]]. now destruct (Hshape f Hf Htf).
    + intros Hgap. exists (interpolated_flux_between prev next t).
      split; [|reflexivity]. apply Hin. exists t, prev, next. auto 6.
    + intros Hgap f Hf Htf. destruct (Hshape f Hf Htf). lra.
    + intros f Hf Htf. destruct (Hshape f Hf Htf) as [_ ->]. auto.
  - intros [t [Ht Hedge]]. apply get_interpolated_fluxes_raise with t;
      [assumption|].
    destruct Hedge as [Hnone | Hnone]; [left | right].
    + destruct (earlier_fluxes lc t) as [|g rest] eqn:He; [reflexivity|].
      assert (Hg : In g (earlier_fluxes lc t)) by (rewrite He; now left).
      apply earlier_fluxes_In in Hg as [Hg Hlt]. specialize (Hnone g Hg). lra.
    + destruct (later_fluxes lc t) as [|g rest] eqn:He; [reflexivity|].
      assert (Hg : In g (later_fluxes lc t)) by (rewrite He; now left).
      apply later_fluxes_In in Hg as [Hg Hlt]. specialize (Hnone g Hg). lra.
Qed.

(** ** Lightcurves across the turns of the loop *)

Lemma lightcurve_In (SEDs : list SED) (wl : R) (g : MonochromaticFlux) :
  In g (get_monochromatic_lightcurve SEDs wl)
  <-> (exists sed, In sed SEDs /\ In g sed) /\ wavelength g = wl.
Proof.
  unfold get_monochromatic_lightcurve. rewrite in_flat_map. split.
  - intros [sed [Hsed Hg]]. apply filter_In in Hg as [Hg Hw].
    apply has_wavelength_true_iff in Hw. eauto.
  - intros [[sed [Hsed Hg]] Hw]. exists sed. split; [assumption|].
    apply filter_In. split; [assumption | now apply has_wavelength_true_iff].
Qed.

(** On completion the collection is the old one with, at the end of each
    SED, the interpolated fluxes of its epoch; and either there was nothing
    to append or no SED is empty. *)
Lemma append_done (ifs : list MonochromaticFlux) (SEDs SEDs' : list SED) :
  append_interpolated_fluxes_to_SEDs ifs SEDs = (SEDs', Done) ->
  SEDs' = map (fun sed => sed ++ filter (same_epoch sed) ifs) SEDs
  /\ (ifs = [] \/ Forall (fun sed => sed <> []) SEDs).
Proof.
  destruct ifs as [|f ifs].
  - rewrite append_all_nothing. intros H. inversion H; subst. split; [|now left].
    clear H. induction SEDs' as [|s S IH]; [reflexivity|].
    cbn [map filter]. rewrite app_nil_r. f_equal. exact IH.
  - revert SEDs'. induction SEDs as [|sed SEDs IH]; intros SEDs' H.
    + simpl in H. inversion H. split; [reflexivity | right; constructor].
    + cbn [append_interpolated_fluxes_to_SEDs] in H.
      destruct sed as [|first tl]; [discriminate|].
      rewrite append_matching_nonempty in H.
      destruct (append_interpolated_fluxes_to_SEDs (f :: ifs) SEDs)
        as [rest' o] eqn:Hrest.
      inversion H; subst. clear H.
      destruct (IH rest' eq_refl) as [-> [Hnil | Hne]]; [discriminate|].
      split; [reflexivity|]. right. constructor; [discriminate | assumption].
Qed.

Lemma lightcurve_after_append_In (ifs : list MonochromaticFlux) (SEDs : list SED)
    (wl : R) (g : MonochromaticFlux) :
  In g (get_monochromatic_lightcurve
          (map (fun sed => sed ++ filter (same_epoch sed) ifs) SEDs) wl)
  <-> In g (get_monochromatic_lightcurve SEDs wl)
      \/ (wavelength g = wl /\ In g ifs
          /\ exists sed, In sed SEDs /\ same_epoch sed g = true).
Proof.
  rewrite !lightcurve_In. split.
  - intros [[sed' [Hsed' Hg]] Hw].
    apply in_map_iff in Hsed' as [sed [<- Hsed]].
    apply in_app_iff in Hg as [Hg | Hg].
    + left. eauto.
    + right. apply filter_In in Hg as [Hg Hse]. eauto 6.
  - intros [[[sed [Hsed Hg]] Hw] | [Hw [Hg [sed [Hsed Hse]]]]].
    + split; [|assumption]. exists (sed ++ filter (same_epoch sed) ifs).
      split; [now apply in_map with (f := fun s => s ++ filter (same_epoch s) ifs)|].
      apply in_app_iff. now left.
    + split; [|assumption]. exists (sed ++ filter (same_epoch sed) ifs).
      split; [now apply in_map with (f := fun s => s ++ filter (same_epoch s) ifs)|].
      apply in_app_iff. right. apply filter_In. auto.
Qed.

Lemma filter_none {A : Type} (p : A -> bool) (l : list A) :
  (forall x, In x l -> p x = false) -> filter p l = [].
Proof.
  induction l as [|a l IH]; simpl; intros H; [reflexivity|].
  rewrite (H a) by now left. apply IH. intros x Hx. apply H. now right.
Qed.

(** Appending fluxes of other wavelengths leaves a lightcurve as it is. *)
Lemma lightcurve_after_append_other (ifs : list MonochromaticFlux)
    (SEDs : list SED) (wl : R) :
  (forall f, In f ifs -> wavelength f <> wl) ->
  get_monochromatic_lightcurve
    (map (fun sed => sed ++ filter (same_epoch sed) ifs) SEDs) wl
  = get_monochromatic_lightcurve SEDs wl.
Proof.
  intros Hother. unfold get_monochromatic_lightcurve.
  induction SEDs as [|sed SEDs IH]; simpl; [reflexivity|].
  rewrite IH, filter_app. f_equal.
  rewrite (filter_none (has_wavelength wl) (filter (same_epoch sed) ifs)).
  - apply app_nil_r.
  - intros x Hx. apply filter_In in Hx as [Hx _].
    destruct (has_wavelength wl x) eqn:Hw; [|reflexivity].
    apply has_wavelength_true_iff in Hw. now apply Hother in Hx.
Qed.

(** The interpolated fluxes of a lightcurve have its wavelength and a
    time among the observed times. *)
Lemma interpolated_fluxes_wavelength (SEDs : list SED) (wl : R) (ots : list R)
    (ifs : list MonochromaticFlux) :
  get_interpolated_fluxes (get_monochromatic_lightcurve SEDs wl) ots = OK ifs ->
  forall f, In f ifs -> wavelength f = wl /\ In (time f) ots.
Proof.
  intros H f Hf.
  destruct (get_interpolated_fluxes_ok_inv _ _ _ H) as [_ Hin].
  apply Hin in Hf as [t [p [n [Ht [Hp [_ [_ ->]]]]]]]. simpl.
  apply get_previous_flux_ok in Hp as [Hp _].
  apply lightcurve_In in Hp as [_ Hw].
  apply get_unobserved_times_In in Ht as [Ht _]. auto.
Qed.

Lemma interpolate_wavelengths_edge (wls ots : list R) (wl t : R) :
  In wl wls ->
  forall SEDs,
    In t (get_unobserved_times (get_monochromatic_lightcurve SEDs wl) ots) ->
    earlier_fluxes (get_monochromatic_lightcurve SEDs wl) t = []
    \/ later_fluxes (get_monochromatic_lightcurve SEDs wl) t = [] ->
    exists e, snd (interpolate_wavelengths wls ots SEDs) = Raised e.
Proof.
  induction wls as [|wl' wls IH]; intros Hin SEDs Ht Hedge; [contradiction|].
  cbn [interpolate_wavelengths].
  destruct (Req_dec_T wl' wl) as [-> | Hneq].
  - rewrite (get_interpolated_fluxes_raise _ _ t Ht Hedge). simpl. eauto.
  - destruct Hin as [Heq | Hin]; [contradiction|].
    destruct (get_interpolated_fluxes (get_monochromatic_lightcurve SEDs wl') ots)
      as [ifs|e] eqn:Hifs; [|simpl; eauto].
    destruct (append_interpolated_fluxes_to_SEDs ifs SEDs) as [SEDs' [|e]] eqn:Happ;
      [|simpl; eauto].
    apply append_done in Happ as [-> _].
    assert (Hsame : get_monochromatic_lightcurve
                      (map (fun sed => sed ++ filter (same_epoch sed) ifs) SEDs) wl
                    = get_monochromatic_lightcurve SEDs wl).
    { apply lightcurve_after_append_other. intros f Hf.
      destruct (interpolated_fluxes_wavelength _ _ _ _ Hifs f Hf) as [Hw _].
      congruence. }
    apply IH; [assumption | now rewrite Hsame | now rewrite Hsame].
Qed.

(** C1, as the code has it. A missing epoch [t] of the lightcurve of an
    observed wavelength that lies before every observation of the
    lightcurve, or after every one, is not skipped: the search of the
    missing neighbour raises [ValueError], [get_interpolated_fluxes] on
    that lightcurve ends with this exception, and
    [interpolate_missing_fluxes] ends with an exception raised to its
    caller. *)
Theorem edge_epoch_raises (SEDs : list SED) (wl t : R) :
  In wl (get_observed_wavelengths SEDs) ->
  In t (get_unobserved_times (get_monochromatic_lightcurve SEDs wl)
                             (get_observed_times SEDs)) ->
  (forall g, In g (get_monochromatic_lightcurve SEDs wl) -> t < time g)
  \/ (forall g, In g (get_monochromatic_lightcurve SEDs wl) -> time g < t) ->
  get_interpolated_fluxes (get_monochromatic_lightcurve SEDs wl)
                          (get_observed_times SEDs)
  = Raise ValueError
  /\ exists e, snd (interpolate_missing_fluxes SEDs) = Raised e.
Proof.
  intros Hwl Ht Hedge.
  assert (Hnone : earlier_fluxes (get_monochromatic_lightcurve SEDs wl) t = []
                  \/ later_fluxes (get_monochromatic_lightcurve SEDs wl) t = []).
  { destruct Hedge as [Hbefore | Hafter]; [left | right].
    - apply filter_none. intros g Hg. apply Rltb_false_iff.
      specialize (Hbefore g Hg). lra.
    - apply filter_none. intros g Hg. apply Rltb_false_iff.
      specialize (Hafter g Hg). lra. }
  split.
  - now apply get_interpolated_fluxes_raise with t.
  - unfold interpolate_missing_fluxes.
    now apply interpolate_wavelengths_edge with wl t.
Qed.

(** ** Sorted sets *)

Lemma insert_sorted_In (x : R) (l : list R) (y : R) :
  In y (insert_sorted x l) <-> y = x \/ In y l.
Proof.
  induction l as [|a l IH]; simpl.
  - intuition.
  - destruct (Rltb x a) eqn:Hlt; simpl; [intuition|].
    destruct (Reqb x a) eqn:Heq; simpl.
    + apply Reqb_true_iff in Heq. subst. intuition.
    + rewrite IH. intuition.
Qed.

Lemma insert_sorted_sorted (x : R) (l : list R) :
  StronglySorted Rlt l -> StronglySorted Rlt (insert_sorted x l).
Proof.
  induction 1 as [|a l Hs IH Ha]; simpl.
  - repeat constructor.
  - destruct (Rltb x a) eqn:Hlt.
    + apply Rltb_true_iff in Hlt. constructor; [now constructor|].
      constructor; [assumption|].
      rewrite Forall_forall in *. intros y Hy. specialize (Ha y Hy). lra.
    + destruct (Reqb x a) eqn:Heq; [now constructor|].
      apply Rltb_false_iff in Hlt. apply Reqb_false_iff in Heq.
      constructor; [assumption|].
      rewrite Forall_forall in *. intros y Hy.
      apply insert_sorted_In in Hy as [-> | Hy]; [lra | now apply Ha].
Qed.

Lemma sorted_set_In (xs : list R) (y : R) : In y (sorted_set xs) <-> In y xs.
Proof.
  unfold sorted_set. induction xs as [|x xs IH]; simpl; [reflexivity|].
  rewrite insert_sorted_In, IH. intuition.
Qed.

Lemma sorted_set_sorted (xs : list R) : StronglySorted Rlt (sorted_set xs).
Proof.
  unfold sorted_set. induction xs as [|x xs IH]; simpl; [constructor|].
  now apply insert_sorted_sorted.
Qed.

Lemma strictly_sorted_NoDup (l : list R) : StronglySorted Rlt l -> NoDup l.
Proof.
  induction 1 as [|a l Hs IH Ha]; constructor; [|assumption].
  intros Hin. rewrite Forall_forall in Ha. specialize (Ha a Hin). lra.
Qed.

(** A strictly increasing list is determined by its elements. *)
Lemma strictly_sorted_unique (l1 l2 : list R) :
  StronglySorted Rlt l1 -> StronglySorted Rlt l2 ->
  (forall x, In x l1 <-> In x l2) -> l1 = l2.
Proof.
  intros H1. revert l2. induction H1 as [|a l1 Hs1 IH Ha]; intros l2 H2 Hmem.
  - destruct l2 as [|b l2]; [reflexivity|].
    exfalso. apply (proj2 (Hmem b)). now left.
  - destruct H2 as [|b l2 Hs2 Hb].
    + exfalso. apply (proj1 (Hmem a)). now left.
    + rewrite Forall_forall in Ha, Hb.
      assert (Hab : a = b).
      { destruct (proj1 (Hmem a) (or_introl eq_refl)) as [Heq | Hin];
          [now symmetry|].
        destruct (proj2 (Hmem b) (or_introl eq_refl)) as [Heq | Hin'];
          [assumption|].
        specialize (Ha b Hin'). specialize (Hb a Hin). lra. }
      subst b. f_equal. apply IH; [assumption|].
      intros x. split; intros Hx.
      * destruct (proj1 (Hmem x) (or_intror Hx)) as [Heq | Hin]; [|assumption].
        specialize (Ha x Hx). lra.
      * destruct (proj2 (Hmem x) (or_intror Hx)) as [Heq | Hin]; [|assumption].
        specialize (Hb x Hx). lra.
Qed.

Lemma sorted_set_ext (xs ys : list R) :
  (forall x, In x xs <-> In x ys) -> sorted_set xs = sorted_set ys.
Proof.
  intros H. apply strictly_sorted_unique; try apply sorted_set_sorted.
  intros x. now rewrite !sorted_set_In.
Qed.

(** ** Running the interpolation a second time *)

(** Between two neighbours more than two days apart no epoch is
    interpolated: a missing epoch strictly between them has the same
    neighbours. *)
Lemma wide_gap_stays (times : list R) (t p n t' q m : R) :
  ~ In t times ->
  In p times -> p < t -> (forall x, In x times -> x < t -> x <= p) ->
  In n times -> t < n -> (forall x, In x times -> t < x -> n <= x) ->
  In q times -> q < t' -> (forall x, In x times -> x < t' -> x <= q) ->
  In m times -> t' < m -> (forall x, In x times -> t' < x -> m <= x) ->
  n - p > 2 -> m - q <= 2 ->
  ~ (p < t' < n).
Proof.
  intros Ht Hp Hpt Hpmax Hn Hnt Hnmin Hq Hqt Hqmax Hm Hmt Hmmin Hwide Hnarrow
         [Hlo Hhi].
  assert (Hqp : q = p).
  { pose proof (Hqmax p Hp Hlo).
    destruct (Rtotal_order q t) as [Hlt | [Heq | Hgt]].
    - pose proof (Hpmax q Hq Hlt). lra.
    - subst. contradiction.
    - pose proof (Hnmin q Hq Hgt). lra. }
  assert (Hmn : m = n).
  { pose proof (Hmmin n Hn Hhi).
    destruct (Rtotal_order m t) as [Hlt | [Heq | Hgt]].
    - pose proof (Hpmax m Hm Hlt). lra.
    - subst. contradiction.
    - pose proof (Hnmin m Hm Hgt). lra. }
  lra.
Qed.

Lemma same_epoch_app (sed appended : SED) (f : MonochromaticFlux) :
  sed <> [] -> same_epoch (sed ++ appended) f = same_epoch sed f.
Proof. destruct sed; [congruence | reflexivity]. Qed.

Lemma same_epoch_time (sed : SED) (f g : MonochromaticFlux) :
  time f = time g -> same_epoch sed f = same_epoch sed g.
Proof. destruct sed; simpl; [reflexivity | now intros ->]. Qed.

Lemma previous_time (lc : list MonochromaticFlux) (t : R) (p : MonochromaticFlux) :
  get_previous_flux lc t = OK p ->
  In (time p) (get_times lc) /\ time p < t
  /\ forall x, In x (get_times lc) -> x < t -> x <= time p.
Proof.
  intros H. apply get_previous_flux_ok in H as [Hin [Hlt Hmax]].
  split; [now apply in_map|]. split; [assumption|].
  intros x Hx Hxt. apply in_map_iff in Hx as [g [<- Hg]]. now apply Hmax.
Qed.

Lemma next_time (lc : list MonochromaticFlux) (t : R) (n : MonochromaticFlux) :
  get_next_flux lc t = OK n ->
  In (time n) (get_times lc) /\ t < time n
  /\ forall x, In x (get_times lc) -> t < x -> time n <= x.
Proof.
  intros H. apply get_next_flux_ok in H as [Hin [Hlt Hmin]].
  split; [now apply in_map|]. split; [assumption|].
  intros x Hx Hxt. apply in_map_iff in Hx as [g [<- Hg]]. now apply Hmin.
Qed.

(** After the turn of the loop for a wavelength, the wavelength is
    settled. *)
Lemma step_settles (wl : R) (ots : list R) (SEDs : list SED)
    (ifs : list MonochromaticFlux) :
  Forall (fun sed => sed <> []) SEDs ->
  get_interpolated_fluxes (get_monochromatic_lightcurve SEDs wl) ots = OK ifs ->
  settled wl ots (map (fun sed => sed ++ filter (same_epoch sed) ifs) SEDs).
Proof.
  intros Hne H0. unfold settled.
  set (lc0 := get_monochromatic_lightcurve SEDs wl) in *.
  set (SEDs1 := map (fun sed => sed ++ filter (same_epoch sed) ifs) SEDs).
  set (lc1 := get_monochromatic_lightcurve SEDs1 wl).
  destruct (get_interpolated_fluxes_ok_inv lc0 ots ifs H0) as [Hnb0 Hin0].
  pose proof (lightcurve_after_append_In ifs SEDs wl) as Hlc1.
  fold SEDs1 lc1 lc0 in Hlc1.
  assert (Hsub : forall g, In g lc0 -> In g lc1)
    by (intros g Hg; apply Hlc1; now left).
  assert (Hun : forall t, In t (get_unobserved_times lc1 ots) ->
                          In t (get_unobserved_times lc0 ots)).
  { intros t Ht. apply get_unobserved_times_In in Ht as [Ht Hnot].
    apply get_unobserved_times_In. split; [assumption|].
    intros Hin. apply Hnot. unfold get_times in *.
    apply in_map_iff in Hin as [g [<- Hg]]. apply in_map. now apply Hsub. }
  destruct (get_interpolated_fluxes_total lc1 ots) as [ifs2 H2].
  { intros t Ht. destruct (Hnb0 t (Hun t Ht)) as [p [n [Hp Hn]]].
    apply get_previous_flux_ok in Hp as [Hp [Hpt _]].
    apply get_next_flux_ok in Hn as [Hn [Hnt _]].
    split; intros Heq.
    - assert (Hin : In p (earlier_fluxes lc1 t))
        by (apply earlier_fluxes_In; auto).
      rewrite Heq in Hin. contradiction.
    - assert (Hin : In n (later_fluxes lc1 t))
        by (apply later_fluxes_In; auto).
      rewrite Heq in Hin. contradiction. }
  exists ifs2. split; [assumption|].
  intros f2 sed1 Hf2 Hsed1.
  apply in_map_iff in Hsed1 as [sed [<- Hsed]].
  rewrite Forall_forall in Hne. rewrite same_epoch_app by now apply Hne.
  destruct (same_epoch sed f2) eqn:Hse; [exfalso | reflexivity].
  destruct (get_interpolated_fluxes_ok_inv lc1 ots ifs2 H2) as [_ Hin1].
  apply Hin1 in Hf2 as [t [p1 [n1 [Ht1 [Hp1 [Hn1 [Hgap1 ->]]]]]]].
  pose proof (Hun t Ht1) as Ht0.
  destruct (Hnb0 t Ht0) as [p [n [Hp Hn]]].
  pose proof (get_previous_flux_ok _ _ _ Hp) as [Hp_in _].
  pose proof (previous_time _ _ _ Hp) as [Hpin [Hpt Hpmax]].
  pose proof (next_time _ _ _ Hn) as [Hnin [Hnt Hnmin]].
  pose proof (get_previous_flux_ok _ _ _ Hp1) as [Hp1_in [Hp1t _]].
  pose proof (get_next_flux_ok _ _ _ Hn1) as [Hn1_in [Hn1t _]].
  apply get_unobserved_times_In in Ht1 as [_ Hnot1].
  apply get_unobserved_times_In in Ht0 as [Hots Hnot0].
  destruct (Rle_dec (time n - time p) 2) as [Hnarrow | Hwide].
  - (* the epoch was interpolated and appended the first time *)
    apply Hnot1.
    assert (Hf : In (interpolated_flux_between p n t) lc1).
    { apply Hlc1. right. split; [|split].
      - simpl. now apply lightcurve_In in Hp_in.
      - apply Hin0. exists t, p, n. repeat split; try assumption.
        apply get_unobserved_times_In. auto.
      - exists sed. split; [assumption|].
        rewrite <- Hse. now apply same_epoch_time. }
    change t with (time (interpolated_flux_between p n t)).
    now apply in_map.
  - (* the gap was too wide, and it still is *)
    assert (Hnew : forall g, In g ifs -> ~ (time p < time g < time n)).
    { intros g Hg. apply Hin0 in Hg as [t' [q [m [Ht' [Hq [Hm [Hqm ->]]]]]]].
      simpl.
      pose proof (previous_time _ _ _ Hq) as [Hqin [Hqt Hqmax]].
      pose proof (next_time _ _ _ Hm) as [Hmin [Hmt Hmmin]].
      apply (wide_gap_stays (get_times lc0) t (time p) (time n) t'
                            (time q) (time m)); auto; lra. }
    assert (Hp1p : time p1 <= time p).
    { apply Hlc1 in Hp1_in as [Hold | [_ [Hifs _]]].
      - apply Hpmax; [now apply in_map | assumption].
      - specialize (Hnew p1 Hifs). lra. }
    assert (Hnn1 : time n <= time n1).
    { apply Hlc1 in Hn1_in as [Hold | [_ [Hifs _]]].
      - apply Hnmin; [now apply in_map | assumption].
      - specialize (Hnew n1 Hifs). lra. }
    lra.
Qed.

Lemma Forall2_in_right {A B : Type} (P : A -> B -> Prop)
    (xs : list A) (ys : list B) (y : B) :
  Forall2 P xs ys -> In y ys -> exists x, In x xs /\ P x y.
Proof.
  induction 1 as [|a b xs ys Hab Hrest IH]; intros Hin; [contradiction|].
  destruct Hin as [-> | Hin].
  - exists a. split; [now left | assumption].
  - destruct (IH Hin) as [x [Hx HP]]. exists x. split; [now right | assumption].
Qed.

(** Being settled depends only on the lightcurve of the wavelength and on
    the first flux of each SED. *)
Lemma settled_frame (wl : R) (ots : list R) (SEDs SEDs' : list SED) :
  Forall (fun sed => sed <> []) SEDs ->
  Forall2 appended_to SEDs SEDs' ->
  get_monochromatic_lightcurve SEDs' wl = get_monochromatic_lightcurve SEDs wl ->
  settled wl ots SEDs -> settled wl ots SEDs'.
Proof.
  intros Hne Happ Hlc [ifs [Hifs Hno]]. exists ifs. rewrite Hlc.
  split; [assumption|]. intros f sed' Hf Hsed'.
  destruct (Forall2_in_right _ _ _ _ Happ Hsed') as [sed [Hsed [extra ->]]].
  rewrite Forall_forall in Hne. rewrite same_epoch_app by now apply Hne.
  now apply Hno.
Qed.

Lemma append_keeps_nonempty (ifs : list MonochromaticFlux) (SEDs : list SED) :
  Forall (fun sed => sed <> []) SEDs ->
  Forall (fun sed => sed <> [])
         (map (fun sed => sed ++ filter (same_epoch sed) ifs) SEDs).
Proof.
  intros H. apply Forall_map. eapply Forall_impl; [|exact H].
  intros sed Hsed. simpl. destruct sed; [congruence | discriminate].
Qed.

(** After a completed loop every wavelength of the loop is settled. *)
Lemma loop_settles (wls ots : list R) :
  NoDup wls ->
  forall SEDs SEDs',
    Forall (fun sed => sed <> []) SEDs ->
    interpolate_wavelengths wls ots SEDs = (SEDs', Done) ->
    (forall wl, In wl wls -> settled wl ots SEDs')
    /\ (forall w, ~ In w wls ->
          get_monochromatic_lightcurve SEDs' w = get_monochromatic_lightcurve SEDs w)
    /\ Forall (fun sed => sed <> []) SEDs'.
Proof.
  induction 1 as [|wl wls Hnotin Hnd IH]; intros SEDs SEDs' Hne Hrun.
  - simpl in Hrun. inversion Hrun; subst.
    split; [intros wl []|]. split; [reflexivity | assumption].
  - cbn [interpolate_wavelengths] in Hrun.
    destruct (get_interpolated_fluxes (get_monochromatic_lightcurve SEDs wl) ots)
      as [ifs|e] eqn:Hifs; [|discriminate].
    destruct (append_interpolated_fluxes_to_SEDs ifs SEDs) as [SEDs1 [|e]] eqn:Happ;
      [|discriminate].
    apply append_done in Happ as [-> _].
    pose proof (append_keeps_nonempty ifs SEDs Hne) as Hne1.
    destruct (IH _ _ Hne1 Hrun) as [Hsettled [Hframe Hne']].
    pose proof (interpolate_wavelengths_appends wls ots
                  (map (fun sed => sed ++ filter (same_epoch sed) ifs) SEDs))
      as Happended.
    rewrite Hrun in Happended. simpl in Happended.
    split; [|split; [|assumption]].
    + intros w [<- | Hw]; [|now apply Hsettled].
      apply settled_frame
        with (map (fun sed => sed ++ filter (same_epoch sed) ifs) SEDs);
        auto.
      now apply step_settles.
    + intros w Hw. rewrite Hframe by (intros Hin; apply Hw; now right).
      apply lightcurve_after_append_other. intros f Hf.
      destruct (interpolated_fluxes_wavelength _ _ _ _ Hifs f Hf) as [Hwf _].
      intros Heq. apply Hw. left. congruence.
Qed.

(** Where every wavelength is settled, the loop changes nothing. *)
Lemma loop_settled (wls ots : list R) (SEDs : list SED) :
  Forall (fun sed => sed <> []) SEDs ->
  (forall wl, In wl wls -> settled wl ots SEDs) ->
  interpolate_wavelengths wls ots SEDs = (SEDs, Done).
Proof.
  intros Hne. induction wls as [|wl wls IH]; intros Hall; [reflexivity|].
  cbn [interpolate_wavelengths].
  destruct (Hall wl (or_introl eq_refl)) as [ifs [Hifs Hno]].
  rewrite Hifs, (append_all_nonempty ifs SEDs Hne).
  assert (Hsame : map (fun sed => sed ++ filter (same_epoch sed) ifs) SEDs = SEDs).
  { rewrite <- (map_id SEDs) at 2. apply map_ext_in. intros sed Hsed.
    rewrite filter_none; [apply app_nil_r|]. intros f Hf. now apply Hno. }
  rewrite Hsame. apply IH. intros w Hw. apply Hall. now right.
Qed.

(** With an empty SED in the collection the loop completes only if nothing
    is ever interpolated, and then nothing changes. *)
Lemma loop_with_empty_sed (wls ots : list R) (SEDs SEDs' : list SED) :
  In [] SEDs ->
  interpolate_wavelengths wls ots SEDs = (SEDs', Done) -> SEDs' = SEDs.
Proof.
  intros Hempty. induction wls as [|wl wls IH]; intros Hrun.
  - simpl in Hrun. now inversion Hrun.
  - cbn [interpolate_wavelengths] in Hrun.
    destruct (get_interpolated_fluxes (get_monochromatic_lightcurve SEDs wl) ots)
      as [ifs|e] eqn:Hifs; [|discriminate].
    destruct (append_interpolated_fluxes_to_SEDs ifs SEDs) as [SEDs1 [|e]] eqn:Happ;
      [|discriminate].
    destruct ifs as [|f ifs].
    + rewrite append_all_nothing in Happ. inversion Happ; subst. now apply IH.
    + pose proof (append_all_empty_sed (f :: ifs) SEDs) as Hraise.
      rewrite Happ in Hraise. simpl in Hraise.
      discriminate Hraise; [discriminate | assumption].
Qed.

(** The fluxes of the collection after a completed loop: the old ones, and
    new ones at a wavelength of the loop and at an observed time. *)
Lemma loop_provenance (wls ots : list R) :
  forall SEDs SEDs',
    interpolate_wavelengths wls ots SEDs = (SEDs', Done) ->
    forall sed' f, In sed' SEDs' -> In f sed' ->
      (exists sed, In sed SEDs /\ In f sed)
      \/ (In (wavelength f) wls /\ In (time f) ots).
Proof.
  induction wls as [|wl wls IH]; intros SEDs SEDs' Hrun sed' f Hsed' Hf.
  - simpl in Hrun. inversion Hrun; subst. left. eauto.
  - cbn [interpolate_wavelengths] in Hrun.
    destruct (get_interpolated_fluxes (get_monochromatic_lightcurve SEDs wl) ots)
      as [ifs|e] eqn:Hifs; [|discriminate].
    destruct (append_interpolated_fluxes_to_SEDs ifs SEDs) as [SEDs1 [|e]] eqn:Happ;
      [|discriminate].
    apply append_done in Happ as [-> _].
    destruct (IH _ _ Hrun sed' f Hsed' Hf) as [[sed1 [Hsed1 Hf1]] | [Hw Ht]].
    + apply in_map_iff in Hsed1 as [sed [<- Hsed]].
      apply in_app_iff in Hf1 as [Hold | Hnew]; [left; eauto|].
      right. apply filter_In in Hnew as [Hnew _].
      destruct (interpolated_fluxes_wavelength _ _ _ _ Hifs f Hnew) as [Hwf Htf].
      split; [left; now symmetry | assumption].
    + right. split; [now right | assumption].
Qed.

Lemma observed_wavelengths_In (SEDs : list SED) (w : R) :
  In w (get_observed_wavelengths SEDs)
  <-> exists sed f, In sed SEDs /\ In f sed /\ wavelength f = w.
Proof.
  unfold get_observed_wavelengths. rewrite sorted_set_In, in_flat_map. split.
  - intros [sed [Hsed Hw]]. apply in_map_iff in Hw as [f [Hf Hin]]. eauto.
  - intros [sed [f [Hsed [Hf Hw]]]]. exists sed. split; [assumption|].
    apply in_map_iff. eauto.
Qed.

Lemma observed_times_In (SEDs : list SED) (t : R) :
  In t (get_observed_times SEDs)
  <-> exists sed f, In sed SEDs /\ In f sed /\ time f = t.
Proof.
  unfold get_observed_times, get_times. rewrite sorted_set_In, in_flat_map. split.
  - intros [sed [Hsed Hw]]. apply in_map_iff in Hw as [f [Hf Hin]]. eauto.
  - intros [sed [f [Hsed [Hf Hw]]]]. exists sed. split; [assumption|].
    apply in_map_iff. eauto.
Qed.

(** A completed call leaves the observed wavelengths and times as they
    were. *)
Lemma observed_unchanged (SEDs SEDs' : list SED) :
  interpolate_missing_fluxes SEDs = (SEDs', Done) ->
  get_observed_wavelengths SEDs' = get_observed_wavelengths SEDs
  /\ get_observed_times SEDs' = get_observed_times SEDs.
Proof.
  unfold interpolate_missing_fluxes. intros Hrun.
  pose proof (loop_provenance _ _ _ _ Hrun) as Hprov.
  pose proof (interpolate_wavelengths_appends
                (get_observed_wavelengths SEDs) (get_observed_times SEDs) SEDs)
    as Happ.
  rewrite Hrun in Happ. simpl in Happ.
  assert (Hkept : forall sed f, In sed SEDs -> In f sed ->
                    exists sed', In sed' SEDs' /\ In f sed').
  { intros sed f Hsed Hf.
    destruct (Forall2_in_left _ _ _ _ Happ Hsed) as [sed' [Hsed' [extra ->]]].
    exists (sed ++ extra). split; [assumption|]. apply in_app_iff. now left. }
  split.
  - apply strictly_sorted_unique; try apply sorted_set_sorted.
    intros w. rewrite !observed_wavelengths_In. split.
    + intros [sed' [f [Hsed' [Hf Hw]]]].
      destruct (Hprov sed' f Hsed' Hf) as [[sed [Hsed Hfs]] | [Hwf _]];
        [eauto|].
      rewrite Hw in Hwf. now apply observed_wavelengths_In in Hwf.
    + intros [sed [f [Hsed [Hf Hw]]]].
      destruct (Hkept sed f Hsed Hf) as [sed' [Hsed' Hf']]. eauto.
  - apply strictly_sorted_unique; try apply sorted_set_sorted.
    intros t. rewrite !observed_times_In. split.
    + intros [sed' [f [Hsed' [Hf Ht]]]].
      destruct (Hprov sed' f Hsed' Hf) as [[sed [Hsed Hfs]] | [_ Htf]];
        [eauto|].
      rewrite Ht in Htf. now apply observed_times_In in Htf.
    + intros [sed [f [Hsed [Hf Ht]]]].
      destruct (Hkept sed f Hsed Hf) as [sed' [Hsed' Hf']]. eauto.
Qed.

Lemma nonempty_or_has_empty (SEDs : list SED) :
  Forall (fun sed => sed <> []) SEDs \/ In [] SEDs.
Proof.
  induction SEDs as [|sed SEDs [IH | IH]].
  - left. constructor.
  - destruct sed; [right; now left|]. left. constructor; [discriminate | assumption].
  - right. now right.
Qed.

(** C7. [interpolate_missing_fluxes] is idempotent: when a call completes,
    a second call on the collection it leaves completes as well and leaves
    every SED as it is, appending nothing. *)
Theorem interpolate_missing_fluxes_idempotent (SEDs SEDs' : list SED) :
  interpolate_missing_fluxes SEDs = (SEDs', Done) ->
  interpolate_missing_fluxes SEDs' = (SEDs', Done).
Proof.
  intros Hrun.
  destruct (nonempty_or_has_empty SEDs) as [Hne | Hempty].
  - destruct (observed_unchanged _ _ Hrun) as [Hw Ht].
    unfold interpolate_missing_fluxes in *. rewrite Hw, Ht.
    destruct (loop_settles (get_observed_wavelengths SEDs)
                (get_observed_times SEDs)
                (strictly_sorted_NoDup _ (sorted_set_sorted _))
                SEDs SEDs' Hne Hrun) as [Hsettled [_ Hne']].
    now apply loop_settled.
  - assert (SEDs' = SEDs)
      by (unfold interpolate_missing_fluxes in Hrun;
          now apply loop_with_empty_sed in Hrun).
    now subst.
Qed.

(** ** The example collections, evaluated *)

Ltac r_bool :=
  match goal with
  | |- context [Reqb ?a ?b] =>
      first [rewrite (proj2 (Reqb_true_iff a b)) by lra
            | rewrite (proj2 (Reqb_false_iff a b)) by lra]
  | |- context [Rltb ?a ?b] =>
      first [rewrite (proj2 (Rltb_true_iff a b)) by lra
            | rewrite (proj2 (Rltb_false_iff a b)) by lra]
  | |- context [Rleb ?a ?b] =>
      first [rewrite (proj2 (Rleb_true_iff a b)) by lra
            | rewrite (proj2 (Rleb_false_iff a b)) by lra]
  end.

Ltac r_step := repeat progress (
  unfold has_wavelength, get_unobserved_times, get_times, py_in,
    get_previous_flux, get_next_flux, earlier_fluxes, later_fluxes,
    py_max_by_time, py_min_by_time, same_epoch, get_monochromatic_lightcurve,
    get_observed_wavelengths, get_observed_times, sorted_set, py_index;
  cbn [flat_map map filter app fold_right existsb negb orb andb fst snd
       insert_sorted max_time_from min_time_from append_matching
       append_interpolated_fluxes_to_SEDs nth_error
       flux flux_uncertainty wavelength time]).

Ltac r_eval := r_step; repeat (r_bool; r_step).

Ltac r_data := unfold three_epochs, leading_gap, a0, b0, a1, a2, b2.

Example three_epochs_wavelengths : get_observed_wavelengths three_epochs = [1; 2].
Proof. r_data. r_eval. reflexivity. Qed.

Example three_epochs_times : get_observed_times three_epochs = [0; 1; 2].
Proof. r_data. r_eval. reflexivity. Qed.

Example three_epochs_lightcurve_1 :
  get_monochromatic_lightcurve three_epochs 1 = [a0; a1; a2].
Proof. r_data. r_eval. reflexivity. Qed.

Example three_epochs_lightcurve_2 :
  get_monochromatic_lightcurve three_epochs 2 = [b0; b2].
Proof. r_data. r_eval. reflexivity. Qed.

Example nothing_missing_at_1 :
  get_interpolated_fluxes [a0; a1; a2] [0; 1; 2] = OK [].
Proof. unfold get_interpolated_fluxes. r_data. r_eval. reflexivity. Qed.

Example missing_at_2 : get_unobserved_times [b0; b2] [0; 1; 2] = [1].
Proof. r_data. r_eval. reflexivity. Qed.

Example previous_of_1 : get_previous_flux [b0; b2] 1 = OK b0.
Proof. r_data. r_eval. reflexivity. Qed.

Example next_of_1 : get_next_flux [b0; b2] 1 = OK b2.
Proof. r_data. r_eval. reflexivity. Qed.

Example interpolated_at_2 :
  get_interpolated_fluxes [b0; b2] [0; 1; 2]
  = OK [interpolated_flux_between b0 b2 1].
Proof.
  unfold get_interpolated_fluxes. rewrite missing_at_2. cbn [mapM].
  rewrite (interpolate_at_ok _ _ _ _ previous_of_1 next_of_1).
  r_data. r_eval. reflexivity.
Qed.

Example three_epochs_run :
  interpolate_missing_fluxes three_epochs
  = ([[a0; b0]; [a1; interpolated_flux_between b0 b2 1]; [a2; b2]], Done).
Proof.
  unfold interpolate_missing_fluxes.
  rewrite three_epochs_wavelengths, three_epochs_times.
  cbn [interpolate_wavelengths].
  rewrite three_epochs_lightcurve_1, nothing_missing_at_1, append_all_nothing.
  rewrite three_epochs_lightcurve_2, interpolated_at_2.
  unfold interpolated_flux_between. r_data. r_eval. reflexivity.
Qed.

Example leading_gap_wavelengths : get_observed_wavelengths leading_gap = [1; 2].
Proof. r_data. r_eval. reflexivity. Qed.

Example leading_gap_times : get_observed_times leading_gap = [0; 2].
Proof. r_data. r_eval. reflexivity. Qed.

Example leading_gap_lightcurve_2 :
  get_monochromatic_lightcurve leading_gap 2 = [b2].
Proof. r_data. r_eval. reflexivity. Qed.

Example leading_gap_missing : get_unobserved_times [b2] [0; 2] = [0].
Proof. r_data. r_eval. reflexivity. Qed.

Example leading_gap_run :
  interpolate_missing_fluxes leading_gap = (leading_gap, Raised ValueError).
Proof.
  unfold interpolate_missing_fluxes.
  rewrite leading_gap_wavelengths, leading_gap_times.
  cbn [interpolate_wavelengths].
  assert (H1 : get_monochromatic_lightcurve leading_gap 1 = [a0; a2])
    by (r_data; r_eval; reflexivity).
  assert (H2 : get_interpolated_fluxes [a0; a2] [0; 2] = OK [])
    by (unfold get_interpolated_fluxes; r_data; r_eval; reflexivity).
  rewrite H1, H2, append_all_nothing, leading_gap_lightcurve_2.
  rewrite (get_interpolated_fluxes_raise [b2] [0; 2] 0).
  - reflexivity.
  - rewrite leading_gap_missing. now left.
  - left. r_data. r_eval. reflexivity.
Qed.

(** ** The claims on the example collections *)

Lemma append_reads_first_of_every_SED_witness :
  ([b0] <> [] /\ In [] [[a0]; []]
   /\ snd (append_interpolated_fluxes_to_SEDs [b0] [[a0]; []]) = Raised IndexError)
  /\ (Forall (fun sed => sed <> []) [[a0]; [a1]]
      /\ append_interpolated_fluxes_to_SEDs [b0] [[a0]; [a1]]
         = (map (fun sed => sed ++ filter (same_epoch sed) [b0]) [[a0]; [a1]], Done)).
Proof.
  assert (H1 : [b0] <> []) by discriminate.
  assert (H2 : In ([] : SED) [[a0]; []]) by (right; now left).
  assert (H3 : Forall (fun sed : SED => sed <> []) [[a0]; [a1]])
    by (repeat constructor; discriminate).
  split.
  - split; [exact H1|]. split; [exact H2|].
    exact (proj1 (append_reads_first_of_every_SED [b0] [[a0]; []]) H1 H2).
  - split; [exact H3|].
    exact (proj2 (append_reads_first_of_every_SED [b0] [[a0]; [a1]]) H3).
Defined.

Lemma interpolate_missing_fluxes_only_appends_witness :
  interpolate_missing_fluxes three_epochs
  = ([[a0; b0]; [a1; interpolated_flux_between b0 b2 1]; [a2; b2]], Done)
  /\ (length [[a0; b0]; [a1; interpolated_flux_between b0 b2 1]; [a2; b2]]
      = length three_epochs
      /\ Forall2 appended_to three_epochs
           [[a0; b0]; [a1; interpolated_flux_between b0 b2 1]; [a2; b2]]
      /\ (forall k sed i f,
             nth_error three_epochs k = Some sed -> nth_error sed i = Some f ->
             exists sed',
               nth_error [[a0; b0]; [a1; interpolated_flux_between b0 b2 1];
                          [a2; b2]] k = Some sed'
               /\ nth_error sed' i = Some f)).
Proof.
  split; [exact three_epochs_run|].
  exact (interpolate_missing_fluxes_only_appends three_epochs _ Done
           three_epochs_run).
Defined.

Lemma interpolate_missing_fluxes_idempotent_witness :
  interpolate_missing_fluxes three_epochs
  = ([[a0; b0]; [a1; interpolated_flux_between b0 b2 1]; [a2; b2]], Done)
  /\ interpolate_missing_fluxes
       [[a0; b0]; [a1; interpolated_flux_between b0 b2 1]; [a2; b2]]
     = ([[a0; b0]; [a1; interpolated_flux_between b0 b2 1]; [a2; b2]], Done).
Proof.
  split; [exact three_epochs_run|].
  exact (interpolate_missing_fluxes_idempotent three_epochs _ three_epochs_run).
Defined.

Example missing_between_1_and_3 : get_unobserved_times [a1; a3] [0; 2] = [0; 2].
Proof. unfold a3. r_data. r_eval. reflexivity. Qed.

Example previous_of_2 : get_previous_flux [a1; a3] 2 = OK a1.
Proof. unfold a3. r_data. r_eval. reflexivity. Qed.

Example next_of_2 : get_next_flux [a1; a3] 2 = OK a3.
Proof. unfold a3. r_data. r_eval. reflexivity. Qed.

Example nothing_before_0 : earlier_fluxes [a1; a3] 0 = [].
Proof. unfold a3. r_data. r_eval. reflexivity. Qed.

(** C3, as the specification has it, fails: in the lightcurve observed at
    times 1 and 3, time 2 is a missing epoch whose neighbours are 2 apart,
    yet no flux is produced for it: [get_interpolated_fluxes] raises
    [ValueError] at the missing epoch 0, which has no earlier flux. *)
Lemma bracketed_epoch_not_interpolated :
  In 2 (get_unobserved_times [a1; a3] [0; 2])
  /\ get_previous_flux [a1; a3] 2 = OK a1
  /\ get_next_flux [a1; a3] 2 = OK a3
  /\ time a3 - time a1 <= 2
  /\ get_interpolated_fluxes [a1; a3] [0; 2] = Raise ValueError
  /\ forall fs, get_interpolated_fluxes [a1; a3] [0; 2] <> OK fs.
Proof.
  assert (Hraise : get_interpolated_fluxes [a1; a3] [0; 2] = Raise ValueError).
  { apply get_interpolated_fluxes_raise with 0.
    - rewrite missing_between_1_and_3. now left.
    - left. exact nothing_before_0. }
  split; [rewrite missing_between_1_and_3; right; now left|].
  split; [exact previous_of_2|]. split; [exact next_of_2|].
  split; [simpl; lra|]. split; [exact Hraise|].
  intros fs H. rewrite Hraise in H. discriminate.
Qed.

Lemma interpolation_policy_witness :
  ((exists g, In g [b0; b2] /\ time g < 1)
   /\ (exists g, In g [b0; b2] /\ 1 < time g)
   /\ exists prev next,
        get_previous_flux [b0; b2] 1 = OK prev
        /\ get_next_flux [b0; b2] 1 = OK next
        /\ (In prev [b0; b2] /\ time prev < 1
            /\ forall g, In g [b0; b2] -> time g < 1 -> time g <= time prev)
        /\ (In next [b0; b2] /\ 1 < time next
            /\ forall g, In g [b0; b2] -> 1 < time g -> time next <= time g)
        /\ interpolate_at [b0; b2] 1
           = OK (if Rleb (time next - time prev) 2
                 then [mkFlux (flux prev + (1 - time prev) * (flux next - flux prev)
                                           / (time next - time prev))
                              (interpolated_uncertainty_as_coded prev next 1)
                              (wavelength prev) 1]
                 else []))
  /\ ((forall t, In t (get_unobserved_times [b0; b2] [0; 1; 2]) ->
                 (exists g, In g [b0; b2] /\ time g < t)
                 /\ (exists g, In g [b0; b2] /\ t < time g))
      /\ exists fs,
           get_interpolated_fluxes [b0; b2] [0; 1; 2] = OK fs
           /\ forall t, In t (get_unobserved_times [b0; b2] [0; 1; 2]) ->
                exists prev next,
                  (In prev [b0; b2] /\ time prev < t
                   /\ forall g, In g [b0; b2] -> time g < t -> time g <= time prev)
                  /\ (In next [b0; b2] /\ t < time next
                      /\ forall g, In g [b0; b2] -> t < time g ->
                                   time next <= time g)
                  /\ ((exists f, In f fs /\ time f = t)
                      <-> time next - time prev <= 2)
                  /\ (time next - time prev > 2 ->
                      forall f, In f fs -> time f <> t)
                  /\ (forall f, In f fs -> time f = t ->
                        flux f = flux prev + (t - time prev) * (flux next - flux prev)
                                             / (time next - time prev)
                        /\ wavelength f = wavelength prev))
  /\ ((exists t, In t (get_unobserved_times [a1; a3] [0; 2])
                 /\ ((forall g, In g [a1; a3] -> t <= time g)
                     \/ (forall g, In g [a1; a3] -> time g <= t)))
      /\ get_interpolated_fluxes [a1; a3] [0; 2] = Raise ValueError).
Proof.
  assert (He : exists g, In g [b0; b2] /\ time g < 1)
    by (exists b0; split; [now left | simpl; lra]).
  assert (Hl : exists g, In g [b0; b2] /\ 1 < time g)
    by (exists b2; split; [right; now left | simpl; lra]).
  assert (Hall : forall t, In t (get_unobserved_times [b0; b2] [0; 1; 2]) ->
                 (exists g, In g [b0; b2] /\ time g < t)
                 /\ (exists g, In g [b0; b2] /\ t < time g)).
  { rewrite missing_at_2. intros t [<- | []]. split; assumption. }
  assert (Hedge : exists t, In t (get_unobserved_times [a1; a3] [0; 2])
                 /\ ((forall g, In g [a1; a3] -> t <= time g)
                     \/ (forall g, In g [a1; a3] -> time g <= t))).
  { exists 0. split; [rewrite missing_between_1_and_3; now left|].
    left. intros g [<- | [<- | []]]; simpl; lra. }
  split; [|split].
  - split; [exact He|]. split; [exact Hl|].
    exact (proj1 (interpolation_policy [b0; b2] [0; 1; 2]) 1 He Hl).
  - split; [exact Hall|].
    exact (proj1 (proj2 (interpolation_policy [b0; b2] [0; 1; 2])) Hall).
  - split; [exact Hedge|].
    exact (proj2 (proj2 (interpolation_policy [a1; a3] [0; 2])) Hedge).
Defined.

(** C1, as the specification has it, fails: in [leading_gap] time 0 is a
    missing epoch of the lightcurve of wavelength 2 and lies before its
    first observation, and [interpolate_missing_fluxes] ends with
    [ValueError] raised to its caller. *)
Lemma leading_gap_is_not_skipped :
  In 2 (get_observed_wavelengths leading_gap)
  /\ In 0 (get_unobserved_times (get_monochromatic_lightcurve leading_gap 2)
                                (get_observed_times leading_gap))
  /\ (forall g, In g (get_monochromatic_lightcurve leading_gap 2) -> 0 < time g)
  /\ interpolate_missing_fluxes leading_gap = (leading_gap, Raised ValueError)
  /\ snd (interpolate_missing_fluxes leading_gap) <> Done.
Proof.
  rewrite leading_gap_wavelengths, leading_gap_times, leading_gap_lightcurve_2,
    leading_gap_missing, leading_gap_run.
  split; [right; now left|]. split; [now left|].
  split; [|split; [reflexivity | discriminate]].
  intros g [<- | []]. simpl. lra.
Qed.

Lemma edge_epoch_raises_witness :
  In 2 (get_observed_wavelengths leading_gap)
  /\ In 0 (get_unobserved_times (get_monochromatic_lightcurve leading_gap 2)
                                (get_observed_times leading_gap))
  /\ ((forall g, In g (get_monochromatic_lightcurve leading_gap 2) -> 0 < time g)
      \/ (forall g, In g (get_monochromatic_lightcurve leading_gap 2) -> time g < 0))
  /\ get_interpolated_fluxes (get_monochromatic_lightcurve leading_gap 2)
                             (get_observed_times leading_gap)
     = Raise ValueError
  /\ exists e, snd (interpolate_missing_fluxes leading_gap) = Raised e.
Proof.
  assert (H1 : In 2 (get_observed_wavelengths leading_gap))
    by (rewrite leading_gap_wavelengths; right; now left).
  assert (H2 : In 0 (get_unobserved_times
                       (get_monochromatic_lightcurve leading_gap 2)
                       (get_observed_times leading_gap)))
    by (rewrite leading_gap_times, leading_gap_lightcurve_2, leading_gap_missing;
        now left).
  assert (H3 : (forall g, In g (get_monochromatic_lightcurve leading_gap 2) ->
                          0 < time g)
               \/ (forall g, In g (get_monochromatic_lightcurve leading_gap 2) ->
                             time g < 0)).
  { left. rewrite leading_gap_lightcurve_2. intros g [<- | []]. simpl. lra. }
  split; [exact H1|]. split; [exact H2|]. split; [exact H3|].
  exact (edge_epoch_raises leading_gap 2 0 H1 H2 H3).
Defined.

(** ** The uncertainty of an interpolated flux *)

(** Strictly between its neighbours, the uncertainty the code computes is
    larger than the one the specification gives. *)
Lemma interpolated_uncertainty_too_large (prev next : MonochromaticFlux) (t : R) :
  time prev < t < time next ->
  spec_interpolated_uncertainty prev next t
  < interpolated_uncertainty_as_coded prev next t.
Proof.
  intros [Hlo Hhi].
  unfold spec_interpolated_uncertainty, interpolated_uncertainty_as_coded, sq.
  set (w1 := (time next - t) / (time next - time prev)).
  set (w2 := (t - time prev) / (time next - time prev)).
  assert (Hw2 : 0 < w2 < 1).
  { unfold w2. split.
    - apply Rdiv_lt_0_compat; lra.
    - apply Rmult_lt_reg_r with (time next - time prev); [lra|].
      unfold Rdiv. rewrite Rmult_assoc, Rinv_l by lra. lra. }
  generalize dependent w2. generalize w1 (flux_uncertainty prev)
    (flux_uncertainty next). clear. intros w1 pu nu w2 Hw2.
  apply sqrt_lt_1_alt. simpl.
  pose proof (Rle_0_sqr (w1 * pu)). pose proof (Rle_0_sqr (w2 * nu)).
  pose proof (Rle_0_sqr nu). unfold Rsqr in *.
  assert (w2 * w2 < 1) by nra.
  assert (w2 * w2 * (nu * nu) <= nu * nu) by nra.
  split; nra.
Qed.

(** C2 fails on the code. Between the fluxes [b0] (time 0) and [b2]
    (time 2), both of uncertainty 1, the flux interpolated at time 1 gets
    the uncertainty [sqrt (3/2)]: the code adds the square of the second
    weight and the square of the next uncertainty where the specification
    multiplies them, which gives [sqrt (1/2)]. *)
Theorem interpolated_uncertainty_defect :
  (exists v, get_interpolated_fluxes [b0; b2] [0; 1; 2]
             = OK [mkFlux v (sqrt (3 / 2)) 2 1])
  /\ get_interpolated_flux_uncertainty b0 b2 1 = OK (sqrt (3 / 2))
  /\ spec_interpolated_uncertainty b0 b2 1 = sqrt (1 / 2)
  /\ sqrt (3 / 2) <> sqrt (1 / 2).
Proof.
  assert (Hcoded : interpolated_uncertainty_as_coded b0 b2 1 = sqrt (3 / 2)).
  { unfold interpolated_uncertainty_as_coded, sq. r_data. simpl. f_equal. field. }
  split; [|split; [|split]].
  - eexists. rewrite interpolated_at_2. unfold interpolated_flux_between.
    rewrite Hcoded. reflexivity.
  - rewrite get_interpolated_flux_uncertainty_ok by (r_data; simpl; lra).
    now rewrite Hcoded.
  - unfold spec_interpolated_uncertainty. r_data. simpl. f_equal. field.
  - assert (sqrt (1 / 2) < sqrt (3 / 2)) by (apply sqrt_lt_1_alt; lra). lra.
Qed.

(** * Further properties of the code *)

(** ** Failures of the flux combiner *)

Lemma mapM_raise_inv {A B : Type} (g : A -> result B) (xs : list A) (e : exn) :
  mapM g xs = Raise e -> exists x, In x xs /\ g x = Raise e.
Proof.
  induction xs as [|x xs IH]; simpl; intros H; [discriminate|].
  destruct (g x) as [y|e1] eqn:Hx; simpl in H.
  - destruct (mapM g xs) as [ys|e2]; simpl in H; [discriminate|].
    inversion H; subst. destruct (IH eq_refl) as [z [Hz Hgz]]. eauto.
  - inversion H; subst. eauto.
Qed.

Lemma get_weights_raise (us : list R) (e : exn) :
  get_weights us = Raise e -> e = ZeroDivisionError /\ In 0 us.
Proof.
  unfold get_weights. intros H.
  apply mapM_raise_inv in H as [s [Hs Hdiv]].
  unfold py_div in Hdiv. destruct (Reqb (sq s) 0) eqn:Hz; [|discriminate].
  inversion Hdiv; subst. split; [reflexivity|].
  apply Reqb_true_iff in Hz. unfold sq in Hz.
  assert (s = 0) by nra. now subst.
Qed.

Lemma get_weights_zero_exact (us : list R) :
  In 0 us -> get_weights us = Raise ZeroDivisionError.
Proof.
  intros Hin. destruct (get_weights us) as [ws|e] eqn:H.
  - destruct (get_weights_zero us Hin) as [e He]. congruence.
  - apply get_weights_raise in H as [-> _]. reflexivity.
Qed.

Lemma combine_fluxes_zero (fluxes : list MonochromaticFlux) :
  In 0 (map flux_uncertainty fluxes) ->
  combine_fluxes fluxes = Raise ZeroDivisionError.
Proof.
  intros Hin. unfold combine_fluxes, get_flux_uncertainties, weighted_average.
  now rewrite (get_weights_zero_exact _ Hin).
Qed.

Lemma combine_fluxes_nil : combine_fluxes [] = Raise ZeroDivisionError.
Proof.
  unfold combine_fluxes, weighted_average, get_weights, py_sum. simpl.
  now rewrite py_div_zero.
Qed.

(** X1. [combine_fluxes] on an empty list raises [ZeroDivisionError] (the
    quotient of two empty sums), so [fluxes[0]] is never reached; on a list
    whose first flux has a zero uncertainty it raises [ZeroDivisionError];
    and on a list with a zero uncertainty anywhere it never returns a
    flux. *)
Theorem combine_fluxes_rejects_zero_uncertainty
    (f : MonochromaticFlux) (before after : list MonochromaticFlux) :
  flux_uncertainty f = 0 ->
  combine_fluxes [] = Raise ZeroDivisionError
  /\ combine_fluxes (f :: after) = Raise ZeroDivisionError
  /\ forall c, combine_fluxes (before ++ f :: after) <> OK c.
Proof.
  intros Hz. split; [apply combine_fluxes_nil|]. split.
  - apply combine_fluxes_zero. simpl. left. assumption.
  - intros c Hc. rewrite combine_fluxes_zero in Hc; [discriminate|].
    rewrite <- Hz. apply in_map. apply in_or_app. right. now left.
Qed.

Lemma combine_fluxes_rejects_zero_uncertainty_witness :
  flux_uncertainty (mkFlux 10 0 5 0) = 0
  /\ combine_fluxes [] = Raise ZeroDivisionError
  /\ combine_fluxes (mkFlux 10 0 5 0 :: [mkFlux 20 2 5 1]) = Raise ZeroDivisionError
  /\ forall c, combine_fluxes ([mkFlux 30 1 5 2] ++ mkFlux 10 0 5 0 :: [mkFlux 20 2 5 1])
                <> OK c.
Proof.
  split; [reflexivity|].
  exact (combine_fluxes_rejects_zero_uncertainty (mkFlux 10 0 5 0)
           [mkFlux 30 1 5 2] [mkFlux 20 2 5 1] eq_refl).
Defined.

(** The list comprehension reads [weights[i]] past the end when there are
    more values than weights. *)
Lemma products_short (pw pv ws vs : list R) :
  length pw = length pv -> (length ws < length vs)%nat ->
  mapM (fun i => w <- py_index (pw ++ ws) i ;;
                 v <- py_index (pv ++ vs) i ;;
                 OK (w * v))
       (seq (length pv) (length vs))
  = Raise IndexError.
Proof.
  revert pw pv vs. induction ws as [|w ws IH]; intros pw pv vs Hp Hl.
  - destruct vs as [|v vs]; [simpl in Hl; lia|].
    cbn [length seq mapM]. unfold py_index at 1.
    rewrite <- Hp, app_nil_r.
    rewrite (proj2 (nth_error_None pw (length pw))) by lia. reflexivity.
  - destruct vs as [|v vs]; [simpl in Hl; lia|]. simpl in Hl.
    cbn [length seq mapM]. unfold py_index at 1 2.
    rewrite <- Hp at 1.
    rewrite !nth_error_app2 by lia. rewrite !Nat.sub_diag. cbn [nth_error bind].
    replace (pw ++ w :: ws) with ((pw ++ [w]) ++ ws) by (now rewrite <- app_assoc).
    replace (pv ++ v :: vs) with ((pv ++ [v]) ++ vs) by (now rewrite <- app_assoc).
    replace (S (length pv)) with (length (pv ++ [v]))
      by (rewrite length_app; simpl; lia).
    rewrite IH; [reflexivity | rewrite !length_app; simpl; lia | lia].
Qed.

Lemma products_long (pw pv ws vs : list R) :
  length pw = length pv -> (length vs <= length ws)%nat ->
  mapM (fun i => w <- py_index (pw ++ ws) i ;;
                 v <- py_index (pv ++ vs) i ;;
                 OK (w * v))
       (seq (length pv) (length vs))
  = OK (map (fun wv => fst wv * snd wv) (combine ws vs)).
Proof.
  revert pw pv ws. induction vs as [|v vs IH]; intros pw pv ws Hp Hl.
  - destruct ws; reflexivity.
  - destruct ws as [|w ws]; [simpl in Hl; lia|]. simpl in Hl.
    cbn [length seq mapM combine map fst snd].
    unfold py_index at 1 2.
    rewrite <- Hp at 1.
    rewrite !nth_error_app2 by lia. rewrite !Nat.sub_diag. cbn [nth_error bind].
    replace (pw ++ w :: ws) with ((pw ++ [w]) ++ ws) by (now rewrite <- app_assoc).
    replace (pv ++ v :: vs) with ((pv ++ [v]) ++ vs) by (now rewrite <- app_assoc).
    replace (S (length pv)) with (length (pv ++ [v]))
      by (rewrite length_app; simpl; lia).
    rewrite IH; [reflexivity | rewrite !length_app; simpl; lia | lia].
Qed.

Lemma combine_weights_sum (values uncertainties : list R) :
  spec_sum (fun wv => fst wv * snd wv)
           (combine (map spec_weight uncertainties) values)
  = spec_sum (fun vs => spec_weight (snd vs) * fst vs)
             (combine values uncertainties).
Proof.
  revert uncertainties. induction values as [|v vs IH]; intros [|u us]; simpl;
    try reflexivity.
  now rewrite IH.
Qed.

(** X2. Lists of different lengths, with nonzero uncertainties: with more
    values than uncertainties [weighted_average] raises [IndexError]; with
    fewer values it raises nothing, and the surplus uncertainties still
    count in the denominator, which is the sum of all the weights. *)
Theorem weighted_average_length_mismatch (values uncertainties : list R) :
  Forall (fun s => s <> 0) uncertainties ->
  ((length uncertainties < length values)%nat ->
   weighted_average values uncertainties = Raise IndexError)
  /\ (uncertainties <> [] ->
      (length values <= length uncertainties)%nat ->
      weighted_average values uncertainties
      = OK (spec_sum (fun vs => spec_weight (snd vs) * fst vs)
                     (combine values uncertainties)
            / spec_sum spec_weight uncertainties)).
Proof.
  intros Hnz. split.
  - intros Hlen. unfold weighted_average.
    rewrite (get_weights_ok _ Hnz). cbn [bind].
    pose proof (products_short [] [] (map spec_weight uncertainties) values
                  eq_refl) as Hshort.
    cbn [app length] in Hshort. rewrite Hshort by (now rewrite length_map).
    reflexivity.
  - intros Hne Hlen. unfold weighted_average.
    rewrite (get_weights_ok _ Hnz). cbn [bind].
    pose proof (products_long [] [] (map spec_weight uncertainties) values
                  eq_refl) as Hlong.
    cbn [app length] in Hlong. rewrite Hlong by (now rewrite length_map).
    cbn [bind].
    destruct uncertainties as [|s us]; [congruence|].
    pose proof (spec_sum_weight_pos s us Hnz) as Hpos.
    rewrite !py_sum_spec, !spec_sum_map, combine_weights_sum.
    now rewrite py_div_ok by lra.
Qed.

Lemma weighted_average_length_mismatch_witness :
  Forall (fun s => s <> 0) [1; 2] /\
  (Nat.lt (length [1; 2]) (length [10; 20; 30]) /\
   weighted_average [10; 20; 30] [1; 2] = Raise IndexError)
  /\ ([1; 2] <> [] /\ Nat.le (length [10]) (length [1; 2]) /\
      weighted_average [10] [1; 2]
      = OK (spec_sum (fun vs => spec_weight (snd vs) * fst vs) (combine [10] [1; 2])
            / spec_sum spec_weight [1; 2])).
Proof.
  assert (Hnz : Forall (fun s => s <> 0) [1; 2]) by (repeat constructor; lra).
  assert (Hlt : Nat.lt (length [1; 2]) (length [10; 20; 30])) by (simpl; lia).
  assert (Hne : [1; 2] <> ([] : list R)) by discriminate.
  assert (Hle : Nat.le (length [10]) (length [1; 2])) by (simpl; lia).
  split; [exact Hnz|]. split.
  - split; [exact Hlt|].
    exact (proj1 (weighted_average_length_mismatch [10; 20; 30] [1; 2] Hnz) Hlt).
  - split; [exact Hne|]. split; [exact Hle|].
    exact (proj2 (weighted_average_length_mismatch [10] [1; 2] Hnz) Hne Hle).
Defined.

(** ** The weighted mean under a change of units *)

Lemma spec_sum_scale {A : Type} (g : A -> R) (c : R) (xs : list A) :
  spec_sum (fun x => c * g x) xs = c * spec_sum g xs.
Proof. induction xs as [|x xs IH]; simpl; [lra | rewrite IH; lra]. Qed.

Lemma weighted_sum_affine (a b : R) (values uncertainties : list R) :
  length values = length uncertainties ->
  spec_sum (fun vs => spec_weight (snd vs) * fst vs)
           (combine (map (fun v => a * v + b) values) uncertainties)
  = a * spec_sum (fun vs => spec_weight (snd vs) * fst vs)
                 (combine values uncertainties)
    + b * spec_sum spec_weight uncertainties.
Proof.
  revert uncertainties. induction values as [|v vs IH]; intros [|u us] Hlen;
    try discriminate; simpl.
  - lra.
  - injection Hlen as Hlen. rewrite (IH us Hlen). lra.
Qed.

Lemma weighted_sum_rescaled (c : R) (values uncertainties : list R) :
  c <> 0 ->
  Forall (fun s => s <> 0) uncertainties ->
  spec_sum (fun vs => spec_weight (snd vs) * fst vs)
           (combine values (map (Rmult c) uncertainties))
  = / (c * c) * spec_sum (fun vs => spec_weight (snd vs) * fst vs)
                         (combine values uncertainties)
  /\ spec_sum spec_weight (map (Rmult c) uncertainties)
     = / (c * c) * spec_sum spec_weight uncertainties.
Proof.
  intros Hc Hnz. revert values.
  induction Hnz as [|u us Hu Hus IH]; intros values.
  - destruct values; simpl; split; lra.
  - assert (Hw : spec_weight (c * u) = / (c * c) * spec_weight u)
      by (unfold spec_weight; simpl; field; auto).
    destruct values as [|v vs]; simpl.
    + split; [lra|]. destruct (IH []) as [_ ->]. rewrite Hw. lra.
    + destruct (IH vs) as [-> ->]. rewrite Hw. split; lra.
Qed.

(** X4. The weighted mean does not depend on the unit of the
    uncertainties and follows an affine change of the values: for lists of
    equal length, nonzero uncertainties and [c <> 0], the average of
    [a * v + b] under the uncertainties [c * s] is [a * r + b], where [r] is
    the average of the values [v] under the uncertainties [s]. *)
Theorem weighted_average_equivariant (a b c v : R) (vs uncertainties : list R) :
  c <> 0 ->
  length (v :: vs) = length uncertainties ->
  Forall (fun s => s <> 0) uncertainties ->
  exists r, weighted_average (v :: vs) uncertainties = OK r
            /\ weighted_average (map (fun x => a * x + b) (v :: vs))
                                (map (Rmult c) uncertainties)
               = OK (a * r + b).
Proof.
  intros Hc Hlen Hnz.
  rewrite weighted_average_ok by (discriminate || assumption).
  eexists. split; [reflexivity|].
  assert (Hnz' : Forall (fun s => s <> 0) (map (Rmult c) uncertainties)).
  { rewrite Forall_forall in *. intros s Hs.
    apply in_map_iff in Hs as [u [<- Hu]]. specialize (Hnz u Hu). nra. }
  rewrite weighted_average_ok;
    [| discriminate | now rewrite !length_map in * | assumption].
  f_equal. unfold spec_weighted_average.
  destruct (weighted_sum_rescaled c (map (fun x => a * x + b) (v :: vs))
              uncertainties Hc Hnz) as [-> ->].
  rewrite (weighted_sum_affine a b (v :: vs) uncertainties Hlen).
  destruct uncertainties as [|s us]; [discriminate|].
  pose proof (spec_sum_weight_pos s us Hnz) as Hpos.
  field. split; [lra | nra].
Qed.

Lemma weighted_average_equivariant_witness :
  2 <> 0 /\ length [10; 20] = length [1; 2] /\
  Forall (fun s => s <> 0) [1; 2] /\
  exists r, weighted_average [10; 20] [1; 2] = OK r
            /\ weighted_average (map (fun x => 3 * x + 5) [10; 20])
                                (map (Rmult 2) [1; 2])
               = OK (3 * r + 5).
Proof.
  assert (Hc : 2 <> 0) by lra.
  assert (Hnz : Forall (fun s => s <> 0) [1; 2]) by (repeat constructor; lra).
  split; [exact Hc|]. split; [reflexivity|]. split; [exact Hnz|].
  exact (weighted_average_equivariant 3 5 2 10 [20] [1; 2] Hc eq_refl Hnz).
Defined.

(** ** Failures and coverage of the SED builder *)

(** X5. In a SED that [get_SED] returns, every input flux that is the only
    one at its wavelength is present unmodified, whatever its uncertainty
    (no division is made for it); and [get_SED] never returns a SED when a
    wavelength has several fluxes of which one has a zero uncertainty. *)
Theorem get_SED_lone_and_zero (set_order : list R -> list R)
    (fluxes : list MonochromaticFlux) :
  set_iteration set_order ->
  (forall sed f,
      get_SED set_order fluxes = OK sed ->
      In f fluxes ->
      length (filter (has_wavelength (wavelength f)) fluxes) = 1%nat ->
      In f sed)
  /\ (forall f,
        In f fluxes -> flux_uncertainty f = 0 ->
        (1 < length (filter (has_wavelength (wavelength f)) fluxes))%nat ->
        forall sed, get_SED set_order fluxes <> OK sed).
Proof.
  intros Hset. destruct (Hset (map wavelength fluxes)) as [_ Hmem].
  assert (Hentry : forall sed f,
             get_SED set_order fluxes = OK sed -> In f fluxes ->
             exists c, In c sed
                       /\ sed_entry (filter (has_wavelength (wavelength f)) fluxes)
                          = OK c).
  { intros sed f Hsed Hf.
    destruct (get_SED_wavelengths _ _ _ Hsed) as [_ Hall].
    assert (Hwl : In (wavelength f) (set_order (map wavelength fluxes)))
      by (apply Hmem; now apply in_map).
    exact (Forall2_in_left _ _ _ _ Hall Hwl). }
  assert (Hgroup : forall f, In f fluxes ->
             In f (filter (has_wavelength (wavelength f)) fluxes)).
  { intros f Hf. apply filter_In.
    split; [assumption | now apply has_wavelength_true_iff]. }
  split.
  - intros sed f Hsed Hf Hone.
    destruct (Hentry sed f Hsed Hf) as [c [Hc Hok]].
    unfold sed_entry in Hok. rewrite Hone in Hok. cbn [Nat.eqb] in Hok.
    specialize (Hgroup f Hf).
    destruct (filter (has_wavelength (wavelength f)) fluxes) as [|x [|y l]];
      try discriminate.
    destruct Hgroup as [-> | []]. simpl in Hok. inversion Hok; subst. assumption.
  - intros f Hf Hz Hmany sed Hsed.
    destruct (Hentry sed f Hsed Hf) as [c [_ Hok]].
    unfold sed_entry in Hok.
    destruct (Nat.eqb_spec (length (filter (has_wavelength (wavelength f)) fluxes)) 1)
      as [Hone | _]; [lia|].
    rewrite combine_fluxes_zero in Hok; [discriminate|].
    rewrite <- Hz. apply in_map. now apply Hgroup.
Qed.

(** X6. A SED returned by [get_SED] has exactly the wavelengths of the
    input, so at most as many fluxes as the input; and each of its fluxes
    carries the time of the first input flux of its wavelength, in input
    order. *)
Theorem get_SED_covers_wavelengths (set_order : list R -> list R)
    (fluxes : list MonochromaticFlux) (sed : SED) :
  set_iteration set_order ->
  get_SED set_order fluxes = OK sed ->
  (forall w, In w (map wavelength sed) <-> In w (map wavelength fluxes))
  /\ (length sed <= length fluxes)%nat
  /\ (forall c, In c sed ->
        exists first rest,
          filter (has_wavelength (wavelength c)) fluxes = first :: rest
          /\ time c = time first).
Proof.
  intros Hset Hsed. destruct (Hset (map wavelength fluxes)) as [Hnd Hmem].
  destruct (get_SED_wavelengths _ _ _ Hsed) as [Hw Hall].
  split; [|split].
  - intros w. rewrite Hw. apply Hmem.
  - rewrite <- (length_map wavelength sed), Hw, <- (length_map wavelength fluxes).
    apply NoDup_incl_length; [assumption|]. intros w. apply Hmem.
  - intros c Hc.
    destruct (Forall2_in_right _ _ _ _ Hall Hc) as [wl [Hwl Hentry]].
    pose proof (sed_entry_wavelength _ _ _ Hentry) as Hcw. rewrite Hcw.
    unfold sed_entry in Hentry.
    destruct (Nat.eqb (length (filter (has_wavelength wl) fluxes)) 1).
    + unfold py_index in Hentry.
      destruct (filter (has_wavelength wl) fluxes) as [|x l]; [discriminate|].
      simpl in Hentry. inversion Hentry; subst. eauto.
    + apply combine_fluxes_ok_inv in Hentry as [first [Hn [_ Ht]]].
      destruct (filter (has_wavelength wl) fluxes) as [|x l]; [discriminate|].
      simpl in Hn. inversion Hn; subst. eauto.
Qed.

Example an_order_two_at_5 : an_order (map wavelength two_at_5) = [5; 6].
Proof.
  unfold an_order, two_at_5. cbn [map wavelength nodup].
  destruct (in_dec Req_dec_T 5 [5; 6]) as [_ | Hn];
    [|exfalso; apply Hn; now left].
  destruct (in_dec Req_dec_T 5 [6]) as [[H | []] | _]; [lra|].
  destruct (in_dec Req_dec_T 6 []) as [[] | _]. reflexivity.
Qed.

Example two_at_5_SED :
  get_SED an_order two_at_5
  = OK [mkFlux (spec_weighted_average [10; 20] [1; 2])
               (spec_weighted_average_uncertainty [1; 2]) 5 0;
        mkFlux 30 1 6 0].
Proof.
  unfold get_SED, yield_fluxes_at_each_observed_wavelength.
  rewrite an_order_two_at_5. unfold two_at_5. r_eval.
  cbn [mapM]. unfold sed_entry at 1. cbn [length Nat.eqb].
  unfold combine_fluxes, get_flux_values, get_flux_uncertainties.
  cbn [map flux flux_uncertainty].
  rewrite weighted_average_ok;
    [| discriminate | reflexivity | repeat constructor; lra].
  cbn [bind].
  rewrite weighted_average_uncertainty_ok;
    [| discriminate | repeat constructor; lra].
  reflexivity.
Qed.

Lemma get_SED_lone_and_zero_witness :
  set_iteration an_order
  /\ (get_SED an_order two_at_5
      = OK [mkFlux (spec_weighted_average [10; 20] [1; 2])
                   (spec_weighted_average_uncertainty [1; 2]) 5 0;
            mkFlux 30 1 6 0]
      /\ In (mkFlux 30 1 6 0) two_at_5
      /\ length (filter (has_wavelength (wavelength (mkFlux 30 1 6 0))) two_at_5)
         = 1%nat
      /\ In (mkFlux 30 1 6 0)
            [mkFlux (spec_weighted_average [10; 20] [1; 2])
                    (spec_weighted_average_uncertainty [1; 2]) 5 0;
             mkFlux 30 1 6 0])
  /\ (In (mkFlux 10 0 5 0) [mkFlux 10 0 5 0; mkFlux 20 2 5 1]
      /\ flux_uncertainty (mkFlux 10 0 5 0) = 0
      /\ Nat.lt 1 (length (filter (has_wavelength (wavelength (mkFlux 10 0 5 0)))
                                  [mkFlux 10 0 5 0; mkFlux 20 2 5 1]))
      /\ forall sed,
           get_SED an_order [mkFlux 10 0 5 0; mkFlux 20 2 5 1] <> OK sed).
Proof.
  assert (Hin : In (mkFlux 30 1 6 0) two_at_5) by (right; right; now left).
  assert (Hone : length (filter (has_wavelength (wavelength (mkFlux 30 1 6 0)))
                                two_at_5) = 1%nat)
    by (unfold two_at_5; r_eval; reflexivity).
  assert (Hin0 : In (mkFlux 10 0 5 0) [mkFlux 10 0 5 0; mkFlux 20 2 5 1])
    by now left.
  assert (Hmany : Nat.lt 1 (length (filter
                     (has_wavelength (wavelength (mkFlux 10 0 5 0)))
                     [mkFlux 10 0 5 0; mkFlux 20 2 5 1])))
    by (r_eval; unfold Nat.lt; simpl; lia).
  split; [exact an_order_set_iteration|]. split.
  - split; [exact two_at_5_SED|]. split; [exact Hin|]. split; [exact Hone|].
    exact (proj1 (get_SED_lone_and_zero an_order two_at_5 an_order_set_iteration)
             _ _ two_at_5_SED Hin Hone).
  - split; [exact Hin0|]. split; [reflexivity|]. split; [exact Hmany|].
    exact (proj2 (get_SED_lone_and_zero an_order
                    [mkFlux 10 0 5 0; mkFlux 20 2 5 1] an_order_set_iteration)
             _ Hin0 eq_refl Hmany).
Defined.

Lemma get_SED_covers_wavelengths_witness :
  set_iteration an_order /\
  get_SED an_order two_at_5
  = OK [mkFlux (spec_weighted_average [10; 20] [1; 2])
               (spec_weighted_average_uncertainty [1; 2]) 5 0;
        mkFlux 30 1 6 0] /\
  ((forall w, In w (map wavelength
                      [mkFlux (spec_weighted_average [10; 20] [1; 2])
                              (spec_weighted_average_uncertainty [1; 2]) 5 0;
                       mkFlux 30 1 6 0])
              <-> In w (map wavelength two_at_5))
   /\ Nat.le (length [mkFlux (spec_weighted_average [10; 20] [1; 2])
                             (spec_weighted_average_uncertainty [1; 2]) 5 0;
                      mkFlux 30 1 6 0])
             (length two_at_5)
   /\ (forall c, In c [mkFlux (spec_weighted_average [10; 20] [1; 2])
                              (spec_weighted_average_uncertainty [1; 2]) 5 0;
                       mkFlux 30 1 6 0] ->
         exists first rest,
           filter (has_wavelength (wavelength c)) two_at_5 = first :: rest
           /\ time c = time first)).
Proof.
  split; [exact an_order_set_iteration|]. split; [exact two_at_5_SED|].
  exact (get_SED_covers_wavelengths an_order two_at_5 _
           an_order_set_iteration two_at_5_SED).
Defined.

(** ** Which neighbour is returned *)

Lemma max_time_from_keeps (p : MonochromaticFlux) (l : list MonochromaticFlux) :
  (forall g, In g l -> time g <= time p) -> max_time_from p l = p.
Proof.
  induction l as [|a l IH]; simpl; intros H; [reflexivity|].
  rewrite (proj2 (Rltb_false_iff (time p) (time a))) by (apply H; now left).
  apply IH. intros g Hg. apply H. now right.
Qed.

Lemma max_time_from_first (l1 l2 : list MonochromaticFlux)
    (p best : MonochromaticFlux) :
  time best < time p ->
  (forall g, In g l1 -> time g < time p) ->
  (forall g, In g l2 -> time g <= time p) ->
  max_time_from best (l1 ++ p :: l2) = p.
Proof.
  revert best. induction l1 as [|a l1 IH]; intros best Hbest H1 H2; simpl.
  - rewrite (proj2 (Rltb_true_iff _ _) Hbest). now apply max_time_from_keeps.
  - assert (H1' : forall g, In g l1 -> time g < time p)
      by (intros g Hg; apply H1; now right).
    destruct (Rltb (time best) (time a)).
    + apply IH; [apply H1; now left | assumption | assumption].
    + apply IH; assumption.
Qed.

Lemma min_time_from_keeps (p : MonochromaticFlux) (l : list MonochromaticFlux) :
  (forall g, In g l -> time p <= time g) -> min_time_from p l = p.
Proof.
  induction l as [|a l IH]; simpl; intros H; [reflexivity|].
  rewrite (proj2 (Rltb_false_iff (time a) (time p))) by (apply H; now left).
  apply IH. intros g Hg. apply H. now right.
Qed.

Lemma min_time_from_first (l1 l2 : list MonochromaticFlux)
    (p best : MonochromaticFlux) :
  time p < time best ->
  (forall g, In g l1 -> time p < time g) ->
  (forall g, In g l2 -> time p <= time g) ->
  min_time_from best (l1 ++ p :: l2) = p.
Proof.
  revert best. induction l1 as [|a l1 IH]; intros best Hbest H1 H2; simpl.
  - rewrite (proj2 (Rltb_true_iff _ _) Hbest). now apply min_time_from_keeps.
  - assert (H1' : forall g, In g l1 -> time p < time g)
      by (intros g Hg; apply H1; now right).
    destruct (Rltb (time a) (time best)).
    + apply IH; [apply H1; now left | assumption | assumption].
    + apply IH; assumption.
Qed.

(** X7. [get_previous_flux] raises [ValueError], and nothing else, exactly
    when no flux of the lightcurve is strictly earlier than [t]; otherwise
    it returns the flux of the largest time strictly before [t], and among
    several fluxes of that time the one that comes first in the
    lightcurve. *)
Theorem get_previous_flux_first_latest (lc : list MonochromaticFlux) (t : R) :
  (get_previous_flux lc t = Raise ValueError
   <-> forall g, In g lc -> t <= time g)
  /\ (forall e, get_previous_flux lc t = Raise e -> e = ValueError)
  /\ (forall l1 p l2,
        lc = l1 ++ p :: l2 -> time p < t ->
        (forall g, In g l1 -> time g < t -> time g < time p) ->
        (forall g, In g l2 -> time g < t -> time g <= time p) ->
        get_previous_flux lc t = OK p).
Proof.
  split; [split|split].
  - intros Hraise g Hg.
    destruct (Rle_dec t (time g)) as [Hle | Hgt]; [assumption|].
    exfalso. unfold get_previous_flux, py_max_by_time in Hraise.
    destruct (earlier_fluxes lc t) as [|f rest] eqn:He; [|discriminate].
    assert (Hin : In g (earlier_fluxes lc t))
      by (apply earlier_fluxes_In; split; [assumption | lra]).
    rewrite He in Hin. contradiction.
  - intros Hall. apply get_previous_flux_raise. apply filter_none.
    intros g Hg. apply Rltb_false_iff. specialize (Hall g Hg). lra.
  - unfold get_previous_flux, py_max_by_time. intros e H.
    destruct (earlier_fluxes lc t); congruence.
  - intros l1 p l2 -> Hp H1 H2.
    unfold get_previous_flux, earlier_fluxes. rewrite filter_app. cbn [filter].
    rewrite (proj2 (Rltb_true_iff 0 (t - time p))) by lra.
    fold (earlier_fluxes l1 t). fold (earlier_fluxes l2 t).
    assert (H2' : forall g, In g (earlier_fluxes l2 t) -> time g <= time p).
    { intros g Hg. apply earlier_fluxes_In in Hg as [Hg Hgt]. auto. }
    destruct (earlier_fluxes l1 t) as [|b l1'] eqn:He; cbn [app py_max_by_time].
    + f_equal. now apply max_time_from_keeps.
    + assert (H1' : forall g, In g (b :: l1') -> time g < time p).
      { intros g Hg. rewrite <- He in Hg.
        apply earlier_fluxes_In in Hg as [Hg Hgt]. auto. }
      f_equal. apply max_time_from_first; auto.
      * apply H1'. now left.
      * intros g Hg. apply H1'. now right.
Qed.

(** X8. [get_next_flux] raises [ValueError], and nothing else, exactly
    when no flux of the lightcurve is strictly later than [t]; otherwise it
    returns the flux of the smallest time strictly after [t], and among
    several fluxes of that time the one that comes first in the
    lightcurve. *)
Theorem get_next_flux_first_earliest (lc : list MonochromaticFlux) (t : R) :
  (get_next_flux lc t = Raise ValueError
   <-> forall g, In g lc -> time g <= t)
  /\ (forall e, get_next_flux lc t = Raise e -> e = ValueError)
  /\ (forall l1 n l2,
        lc = l1 ++ n :: l2 -> t < time n ->
        (forall g, In g l1 -> t < time g -> time n < time g) ->
        (forall g, In g l2 -> t < time g -> time n <= time g) ->
        get_next_flux lc t = OK n).
Proof.
  split; [split|split].
  - intros Hraise g Hg.
    destruct (Rle_dec (time g) t) as [Hle | Hgt]; [assumption|].
    exfalso. unfold get_next_flux, py_min_by_time in Hraise.
    destruct (later_fluxes lc t) as [|f rest] eqn:He; [|discriminate].
    assert (Hin : In g (later_fluxes lc t))
      by (apply later_fluxes_In; split; [assumption | lra]).
    rewrite He in Hin. contradiction.
  - intros Hall. apply get_next_flux_raise. apply filter_none.
    intros g Hg. apply Rltb_false_iff. specialize (Hall g Hg). lra.
  - unfold get_next_flux, py_min_by_time. intros e H.
    destruct (later_fluxes lc t); congruence.
  - intros l1 n l2 -> Hn H1 H2.
    unfold get_next_flux, later_fluxes. rewrite filter_app. cbn [filter].
    rewrite (proj2 (Rltb_true_iff (t - time n) 0)) by lra.
    fold (later_fluxes l1 t). fold (later_fluxes l2 t).
    assert (H2' : forall g, In g (later_fluxes l2 t) -> time n <= time g).
    { intros g Hg. apply later_fluxes_In in Hg as [Hg Hgt]. auto. }
    destruct (later_fluxes l1 t) as [|b l1'] eqn:He; cbn [app py_min_by_time].
    + f_equal. now apply min_time_from_keeps.
    + assert (H1' : forall g, In g (b :: l1') -> time n < time g).
      { intros g Hg. rewrite <- He in Hg.
        apply later_fluxes_In in Hg as [Hg Hgt]. auto. }
      f_equal. apply min_time_from_first; auto.
      * apply H1'. now left.
      * intros g Hg. apply H1'. now right.
Qed.

Lemma get_previous_flux_first_latest_witness :
  [a0; a1; mkFlux 99 1 1 1; a2] = [a0] ++ a1 :: [mkFlux 99 1 1 1; a2]
  /\ time a1 < 2
  /\ (forall g, In g [a0] -> time g < 2 -> time g < time a1)
  /\ (forall g, In g [mkFlux 99 1 1 1; a2] -> time g < 2 -> time g <= time a1)
  /\ get_previous_flux [a0; a1; mkFlux 99 1 1 1; a2] 2 = OK a1.
Proof.
  assert (H0 : time a1 < 2) by (simpl; lra).
  assert (H1 : forall g, In g [a0] -> time g < 2 -> time g < time a1)
    by (intros g [<- | []] _; simpl; lra).
  assert (H2 : forall g, In g [mkFlux 99 1 1 1; a2] -> time g < 2 ->
                         time g <= time a1)
    by (intros g [<- | [<- | []]]; simpl; lra).
  repeat split; try assumption.
  exact (proj2 (proj2 (get_previous_flux_first_latest
                         [a0; a1; mkFlux 99 1 1 1; a2] 2))
           [a0] a1 [mkFlux 99 1 1 1; a2] eq_refl H0 H1 H2).
Defined.

Lemma get_next_flux_first_earliest_witness :
  [a0; a1; mkFlux 99 1 1 1; a2] = [a0] ++ a1 :: [mkFlux 99 1 1 1; a2]
  /\ 0 < time a1
  /\ (forall g, In g [a0] -> 0 < time g -> time a1 < time g)
  /\ (forall g, In g [mkFlux 99 1 1 1; a2] -> 0 < time g -> time a1 <= time g)
  /\ get_next_flux [a0; a1; mkFlux 99 1 1 1; a2] 0 = OK a1.
Proof.
  assert (H0 : 0 < time a1) by (simpl; lra).
  assert (H1 : forall g, In g [a0] -> 0 < time g -> time a1 < time g)
    by (intros g [<- | []]; simpl; lra).
  assert (H2 : forall g, In g [mkFlux 99 1 1 1; a2] -> 0 < time g ->
                         time a1 <= time g)
    by (intros g [<- | [<- | []]]; simpl; lra).
  repeat split; try assumption.
  exact (proj2 (proj2 (get_next_flux_first_earliest
                         [a0; a1; mkFlux 99 1 1 1; a2] 0))
           [a0] a1 [mkFlux 99 1 1 1; a2] eq_refl H0 H1 H2).
Defined.

(** ** Lightcurves and observed sets *)

Lemma lightcurve_is_filter (SEDs : list SED) (wl : R) :
  get_monochromatic_lightcurve SEDs wl = filter (has_wavelength wl) (concat SEDs).
Proof.
  unfold get_monochromatic_lightcurve.
  induction SEDs as [|sed SEDs IH]; simpl; [reflexivity|].
  now rewrite filter_app, IH.
Qed.

Lemma filters_partition (fluxes : list MonochromaticFlux) (wls : list R) :
  NoDup wls ->
  (forall f, In f fluxes -> In (wavelength f) wls) ->
  Permutation (flat_map (fun wl => filter (has_wavelength wl) fluxes) wls) fluxes.
Proof.
  intros Hnd. induction fluxes as [|a fluxes IH]; intros Hcov.
  - simpl. induction wls as [|w wls IHw]; simpl; [constructor|].
    inversion Hnd; subst. now apply IHw.
  - assert (Hin : In (wavelength a) wls) by (apply Hcov; now left).
    specialize (IH (fun f Hf => Hcov f (or_intror Hf))).
    apply in_split in Hin as [ws1 [ws2 ->]].
    assert (Hnot1 : ~ In (wavelength a) ws1 /\ ~ In (wavelength a) ws2).
    { apply NoDup_remove_2 in Hnd. split; intros H; apply Hnd;
        apply in_or_app; auto. }
    destruct Hnot1 as [Hn1 Hn2].
    assert (Hskip : forall ws, ~ In (wavelength a) ws ->
               flat_map (fun wl => filter (has_wavelength wl) (a :: fluxes)) ws
               = flat_map (fun wl => filter (has_wavelength wl) fluxes) ws).
    { induction ws as [|w ws IHw]; intros Hn; [reflexivity|].
      cbn [flat_map]. rewrite IHw by (intros H; apply Hn; now right).
      f_equal. cbn [filter]. unfold has_wavelength at 1.
      rewrite (proj2 (Reqb_false_iff (wavelength a) w))
        by (intros Heq; apply Hn; left; now symmetry).
      reflexivity. }
    rewrite flat_map_app in *. cbn [flat_map filter] in *.
    rewrite !Hskip by assumption.
    unfold has_wavelength at 2. rewrite Reqb_refl.
    cbn [app]. apply Permutation_sym, Permutation_cons_app, Permutation_sym.
    exact IH.
Qed.

(** X9. The lightcurves of the observed wavelengths partition the
    collection: taken together they hold every flux of every SED exactly
    once; and a lightcurve holds, in the order of the collection, exactly
    the fluxes of its wavelength. *)
Theorem lightcurves_partition_collection (SEDs : list SED) :
  Permutation (flat_map (get_monochromatic_lightcurve SEDs)
                        (get_observed_wavelengths SEDs))
              (concat SEDs)
  /\ forall wl, get_monochromatic_lightcurve SEDs wl
                = filter (fun f => Reqb (wavelength f) wl) (concat SEDs).
Proof.
  split; [|intros wl; apply lightcurve_is_filter].
  rewrite (flat_map_ext _ (fun wl => filter (has_wavelength wl) (concat SEDs)))
    by (intros wl; apply lightcurve_is_filter).
  apply filters_partition.
  - apply strictly_sorted_NoDup, sorted_set_sorted.
  - intros f Hf. apply in_concat in Hf as [sed [Hsed Hf]].
    apply observed_wavelengths_In. eauto.
Qed.

(** X10. [get_observed_wavelengths] and [get_observed_times] return
    strictly increasing lists (sorted, without duplicates) that hold
    exactly the wavelengths, and the times, of the fluxes of the
    collection. *)
Theorem observed_sets_sorted_exact (SEDs : list SED) :
  StronglySorted Rlt (get_observed_wavelengths SEDs)
  /\ StronglySorted Rlt (get_observed_times SEDs)
  /\ (forall w, In w (get_observed_wavelengths SEDs)
                <-> exists sed f, In sed SEDs /\ In f sed /\ wavelength f = w)
  /\ (forall t, In t (get_observed_times SEDs)
                <-> exists sed f, In sed SEDs /\ In f sed /\ time f = t).
Proof.
  split; [apply sorted_set_sorted|]. split; [apply sorted_set_sorted|].
  split; [apply observed_wavelengths_In | apply observed_times_In].
Qed.

(** ** What is interpolated *)

Lemma interpolation_weight (tp t tn : R) :
  tp < t < tn -> 0 < (t - tp) / (tn - tp) < 1.
Proof.
  intros [Hlo Hhi]. split.
  - apply Rdiv_lt_0_compat; lra.
  - apply Rmult_lt_reg_r with (tn - tp); [lra|].
    unfold Rdiv. rewrite Rmult_assoc, Rinv_l by lra. lra.
Qed.

(** X11. Every flux that [get_interpolated_fluxes] returns is at an
    observed time that the lightcurve lacks, lies strictly between two
    fluxes of the lightcurve at most two days apart, has the wavelength of
    the earlier one, and its value lies between the values of the two. *)
Theorem interpolated_fluxes_between_neighbours
    (lc : list MonochromaticFlux) (ots : list R) (fs : list MonochromaticFlux) :
  get_interpolated_fluxes lc ots = OK fs ->
  forall f, In f fs ->
    In (time f) ots /\ ~ In (time f) (get_times lc)
    /\ exists p n, In p lc /\ In n lc
                   /\ time p < time f < time n
                   /\ time n - time p <= 2
                   /\ wavelength f = wavelength p
                   /\ Rmin (flux p) (flux n) <= flux f <= Rmax (flux p) (flux n).
Proof.
  intros H f Hf.
  destruct (get_interpolated_fluxes_ok_inv _ _ _ H) as [_ Hin].
  apply Hin in Hf as [t [p [n [Ht [Hp [Hn [Hgap ->]]]]]]].
  apply get_unobserved_times_In in Ht as [Hots Hnot].
  apply get_previous_flux_ok in Hp as [Hp [Hpt _]].
  apply get_next_flux_ok in Hn as [Hn [Hnt _]].
  cbn [time wavelength flux interpolated_flux_between].
  split; [assumption|]. split; [assumption|].
  exists p, n. repeat split; try assumption.
  - unfold spec_interpolated_value.
    pose proof (interpolation_weight (time p) t (time n) (conj Hpt Hnt)) as Hw.
    replace ((t - time p) * (flux n - flux p) / (time n - time p))
      with ((t - time p) / (time n - time p) * (flux n - flux p))
      by (field; lra).
    set (w := (t - time p) / (time n - time p)) in *.
    unfold Rmin. destruct (Rle_dec (flux p) (flux n)); nra.
  - unfold spec_interpolated_value.
    pose proof (interpolation_weight (time p) t (time n) (conj Hpt Hnt)) as Hw.
    replace ((t - time p) * (flux n - flux p) / (time n - time p))
      with ((t - time p) / (time n - time p) * (flux n - flux p))
      by (field; lra).
    set (w := (t - time p) / (time n - time p)) in *.
    unfold Rmax. destruct (Rle_dec (flux p) (flux n)); nra.
Qed.

Lemma interpolated_fluxes_between_neighbours_witness :
  get_interpolated_fluxes [b0; b2] [0; 1; 2]
  = OK [interpolated_flux_between b0 b2 1]
  /\ forall f, In f [interpolated_flux_between b0 b2 1] ->
       In (time f) [0; 1; 2] /\ ~ In (time f) (get_times [b0; b2])
       /\ exists p n, In p [b0; b2] /\ In n [b0; b2]
                      /\ time p < time f < time n
                      /\ time n - time p <= 2
                      /\ wavelength f = wavelength p
                      /\ Rmin (flux p) (flux n) <= flux f <= Rmax (flux p) (flux n).
Proof.
  split; [exact interpolated_at_2|].
  exact (interpolated_fluxes_between_neighbours [b0; b2] [0; 1; 2] _
           interpolated_at_2).
Defined.

Lemma chunks_times (ts : list R) (chunks : list (list MonochromaticFlux)) :
  Forall2 (fun t chunk => chunk = [] \/ exists f, chunk = [f] /\ time f = t)
          ts chunks ->
  (forall x, In x (map time (concat chunks)) -> In x ts)
  /\ (NoDup ts -> NoDup (map time (concat chunks)))
  /\ (length (concat chunks) <= length ts)%nat.
Proof.
  induction 1 as [|t chunk ts chunks Hc _ [IH1 [IH2 IH3]]]; simpl.
  - repeat split; [contradiction | constructor | lia].
  - destruct Hc as [-> | [f [-> <-]]]; simpl.
    + split; [auto|]. split; [|lia]. intros Hnd. inversion Hnd; auto.
    + split; [intros x [<- | Hx]; auto|]. split; [|lia].
      intros Hnd. inversion Hnd; subst. constructor; auto.
Qed.

(** The list that [get_interpolated_fluxes] returns, turn by turn: each
    missing epoch gives no flux or one flux of its time. *)
Lemma interpolated_chunks
    (lc : list MonochromaticFlux) (ots : list R) (fs : list MonochromaticFlux) :
  get_interpolated_fluxes lc ots = OK fs ->
  exists chunks,
    fs = concat chunks
    /\ Forall2 (fun t chunk => chunk = [] \/ exists f, chunk = [f] /\ time f = t)
               (get_unobserved_times lc ots) chunks.
Proof.
  unfold get_interpolated_fluxes. intros H.
  destruct (mapM (interpolate_at lc) (get_unobserved_times lc ots))
    as [chunks|e] eqn:Hm; [|discriminate].
  cbn [bind] in H. inversion H; subst. clear H.
  apply mapM_ok_inv in Hm. exists chunks. split; [reflexivity|].
  eapply Forall2_impl; [|exact Hm]. intros t chunk Hc. cbv beta in Hc.
  destruct (interpolate_at_cases lc t) as [[Hr _] | [p [n [_ [_ Hok]]]]];
    [congruence|].
  rewrite Hok in Hc. inversion Hc; subst.
  destruct (Rleb (time n - time p) 2); [right | now left].
  eexists. split; reflexivity.
Qed.

(** X12. [get_interpolated_fluxes] returns at most one flux for each
    missing epoch: no more fluxes than missing epochs, and, when the
    observed times are pairwise distinct, fluxes of pairwise distinct
    times. *)
Theorem at_most_one_flux_per_missing_epoch
    (lc : list MonochromaticFlux) (ots : list R) (fs : list MonochromaticFlux) :
  get_interpolated_fluxes lc ots = OK fs ->
  (length fs <= length (get_unobserved_times lc ots))%nat
  /\ (NoDup ots -> NoDup (map time fs)).
Proof.
  intros H. destruct (interpolated_chunks _ _ _ H) as [chunks [-> Hshape]].
  destruct (chunks_times _ _ Hshape) as [_ [Hnd Hlen]].
  split; [assumption|].
  intros Hots. apply Hnd. unfold get_unobserved_times. now apply NoDup_filter.
Qed.

Lemma at_most_one_flux_per_missing_epoch_witness :
  get_interpolated_fluxes [b0; b2] [0; 1; 2]
  = OK [interpolated_flux_between b0 b2 1]
  /\ Nat.le (length [interpolated_flux_between b0 b2 1])
            (length (get_unobserved_times [b0; b2] [0; 1; 2]))
  /\ (NoDup [0; 1; 2] -> NoDup (map time [interpolated_flux_between b0 b2 1])).
Proof.
  split; [exact interpolated_at_2|].
  exact (at_most_one_flux_per_missing_epoch [b0; b2] [0; 1; 2] _
           interpolated_at_2).
Defined.

(** X13. Interpolation is exact on a lightcurve that is linear in time:
    if every flux of the lightcurve has the value [a * time + b], so has
    every flux that [get_interpolated_fluxes] returns. *)
Theorem interpolation_exact_on_lines
    (a b : R) (lc : list MonochromaticFlux) (ots : list R)
    (fs : list MonochromaticFlux) :
  (forall g, In g lc -> flux g = a * time g + b) ->
  get_interpolated_fluxes lc ots = OK fs ->
  forall f, In f fs -> flux f = a * time f + b.
Proof.
  intros Hline H f Hf.
  destruct (get_interpolated_fluxes_ok_inv _ _ _ H) as [_ Hin].
  apply Hin in Hf as [t [p [n [_ [Hp [Hn [_ ->]]]]]]].
  apply get_previous_flux_ok in Hp as [Hp [Hpt _]].
  apply get_next_flux_ok in Hn as [Hn [Hnt _]].
  cbn [time flux interpolated_flux_between]. unfold spec_interpolated_value.
  rewrite (Hline p Hp), (Hline n Hn). field. lra.
Qed.

Lemma interpolation_exact_on_lines_witness :
  (forall g, In g [b0; b2] -> flux g = 10 * time g + 30)
  /\ get_interpolated_fluxes [b0; b2] [0; 1; 2]
     = OK [interpolated_flux_between b0 b2 1]
  /\ forall f, In f [interpolated_flux_between b0 b2 1] ->
               flux f = 10 * time f + 30.
Proof.
  assert (Hline : forall g, In g [b0; b2] -> flux g = 10 * time g + 30)
    by (intros g [<- | [<- | []]]; simpl; lra).
  split; [exact Hline|]. split; [exact interpolated_at_2|].
  exact (interpolation_exact_on_lines 10 30 [b0; b2] [0; 1; 2] _ Hline
           interpolated_at_2).
Defined.

(** ** When the interpolation completes *)

Lemma nothing_unobserved (lc : list MonochromaticFlux) (ots : list R) :
  (forall t, In t ots -> In t (get_times lc)) ->
  get_interpolated_fluxes lc ots = OK [].
Proof.
  intros Hall. unfold get_interpolated_fluxes.
  assert (Hnone : get_unobserved_times lc ots = []).
  { unfold get_unobserved_times. apply filter_none. intros t Ht.
    apply negb_false_iff, py_in_true_iff. now apply Hall. }
  now rewrite Hnone.
Qed.

(** X14. On a collection in which every observed wavelength has a flux at
    every observed time, [interpolate_missing_fluxes] completes and leaves
    the collection as it is. *)
Theorem complete_collection_unchanged (SEDs : list SED) :
  (forall wl t, In wl (get_observed_wavelengths SEDs) ->
                In t (get_observed_times SEDs) ->
                In t (get_times (get_monochromatic_lightcurve SEDs wl))) ->
  interpolate_missing_fluxes SEDs = (SEDs, Done).
Proof.
  unfold interpolate_missing_fluxes.
  generalize (get_observed_wavelengths SEDs) as wls.
  generalize (get_observed_times SEDs) as ots.
  intros ots wls. induction wls as [|wl wls IH]; intros Hall; [reflexivity|].
  cbn [interpolate_wavelengths].
  rewrite nothing_unobserved by (intros t Ht; apply Hall; [now left | assumption]).
  rewrite append_all_nothing. apply IH.
  intros w t Hw Ht. apply Hall; [now right | assumption].
Qed.

Example two_full_epochs_wavelengths :
  get_observed_wavelengths two_full_epochs = [1; 2].
Proof. unfold two_full_epochs. r_data. r_eval. reflexivity. Qed.

Example two_full_epochs_times : get_observed_times two_full_epochs = [0; 2].
Proof. unfold two_full_epochs. r_data. r_eval. reflexivity. Qed.

Lemma complete_collection_unchanged_witness :
  (forall wl t, In wl (get_observed_wavelengths two_full_epochs) ->
                In t (get_observed_times two_full_epochs) ->
                In t (get_times (get_monochromatic_lightcurve two_full_epochs wl)))
  /\ interpolate_missing_fluxes two_full_epochs = (two_full_epochs, Done).
Proof.
  assert (Hall : forall wl t, In wl (get_observed_wavelengths two_full_epochs) ->
                In t (get_observed_times two_full_epochs) ->
                In t (get_times (get_monochromatic_lightcurve two_full_epochs wl))).
  { rewrite two_full_epochs_wavelengths, two_full_epochs_times.
    intros wl t [<- | [<- | []]] [<- | [<- | []]];
      unfold two_full_epochs; r_data; r_eval; simpl; auto. }
  split; [exact Hall|].
  exact (complete_collection_unchanged two_full_epochs Hall).
Defined.

Lemma append_raise (ifs : list MonochromaticFlux) (SEDs SEDs' : list SED) (e : exn) :
  append_interpolated_fluxes_to_SEDs ifs SEDs = (SEDs', Raised e) ->
  e = IndexError /\ In [] SEDs /\ ifs <> [].
Proof.
  revert SEDs'. induction SEDs as [|sed SEDs IH]; intros SEDs' H.
  - simpl in H. discriminate.
  - cbn [append_interpolated_fluxes_to_SEDs] in H.
    destruct sed as [|first tl].
    + destruct ifs as [|f ifs].
      * rewrite append_matching_none in H.
        destruct (append_interpolated_fluxes_to_SEDs [] SEDs) as [rest' o] eqn:Hr.
        rewrite append_all_nothing in Hr. inversion Hr; subst. discriminate.
      * rewrite append_matching_empty in H. inversion H; subst.
        split; [reflexivity|]. split; [now left | discriminate].
    + rewrite append_matching_nonempty in H.
      destruct (append_interpolated_fluxes_to_SEDs ifs SEDs) as [rest' o] eqn:Hr.
      inversion H; subst.
      destruct (IH rest' eq_refl) as [He [Hin Hne]].
      split; [assumption|]. split; [now right | assumption].
Qed.

Lemma get_interpolated_fluxes_raise_inv (lc : list MonochromaticFlux)
    (ots : list R) (e : exn) :
  get_interpolated_fluxes lc ots = Raise e ->
  e = ValueError
  /\ exists t, In t (get_unobserved_times lc ots)
               /\ (earlier_fluxes lc t = [] \/ later_fluxes lc t = []).
Proof.
  unfold get_interpolated_fluxes. intros H.
  destruct (mapM (interpolate_at lc) (get_unobserved_times lc ots))
    as [chunks|e'] eqn:Hm; [discriminate|].
  cbn [bind] in H. inversion H; subst.
  apply mapM_raise_inv in Hm as [t [Ht Hr]].
  destruct (interpolate_at_cases lc t) as [[Hv Hedge] | [p [n [_ [_ Hok]]]]];
    [|congruence].
  split; [congruence | eauto].
Qed.

(** How a loop over distinct wavelengths can fail. *)
Lemma loop_raise (wls ots : list R) :
  NoDup wls ->
  forall SEDs SEDs' e,
    interpolate_wavelengths wls ots SEDs = (SEDs', Raised e) ->
    (e = IndexError /\ In [] SEDs)
    \/ (e = ValueError
        /\ exists wl t,
             In wl wls
             /\ In t (get_unobserved_times (get_monochromatic_lightcurve SEDs wl) ots)
             /\ (earlier_fluxes (get_monochromatic_lightcurve SEDs wl) t = []
                 \/ later_fluxes (get_monochromatic_lightcurve SEDs wl) t = [])).
Proof.
  induction 1 as [|wl wls Hnotin Hnd IH]; intros SEDs SEDs' e Hrun.
  - simpl in Hrun. discriminate.
  - cbn [interpolate_wavelengths] in Hrun.
    destruct (get_interpolated_fluxes (get_monochromatic_lightcurve SEDs wl) ots)
      as [ifs|e1] eqn:Hifs.
    + destruct (append_interpolated_fluxes_to_SEDs ifs SEDs) as [SEDs1 [|e1]] eqn:Happ.
      * apply append_done in Happ as [-> _].
        destruct (IH _ _ _ Hrun) as [[He Hempty] | [He [w [t [Hw [Ht Hedge]]]]]].
        -- left. split; [assumption|].
           apply in_map_iff in Hempty as [sed [Hsed Hin]].
           apply app_eq_nil in Hsed as [-> _]. assumption.
        -- right. split; [assumption|].
           assert (Hsame : get_monochromatic_lightcurve
                             (map (fun sed => sed ++ filter (same_epoch sed) ifs) SEDs) w
                           = get_monochromatic_lightcurve SEDs w).
           { apply lightcurve_after_append_other. intros f Hf.
             destruct (interpolated_fluxes_wavelength _ _ _ _ Hifs f Hf) as [Hwf _].
             intros Heq. apply Hnotin. congruence. }
           rewrite Hsame in Ht, Hedge. exists w, t.
           split; [now right | auto].
      * inversion Hrun; subst.
        apply append_raise in Happ as [-> [Hempty _]]. now left.
    + inversion Hrun; subst.
      apply get_interpolated_fluxes_raise_inv in Hifs as [-> [t [Ht Hedge]]].
      right. split; [reflexivity|]. exists wl, t. split; [now left | auto].
Qed.

(** X15. What an exception of [interpolate_missing_fluxes] tells: an
    [IndexError] means that the collection has an empty SED; a [ValueError]
    means that the lightcurve of an observed wavelength lacks an observed
    time that lies before all, or after all, of its fluxes.  So on a
    collection without an empty SED in which every missing epoch of every
    observed wavelength has an earlier and a later flux, the call raises
    neither [IndexError] nor [ValueError]. *)
Theorem interpolation_failure_causes (SEDs : list SED) :
  (forall SEDs' e,
      interpolate_missing_fluxes SEDs = (SEDs', Raised e) ->
      (e = IndexError -> In [] SEDs)
      /\ (e = ValueError ->
          exists wl t,
            In wl (get_observed_wavelengths SEDs)
            /\ In t (get_unobserved_times (get_monochromatic_lightcurve SEDs wl)
                                          (get_observed_times SEDs))
            /\ ((forall g, In g (get_monochromatic_lightcurve SEDs wl) ->
                           t < time g)
                \/ (forall g, In g (get_monochromatic_lightcurve SEDs wl) ->
                              time g < t))))
  /\ (Forall (fun sed => sed <> []) SEDs ->
      (forall wl t,
          In wl (get_observed_wavelengths SEDs) ->
          In t (get_unobserved_times (get_monochromatic_lightcurve SEDs wl)
                                     (get_observed_times SEDs)) ->
          (exists g, In g (get_monochromatic_lightcurve SEDs wl) /\ time g < t)
          /\ (exists g, In g (get_monochromatic_lightcurve SEDs wl) /\ t < time g)) ->
      snd (interpolate_missing_fluxes SEDs) <> Raised IndexError
      /\ snd (interpolate_missing_fluxes SEDs) <> Raised ValueError).
Proof.
  assert (Hfail : forall SEDs' e,
      interpolate_missing_fluxes SEDs = (SEDs', Raised e) ->
      (e = IndexError -> In [] SEDs)
      /\ (e = ValueError ->
          exists wl t,
            In wl (get_observed_wavelengths SEDs)
            /\ In t (get_unobserved_times (get_monochromatic_lightcurve SEDs wl)
                                          (get_observed_times SEDs))
            /\ ((forall g, In g (get_monochromatic_lightcurve SEDs wl) ->
                           t < time g)
                \/ (forall g, In g (get_monochromatic_lightcurve SEDs wl) ->
                              time g < t)))).
  { intros SEDs' e Hrun. unfold interpolate_missing_fluxes in Hrun.
    apply loop_raise in Hrun;
      [|apply strictly_sorted_NoDup, sorted_set_sorted].
    destruct Hrun as [[-> Hempty] | [-> [wl [t [Hwl [Ht Hedge]]]]]].
    { split; [auto | discriminate]. }
    split; [discriminate|]. intros _.
    exists wl, t. split; [assumption|]. split; [assumption|].
    pose proof Ht as Ht'. apply get_unobserved_times_In in Ht' as [_ Hnot].
    destruct Hedge as [Hnone | Hnone]; [left | right]; intros g Hg.
    - destruct (Rtotal_order t (time g)) as [Hlt | [Heq | Hgt]]; [assumption | |].
      + exfalso. apply Hnot. rewrite Heq. now apply in_map.
      + exfalso. assert (Hin : In g (earlier_fluxes
                    (get_monochromatic_lightcurve SEDs wl) t))
          by (apply earlier_fluxes_In; split; [assumption | lra]).
        rewrite Hnone in Hin. contradiction.
    - destruct (Rtotal_order t (time g)) as [Hlt | [Heq | Hgt]]; [| |lra].
      + exfalso. assert (Hin : In g (later_fluxes
                    (get_monochromatic_lightcurve SEDs wl) t))
          by (apply later_fluxes_In; split; [assumption | lra]).
        rewrite Hnone in Hin. contradiction.
      + exfalso. apply Hnot. rewrite Heq. now apply in_map. }
  split; [exact Hfail|].
  intros Hne Hboth.
  destruct (interpolate_missing_fluxes SEDs) as [SEDs' [|e]] eqn:Hrun;
    [split; discriminate|].
  destruct (Hfail _ _ eq_refl) as [Hidx Hval]. cbn [snd]. split; intros Heq.
  - inversion Heq; subst. specialize (Hidx eq_refl).
    rewrite Forall_forall in Hne. now apply (Hne [] Hidx).
  - inversion Heq; subst.
    destruct (Hval eq_refl) as [wl [t [Hwl [Ht Hedge]]]].
    destruct (Hboth wl t Hwl Ht) as [[g1 [Hg1 Hlt1]] [g2 [Hg2 Hlt2]]].
    destruct Hedge as [Hbefore | Hafter].
    + specialize (Hbefore g1 Hg1). lra.
    + specialize (Hafter g2 Hg2). lra.
Qed.

Lemma interpolation_failure_causes_witness :
  (interpolate_missing_fluxes leading_gap = (leading_gap, Raised ValueError)
   /\ (ValueError = IndexError -> In [] leading_gap)
   /\ (ValueError = ValueError ->
       exists wl t,
         In wl (get_observed_wavelengths leading_gap)
         /\ In t (get_unobserved_times
                    (get_monochromatic_lightcurve leading_gap wl)
                    (get_observed_times leading_gap))
         /\ ((forall g, In g (get_monochromatic_lightcurve leading_gap wl) ->
                        t < time g)
             \/ (forall g, In g (get_monochromatic_lightcurve leading_gap wl) ->
                           time g < t))))
  /\ (Forall (fun sed => sed <> []) three_epochs
      /\ (forall wl t,
             In wl (get_observed_wavelengths three_epochs) ->
             In t (get_unobserved_times (get_monochromatic_lightcurve three_epochs wl)
                                        (get_observed_times three_epochs)) ->
             (exists g, In g (get_monochromatic_lightcurve three_epochs wl)
                        /\ time g < t)
             /\ (exists g, In g (get_monochromatic_lightcurve three_epochs wl)
                           /\ t < time g))
      /\ snd (interpolate_missing_fluxes three_epochs) <> Raised IndexError
      /\ snd (interpolate_missing_fluxes three_epochs) <> Raised ValueError).
Proof.
  assert (Hne : Forall (fun sed : SED => sed <> []) three_epochs)
    by (repeat constructor; discriminate).
  assert (Hboth : forall wl t,
             In wl (get_observed_wavelengths three_epochs) ->
             In t (get_unobserved_times (get_monochromatic_lightcurve three_epochs wl)
                                        (get_observed_times three_epochs)) ->
             (exists g, In g (get_monochromatic_lightcurve three_epochs wl)
                        /\ time g < t)
             /\ (exists g, In g (get_monochromatic_lightcurve three_epochs wl)
                           /\ t < time g)).
  { rewrite three_epochs_wavelengths, three_epochs_times.
    intros wl t [<- | [<- | []]].
    - rewrite three_epochs_lightcurve_1.
      assert (Hnone : get_unobserved_times [a0; a1; a2] [0; 1; 2] = [])
        by (r_data; r_eval; reflexivity).
      rewrite Hnone. contradiction.
    - rewrite three_epochs_lightcurve_2, missing_at_2. intros [<- | []].
      split; [exists b0 | exists b2]; (split; [simpl; auto | simpl; lra]). }
  split.
  - split; [exact leading_gap_run|].
    exact (proj1 (interpolation_failure_causes leading_gap) _ _ leading_gap_run).
  - split; [exact Hne|]. split; [exact Hboth|].
    exact (proj2 (interpolation_failure_causes three_epochs) Hne Hboth).
Defined.

(** ** Invariants of the SEDs under interpolation *)

Lemma append_any (ifs : list MonochromaticFlux) (SEDs : list SED) :
  Forall2 (fun sed sed' =>
             sed' = sed \/ sed' = sed ++ filter (same_epoch sed) ifs)
          SEDs (fst (append_interpolated_fluxes_to_SEDs ifs SEDs)).
Proof.
  assert (Hrefl : forall l : list SED,
             Forall2 (fun sed sed' =>
                        sed' = sed \/ sed' = sed ++ filter (same_epoch sed) ifs) l l)
    by (induction l; constructor; auto).
  induction SEDs as [|sed SEDs IH]; cbn [append_interpolated_fluxes_to_SEDs fst];
    [constructor|].
  destruct sed as [|first tl].
  - destruct ifs as [|f ifs].
    + rewrite append_matching_none.
      destruct (append_interpolated_fluxes_to_SEDs [] SEDs) as [rest' o].
      constructor; [now left | exact IH].
    + rewrite append_matching_empty. constructor; [now left | apply Hrefl].
  - rewrite append_matching_nonempty.
    destruct (append_interpolated_fluxes_to_SEDs ifs SEDs) as [rest' o].
    constructor; [now right | exact IH].
Qed.

Lemma Forall_step {A : Type} (P : A -> Prop) (R : A -> A -> Prop) (l l' : list A) :
  Forall2 R l l' -> Forall P l ->
  (forall x x', In x l -> P x -> R x x' -> P x') -> Forall P l'.
Proof.
  induction 1 as [|x x' l l' Hxx' _ IH]; intros HP Hstep; constructor.
  - inversion HP; subst. apply (Hstep x x'); [now left | assumption | assumption].
  - inversion HP; subst. apply IH; [assumption|].
    intros y y' Hy. apply Hstep. now right.
Qed.

Lemma step_one_epoch (sed : SED) (ifs : list MonochromaticFlux) :
  one_epoch sed -> one_epoch (sed ++ filter (same_epoch sed) ifs).
Proof.
  intros H f Hf. apply in_app_iff in Hf as [Hf | Hf].
  - rewrite same_epoch_app; [now apply H|]. intros ->. contradiction.
  - apply filter_In in Hf as [_ Hse].
    rewrite same_epoch_app; [assumption|]. intros ->. discriminate.
Qed.

Lemma loop_one_epoch (wls ots : list R) (SEDs : list SED) :
  Forall one_epoch SEDs ->
  Forall one_epoch (fst (interpolate_wavelengths wls ots SEDs)).
Proof.
  revert SEDs. induction wls as [|wl wls IH]; intros SEDs Hinv;
    cbn [interpolate_wavelengths]; [assumption|].
  destruct (get_interpolated_fluxes (get_monochromatic_lightcurve SEDs wl) ots)
    as [ifs|e]; [|assumption].
  pose proof (append_any ifs SEDs) as Hany.
  destruct (append_interpolated_fluxes_to_SEDs ifs SEDs) as [SEDs1 o].
  cbn [fst] in Hany.
  assert (Hinv1 : Forall one_epoch SEDs1).
  { apply (Forall_step _ _ _ _ Hany Hinv).
    intros sed sed' _ Hsed [-> | ->]; [assumption | now apply step_one_epoch]. }
  destruct o; [now apply IH | assumption].
Qed.

Lemma NoDup_map_filter {A B : Type} (g : A -> B) (p : A -> bool) (l : list A) :
  NoDup (map g l) -> NoDup (map g (filter p l)).
Proof.
  induction l as [|a l IH]; simpl; intros H; [constructor|].
  inversion H as [|? ? Hnotin Hnd]; subst.
  destruct (p a); simpl; [|now apply IH].
  constructor; [|now apply IH].
  intros Hin. apply Hnotin. apply in_map_iff in Hin as [x [Hx Hf]].
  apply filter_In in Hf as [Hf _]. rewrite <- Hx. now apply in_map.
Qed.

(** The fluxes appended to one SED in one turn: none, or one flux of the
    wavelength of the turn that the SED does not have yet. *)
Lemma step_one_flux (SEDs : list SED) (wl : R) (ots : list R)
    (ifs : list MonochromaticFlux) (sed : SED) :
  NoDup ots ->
  get_interpolated_fluxes (get_monochromatic_lightcurve SEDs wl) ots = OK ifs ->
  In sed SEDs -> one_epoch sed -> one_flux_per_wavelength sed ->
  one_flux_per_wavelength (sed ++ filter (same_epoch sed) ifs).
Proof.
  intros Hots Hifs Hsed Hepoch Hone. unfold one_flux_per_wavelength in *.
  destruct (interpolated_chunks _ _ _ Hifs) as [chunks [Hfs Hshape]].
  destruct (chunks_times _ _ Hshape) as [_ [Hnd _]].
  assert (Htimes : NoDup (map time (filter (same_epoch sed) ifs))).
  { apply NoDup_map_filter. rewrite Hfs. apply Hnd.
    unfold get_unobserved_times. now apply NoDup_filter. }
  destruct sed as [|first tl].
  { rewrite (filter_none (same_epoch []) ifs) by (intros; reflexivity).
    constructor. }
  assert (Hsame : forall e, In e (filter (same_epoch (first :: tl)) ifs) ->
                            time e = time first).
  { intros e He. apply filter_In in He as [_ He]. simpl in He.
    now apply Reqb_true_iff in He. }
  destruct (filter (same_epoch (first :: tl)) ifs) as [|e [|e' rest]] eqn:Hextra.
  - now rewrite app_nil_r.
  - assert (He : In e ifs).
    { assert (H : In e (filter (same_epoch (first :: tl)) ifs))
        by (rewrite Hextra; now left).
      now apply filter_In in H. }
    destruct (interpolated_fluxes_wavelength _ _ _ _ Hifs e He) as [Hwl _].
    destruct (get_interpolated_fluxes_ok_inv _ _ _ Hifs) as [_ Hin].
    apply Hin in He as [t [p [n [Ht [_ [_ [_ Heq]]]]]]].
    assert (Hte : time e = t) by (rewrite Heq; reflexivity).
    apply get_unobserved_times_In in Ht as [_ Hnot].
    rewrite map_app. cbn [map].
    apply (Permutation_NoDup (Permutation_cons_append _ _)).
    constructor; [|assumption].
    intros Hdup.
    change (In (wavelength e) (map wavelength (first :: tl))) in Hdup.
    apply in_map_iff in Hdup as [g [Hg Hgin]].
    apply Hnot. rewrite <- Hte, (Hsame e (or_introl eq_refl)).
    specialize (Hepoch g Hgin). simpl in Hepoch.
    apply Reqb_true_iff in Hepoch. rewrite <- Hepoch.
    apply in_map. apply lightcurve_In. split; [eauto | congruence].
  - exfalso. simpl in Htimes. inversion Htimes as [|? ? Hnotin _]; subst.
    apply Hnotin. left.
    rewrite (Hsame e (or_introl eq_refl)).
    now rewrite (Hsame e' (or_intror (or_introl eq_refl))).
Qed.

Lemma loop_one_flux (wls ots : list R) (SEDs : list SED) :
  NoDup ots ->
  Forall (fun sed => one_epoch sed /\ one_flux_per_wavelength sed) SEDs ->
  Forall (fun sed => one_epoch sed /\ one_flux_per_wavelength sed)
         (fst (interpolate_wavelengths wls ots SEDs)).
Proof.
  intros Hots. revert SEDs. induction wls as [|wl wls IH]; intros SEDs Hinv;
    cbn [interpolate_wavelengths]; [assumption|].
  destruct (get_interpolated_fluxes (get_monochromatic_lightcurve SEDs wl) ots)
    as [ifs|e] eqn:Hifs; [|assumption].
  pose proof (append_any ifs SEDs) as Hany.
  destruct (append_interpolated_fluxes_to_SEDs ifs SEDs) as [SEDs1 o].
  cbn [fst] in Hany.
  assert (Hinv1 : Forall (fun sed => one_epoch sed /\ one_flux_per_wavelength sed)
                         SEDs1).
  { apply (Forall_step _ _ _ _ Hany Hinv).
    intros sed sed' Hin [He Hw] [-> | ->]; [now split|].
    split; [now apply step_one_epoch|].
    now apply step_one_flux with SEDs wl ots. }
  destruct o; [now apply IH | assumption].
Qed.

(** X16. [interpolate_missing_fluxes] keeps the SEDs well formed, whether
    it completes or raises: if in every SED all fluxes have the time of the
    first flux, this still holds in the collection the call leaves; and if
    moreover no SED has two fluxes of the same wavelength, none has
    afterwards. *)
Theorem interpolation_keeps_SEDs_well_formed (SEDs : list SED) :
  (Forall one_epoch SEDs ->
   Forall one_epoch (fst (interpolate_missing_fluxes SEDs)))
  /\ (Forall one_epoch SEDs ->
      Forall one_flux_per_wavelength SEDs ->
      Forall one_flux_per_wavelength (fst (interpolate_missing_fluxes SEDs))).
Proof.
  unfold interpolate_missing_fluxes. split.
  - apply loop_one_epoch.
  - intros Hepoch Hone.
    assert (Hboth : Forall (fun sed => one_epoch sed /\ one_flux_per_wavelength sed)
                           SEDs).
    { rewrite Forall_forall in *. intros sed Hsed. split; auto. }
    pose proof (loop_one_flux (get_observed_wavelengths SEDs)
                  (get_observed_times SEDs) SEDs
                  (strictly_sorted_NoDup _ (sorted_set_sorted _)) Hboth) as Hafter.
    rewrite Forall_forall in *. intros sed Hsed. now apply Hafter.
Qed.

Lemma interpolation_keeps_SEDs_well_formed_witness :
  Forall one_epoch three_epochs
  /\ Forall one_flux_per_wavelength three_epochs
  /\ Forall one_epoch (fst (interpolate_missing_fluxes three_epochs))
  /\ Forall one_flux_per_wavelength (fst (interpolate_missing_fluxes three_epochs)).
Proof.
  assert (Hepoch : Forall one_epoch three_epochs).
  { repeat constructor; intros f Hf; simpl in Hf;
      repeat (destruct Hf as [<- | Hf]; [simpl; apply Reqb_refl|]);
      contradiction. }
  assert (Hone : Forall one_flux_per_wavelength three_epochs).
  { repeat constructor; simpl; intros H;
      repeat (destruct H as [H | H]; [lra|]); contradiction. }
  split; [exact Hepoch|]. split; [exact Hone|].
  split.
  - exact (proj1 (interpolation_keeps_SEDs_well_formed three_epochs) Hepoch).
  - exact (proj2 (interpolation_keeps_SEDs_well_formed three_epochs) Hepoch Hone).
Defined.

(** ** Grouping by day *)

Lemma group_runs_concat {A : Type} (key : A -> Z) (xs : list A) (tgt : Z) (run : list A) :
  concat (group_runs key tgt run xs) = run ++ xs.
Proof.
  revert tgt run. induction xs as [|x xs IH]; intros tgt run; simpl.
  - reflexivity.
  - destruct (Z.eqb (key x) tgt).
    + rewrite IH, <- app_assoc. reflexivity.
    + simpl. rewrite IH. reflexivity.
Qed.

Lemma group_runs_shape {A : Type} (key : A -> Z) (xs : list A) (tgt : Z) (run : list A) :
  run <> [] -> (forall a, In a run -> key a = tgt) ->
  Forall (one_key key) (group_runs key tgt run xs)
  /\ Sorted (keys_differ key) (group_runs key tgt run xs)
  /\ exists g rest, group_runs key tgt run xs = g :: rest
                    /\ forall a, In a g -> key a = tgt.
Proof.
  revert tgt run. induction xs as [|x xs IH]; intros tgt run Hne Hrun; simpl.
  - split; [|split].
    + constructor; [|constructor]. split; [assumption|].
      intros a b Ha Hb. now rewrite (Hrun a Ha), (Hrun b Hb).
    + repeat constructor.
    + exists run, []. auto.
  - destruct (Z.eqb_spec (key x) tgt) as [Heq | Hneq].
    + apply IH.
      * intros H. apply app_eq_nil in H as [_ H]. discriminate.
      * intros a Ha. apply in_app_iff in Ha as [Ha | [<- | []]]; auto.
    + destruct (IH (key x) [x]) as [Hall [Hsorted [g [rest [Hg Hkeys]]]]].
      * discriminate.
      * intros a [<- | []]. reflexivity.
      * split; [|split].
        -- constructor; [|assumption]. split; [assumption|].
           intros a b Ha Hb. now rewrite (Hrun a Ha), (Hrun b Hb).
        -- constructor; [assumption|]. rewrite Hg. constructor.
           intros a b Ha Hb. rewrite (Hrun a Ha), (Hkeys b Hb). auto.
        -- exists run, (group_runs key (key x) [x] xs). auto.
Qed.

Lemma groupby_shape {A : Type} (key : A -> Z) (xs : list A) :
  concat (groupby key xs) = xs
  /\ Forall (one_key key) (groupby key xs)
  /\ Sorted (keys_differ key) (groupby key xs).
Proof.
  destruct xs as [|x xs]; simpl.
  - repeat constructor.
  - split; [apply (group_runs_concat key xs (key x) [x])|].
    destruct (group_runs_shape key xs (key x) [x]) as [H1 [H2 _]];
      [discriminate | intros a [<- | []]; reflexivity | auto].
Qed.

Lemma StronglySorted_app_inv {A : Type} (R : A -> A -> Prop) (l1 l2 : list A) :
  StronglySorted R (l1 ++ l2) ->
  StronglySorted R l2 /\ forall x y, In x l1 -> In y l2 -> R x y.
Proof.
  induction l1 as [|a l1 IH]; simpl; intros H.
  - split; [assumption | contradiction].
  - inversion H as [|? ? Hs Hall]; subst. destruct (IH Hs) as [H2 Hcross].
    split; [assumption|]. intros x y [<- | Hx] Hy; [|auto].
    rewrite Forall_forall in Hall. apply Hall. apply in_app_iff. now right.
Qed.

(** Maximal runs of a list with non-decreasing keys have increasing
    keys. *)
Lemma runs_increase {A : Type} (key : A -> Z) (gs : list (list A)) :
  Forall (one_key key) gs -> Sorted (keys_differ key) gs ->
  StronglySorted (fun a b => (key a <= key b)%Z) (concat gs) ->
  StronglySorted (keys_increase key) gs.
Proof.
  induction gs as [|g gs IH]; intros Hall Hadj Hmono; [constructor|].
  inversion Hall as [|? ? Hg Hall']; subst.
  inversion Hadj as [|? ? Hadj' Hhd]; subst.
  simpl in Hmono. apply StronglySorted_app_inv in Hmono as [Hmono' Hcross].
  specialize (IH Hall' Hadj' Hmono').
  constructor; [assumption|].
  destruct gs as [|g1 rest]; [constructor|].
  inversion Hhd as [|? ? Hdiff]; subst.
  inversion Hall' as [|? ? [Hne1 _] _]; subst.
  assert (Hfirst : keys_increase key g g1).
  { intros a b Ha Hb. specialize (Hdiff a b Ha Hb).
    assert ((key a <= key b)%Z)
      by (apply Hcross; [assumption | simpl; apply in_app_iff; now left]).
    lia. }
  constructor; [assumption|].
  inversion IH as [|? ? _ Hlater]; subst.
  rewrite Forall_forall in *. intros g' Hg' a b Ha Hb.
  destruct g1 as [|c g1]; [congruence|].
  specialize (Hfirst a c Ha (or_introl eq_refl)).
  specialize (Hlater g' Hg' c b (or_introl eq_refl) Hb). lia.
Qed.

Lemma StronglySorted_related {A : Type} (R : list A -> list A -> Prop) (gs : list (list A))
    (g g' : list A) :
  StronglySorted R gs -> In g gs -> In g' gs -> g = g' \/ R g g' \/ R g' g.
Proof.
  induction 1 as [|h gs Hs IH Hall]; intros Hg Hg'; [contradiction|].
  rewrite Forall_forall in Hall.
  destruct Hg as [-> | Hg], Hg' as [-> | Hg']; auto.
Qed.

Lemma StronglySorted_weaken {A : Type} (R R' : A -> A -> Prop) (l : list A) :
  (forall a b, R a b -> R' a b) -> StronglySorted R l -> StronglySorted R' l.
Proof.
  intros Himp. induction 1 as [|a l Hs IH Hall]; constructor; [assumption|].
  eapply Forall_impl; [|exact Hall]. intros b. apply Himp.
Qed.

(** X17. [group_fluxes] cuts the list into its maximal runs of equal key:
    the groups put end to end give the list back, no group is empty, the
    fluxes of a group have the same key, and the fluxes of two adjacent
    groups have different keys. *)
Theorem group_fluxes_maximal_runs (keyfunc : R -> Z)
    (fluxes : list MonochromaticFlux) :
  concat (group_fluxes keyfunc fluxes) = fluxes
  /\ Forall (fun g => g <> []
                      /\ forall a b, In a g -> In b g ->
                                     keyfunc (time a) = keyfunc (time b))
            (group_fluxes keyfunc fluxes)
  /\ Sorted (fun g g' => forall a b, In a g -> In b g' ->
                                     keyfunc (time a) <> keyfunc (time b))
            (group_fluxes keyfunc fluxes).
Proof.
  unfold group_fluxes.
  destruct (groupby_shape (fun x => keyfunc (time x)) fluxes) as [H1 [H2 H3]].
  split; [assumption|]. split; assumption.
Qed.

(** X18. On fluxes given in non-decreasing order of time, the groups of
    [group_fluxes] by [math.floor] are the days: the day increases strictly
    from each group to every later one, so two fluxes of the same day are
    always in the same group. *)
Theorem group_fluxes_by_day (fluxes : list MonochromaticFlux) :
  Sorted (fun a b => time a <= time b) fluxes ->
  StronglySorted (fun g g' => forall a b, In a g -> In b g' ->
                                (math_floor (time a) < math_floor (time b))%Z)
                 (group_fluxes math_floor fluxes)
  /\ forall a b, In a fluxes -> In b fluxes ->
       math_floor (time a) = math_floor (time b) ->
       exists g, In g (group_fluxes math_floor fluxes) /\ In a g /\ In b g.
Proof.
  intros Hsorted. unfold group_fluxes.
  set (key := fun x : MonochromaticFlux => math_floor (time x)).
  destruct (groupby_shape key fluxes) as [Hcat [Hall Hadj]].
  assert (Hmono : StronglySorted (fun a b => (key a <= key b)%Z) fluxes).
  { apply StronglySorted_weaken with (R := fun a b => time a <= time b).
    - intros a b Hab. unfold key, math_floor. now apply Zfloor_le.
    - apply Sorted_StronglySorted; [|assumption].
      intros a b c Hab Hbc. lra. }
  rewrite <- Hcat in Hmono.
  pose proof (runs_increase key _ Hall Hadj Hmono) as Hinc.
  split; [exact Hinc|].
  intros a b Ha Hb Hday. rewrite <- Hcat in Ha, Hb.
  apply in_concat in Ha as [g [Hg Hag]]. apply in_concat in Hb as [g' [Hg' Hbg']].
  destruct (StronglySorted_related _ _ g g' Hinc Hg Hg') as [<- | [Hlt | Hlt]].
  - exists g. auto.
  - specialize (Hlt a b Hag Hbg'). unfold key in Hlt. lia.
  - specialize (Hlt b a Hbg' Hag). unfold key in Hlt. lia.
Qed.

Lemma group_fluxes_by_day_witness :
  Sorted (fun a b => time a <= time b) [a0; b0; a1; a2; b2]
  /\ StronglySorted (fun g g' => forall a b, In a g -> In b g' ->
                                   (math_floor (time a) < math_floor (time b))%Z)
                    (group_fluxes math_floor [a0; b0; a1; a2; b2])
  /\ forall a b, In a [a0; b0; a1; a2; b2] -> In b [a0; b0; a1; a2; b2] ->
       math_floor (time a) = math_floor (time b) ->
       exists g, In g (group_fluxes math_floor [a0; b0; a1; a2; b2])
                 /\ In a g /\ In b g.
Proof.
  assert (Hsorted : Sorted (fun a b => time a <= time b) [a0; b0; a1; a2; b2])
    by (repeat constructor; simpl; lra).
  split; [exact Hsorted|].
  exact (group_fluxes_by_day [a0; b0; a1; a2; b2] Hsorted).
Defined.

(** ** The gap around an epoch *)

Lemma py_min_spec (xs : list R) (m : R) :
  py_min xs = OK m <-> In m xs /\ forall x, In x xs -> m <= x.
Proof.
  destruct xs as [|v vs]; simpl.
  - split; [discriminate | intros [[] _]].
  - split.
    + intros H. inversion H; subst. split.
      * apply (list_min_in v vs).
      * intros x Hx. now apply list_min_le.
    + intros [Hin Hle]. f_equal.
      pose proof (list_min_in v vs) as Hmin.
      pose proof (list_min_le v vs m Hin).
      specialize (Hle _ Hmin). lra.
Qed.

Lemma py_max_spec (xs : list R) (m : R) :
  py_max xs = OK m <-> In m xs /\ forall x, In x xs -> x <= m.
Proof.
  destruct xs as [|v vs]; simpl.
  - split; [discriminate | intros [[] _]].
  - split.
    + intros H. inversion H; subst. split.
      * apply (list_max_in v vs).
      * intros x Hx. now apply list_max_ge.
    + intros [Hin Hle]. f_equal.
      pose proof (list_max_in v vs) as Hmax.
      pose proof (list_max_ge v vs m Hin).
      specialize (Hle _ Hmax). lra.
Qed.

Lemma positive_deltas_In (times : list R) (t d : R) :
  In d (positive_deltas times t) <-> exists x, In x times /\ x < t /\ d = t - x.
Proof.
  unfold positive_deltas. rewrite in_map_iff. split.
  - intros [x [Hd Hx]]. apply filter_In in Hx as [Hx Hlt].
    apply Rltb_true_iff in Hlt. exists x. repeat split; [assumption | lra | now symmetry].
  - intros [x [Hx [Hlt ->]]]. exists x. split; [reflexivity|].
    apply filter_In. split; [assumption|]. apply Rltb_true_iff. lra.
Qed.

Lemma negative_deltas_In (times : list R) (t d : R) :
  In d (negative_deltas times t) <-> exists x, In x times /\ t <= x /\ d = t - x.
Proof.
  unfold negative_deltas. rewrite in_map_iff. split.
  - intros [x [Hd Hx]]. apply filter_In in Hx as [Hx Hlt].
    apply negb_true_iff, Rltb_false_iff in Hlt.
    exists x. repeat split; [assumption | lra | now symmetry].
  - intros [x [Hx [Hlt ->]]]. exists x. split; [reflexivity|].
    apply filter_In. split; [assumption|].
    apply negb_true_iff, Rltb_false_iff. lra.
Qed.

Lemma get_gap_size_ok (times : list R) (t lo hi : R) :
  In lo times -> lo < t -> (forall x, In x times -> x < t -> x <= lo) ->
  In hi times -> t <= hi -> (forall x, In x times -> t <= x -> hi <= x) ->
  get_gap_size times t = OK (hi - lo).
Proof.
  intros Hlo Hlot Hlomax Hhi Hhit Hhimin. unfold get_gap_size.
  assert (Hmin : py_min (positive_deltas times t) = OK (t - lo)).
  { apply py_min_spec. split.
    - apply positive_deltas_In. eauto.
    - intros d Hd. apply positive_deltas_In in Hd as [x [Hx [Hxt ->]]].
      specialize (Hlomax x Hx Hxt). lra. }
  assert (Hmax : py_max (negative_deltas times t) = OK (t - hi)).
  { apply py_max_spec. split.
    - apply negative_deltas_In. eauto.
    - intros d Hd. apply negative_deltas_In in Hd as [x [Hx [Hxt ->]]].
      specialize (Hhimin x Hx Hxt). lra. }
  rewrite Hmin, Hmax. cbn [bind]. f_equal. lra.
Qed.

(** X19. [get_gap_size] returns the distance between the largest time
    strictly before [t] and the smallest time at or after [t] (a time equal
    to [t] counts on the later side); it raises [ValueError], and nothing
    else, exactly when [times] has no time before [t] or none at or after
    [t]. *)
Theorem get_gap_size_spec (times : list R) (t : R) :
  (forall r, get_gap_size times t = OK r
             <-> exists lo hi,
                   In lo times /\ lo < t
                   /\ (forall x, In x times -> x < t -> x <= lo)
                   /\ In hi times /\ t <= hi
                   /\ (forall x, In x times -> t <= x -> hi <= x)
                   /\ r = hi - lo)
  /\ (get_gap_size times t = Raise ValueError
      <-> (forall x, In x times -> t <= x) \/ (forall x, In x times -> x < t))
  /\ (forall e, get_gap_size times t = Raise e -> e = ValueError).
Proof.
  assert (Hinv : forall r, get_gap_size times t = OK r ->
             exists lo hi,
                   In lo times /\ lo < t
                   /\ (forall x, In x times -> x < t -> x <= lo)
                   /\ In hi times /\ t <= hi
                   /\ (forall x, In x times -> t <= x -> hi <= x)
                   /\ r = hi - lo).
  { intros r H. unfold get_gap_size in H.
    destruct (py_min (positive_deltas times t)) as [m|e] eqn:Hm; [|discriminate].
    destruct (py_max (negative_deltas times t)) as [M|e] eqn:HM; [|discriminate].
    cbn [bind] in H. inversion H; subst. clear H.
    apply py_min_spec in Hm as [Hm Hmle]. apply py_max_spec in HM as [HM HMge].
    apply positive_deltas_In in Hm as [lo [Hlo [Hlot ->]]].
    apply negative_deltas_In in HM as [hi [Hhi [Hhit ->]]].
    exists lo, hi. repeat split; try assumption; [| |lra].
    - intros x Hx Hxt.
      assert (Hd : In (t - x) (positive_deltas times t))
        by (apply positive_deltas_In; eauto).
      specialize (Hmle _ Hd). lra.
    - intros x Hx Hxt.
      assert (Hd : In (t - x) (negative_deltas times t))
        by (apply negative_deltas_In; eauto).
      specialize (HMge _ Hd). lra. }
  assert (Hraise : forall e, get_gap_size times t = Raise e ->
             e = ValueError
             /\ ((forall x, In x times -> t <= x) \/ (forall x, In x times -> x < t))).
  { intros e H. unfold get_gap_size in H.
    destruct (positive_deltas times t) as [|d ds] eqn:Hpos.
    - simpl in H. inversion H; subst. split; [reflexivity|]. left.
      intros x Hx. destruct (Rle_dec t x) as [Hle | Hgt]; [assumption|].
      exfalso. assert (Hd : In (t - x) (positive_deltas times t))
        by (apply positive_deltas_In; exists x; repeat split; [assumption | lra]).
      rewrite Hpos in Hd. contradiction.
    - cbn [py_min bind] in H.
      destruct (negative_deltas times t) as [|d' ds'] eqn:Hneg; [|discriminate].
      simpl in H. inversion H; subst. split; [reflexivity|]. right.
      intros x Hx. destruct (Rlt_dec x t) as [Hlt | Hge]; [assumption|].
      exfalso. assert (Hd : In (t - x) (negative_deltas times t))
        by (apply negative_deltas_In; exists x; repeat split; [assumption | lra]).
      rewrite Hneg in Hd. contradiction. }
  split; [|split].
  - intros r. split; [apply Hinv|].
    intros [lo [hi [Hlo [Hlot [Hlomax [Hhi [Hhit [Hhimin ->]]]]]]]].
    now apply get_gap_size_ok.
  - split; [intros H; now apply Hraise in H|].
    intros Hedge. destruct (get_gap_size times t) as [r|e] eqn:H.
    + exfalso.
      destruct (Hinv r eq_refl) as [lo [hi [Hlo [Hlot [_ [Hhi [Hhit _]]]]]]].
      destruct Hedge as [Hall | Hall].
      * specialize (Hall lo Hlo). lra.
      * specialize (Hall hi Hhi). lra.
    + destruct (Hraise e eq_refl) as [-> _]. reflexivity.
  - intros e H. now apply Hraise in H.
Qed.

(** X20. For an epoch that the lightcurve lacks, [get_gap_size] on the
    times of the lightcurve is the distance that [get_interpolated_fluxes]
    compares with 2: the time of the next flux minus the time of the
    previous flux. *)
Theorem get_gap_size_between_neighbours
    (lc : list MonochromaticFlux) (t : R) (p n : MonochromaticFlux) :
  ~ In t (get_times lc) ->
  get_previous_flux lc t = OK p ->
  get_next_flux lc t = OK n ->
  get_gap_size (get_times lc) t = OK (time n - time p).
Proof.
  intros Hnot Hp Hn.
  destruct (previous_time _ _ _ Hp) as [Hpin [Hpt Hpmax]].
  destruct (next_time _ _ _ Hn) as [Hnin [Hnt Hnmin]].
  apply get_gap_size_ok; try assumption; [lra|].
  intros x Hx Hle. apply Hnmin; [assumption|].
  destruct (Req_dec_T t x) as [-> | Hneq]; [contradiction | lra].
Qed.

Lemma get_gap_size_between_neighbours_witness :
  ~ In 1 (get_times [b0; b2])
  /\ get_previous_flux [b0; b2] 1 = OK b0
  /\ get_next_flux [b0; b2] 1 = OK b2
  /\ get_gap_size (get_times [b0; b2]) 1 = OK (time b2 - time b0).
Proof.
  assert (Hnot : ~ In 1 (get_times [b0; b2]))
    by (simpl; intros [H | [H | []]]; lra).
  split; [exact Hnot|]. split; [exact previous_of_1|]. split; [exact next_of_1|].
  exact (get_gap_size_between_neighbours [b0; b2] 1 b0 b2 Hnot
           previous_of_1 next_of_1).
Defined.

(** ** No new wavelength, no new time *)

Lemma loop_provenance_any (wls ots : list R) :
  forall SEDs sed' f,
    In sed' (fst (interpolate_wavelengths wls ots SEDs)) -> In f sed' ->
    (exists sed, In sed SEDs /\ In f sed)
    \/ (In (wavelength f) wls /\ In (time f) ots).
Proof.
  induction wls as [|wl wls IH]; intros SEDs sed' f Hsed' Hf;
    cbn [interpolate_wavelengths] in Hsed'.
  - left. eauto.
  - destruct (get_interpolated_fluxes (get_monochromatic_lightcurve SEDs wl) ots)
      as [ifs|e] eqn:Hifs; [|left; eauto].
    pose proof (append_any ifs SEDs) as Hany.
    destruct (append_interpolated_fluxes_to_SEDs ifs SEDs) as [SEDs1 o].
    cbn [fst] in Hany.
    assert (Hstep : forall sed1 g, In sed1 SEDs1 -> In g sed1 ->
               (exists sed, In sed SEDs /\ In g sed)
               \/ (wavelength g = wl /\ In (time g) ots)).
    { intros sed1 g Hsed1 Hg.
      destruct (Forall2_in_right _ _ _ _ Hany Hsed1) as [sed [Hsed [-> | ->]]];
        [left; eauto|].
      apply in_app_iff in Hg as [Hg | Hg]; [left; eauto|].
      right. apply filter_In in Hg as [Hg _].
      exact (interpolated_fluxes_wavelength _ _ _ _ Hifs g Hg). }
    assert (Hcases : (exists sed1, In sed1 SEDs1 /\ In f sed1)
                     \/ (In (wavelength f) wls /\ In (time f) ots)).
    { destruct o; cbn [fst] in Hsed'; [|left; eauto].
      exact (IH _ _ _ Hsed' Hf). }
    destruct Hcases as [[sed1 [Hsed1 Hf1]] | [Hw Ht]].
    + destruct (Hstep sed1 f Hsed1 Hf1) as [Hold | [Hw Ht]]; [now left|].
      right. split; [left; now symmetry | assumption].
    + right. split; [now right | assumption].
Qed.

(** X21. [interpolate_missing_fluxes] brings in no new wavelength and no
    new time: whether it completes or raises, the observed wavelengths and
    the observed times of the collection it leaves are those of the
    collection it was given. *)
Theorem interpolation_keeps_observed_sets (SEDs : list SED) :
  get_observed_wavelengths (fst (interpolate_missing_fluxes SEDs))
  = get_observed_wavelengths SEDs
  /\ get_observed_times (fst (interpolate_missing_fluxes SEDs))
     = get_observed_times SEDs.
Proof.
  unfold interpolate_missing_fluxes.
  pose proof (loop_provenance_any (get_observed_wavelengths SEDs)
                (get_observed_times SEDs) SEDs) as Hprov.
  pose proof (interpolate_wavelengths_appends
                (get_observed_wavelengths SEDs) (get_observed_times SEDs) SEDs)
    as Happ.
  set (SEDs' := fst (interpolate_wavelengths (get_observed_wavelengths SEDs)
                       (get_observed_times SEDs) SEDs)) in *.
  assert (Hkept : forall sed f, In sed SEDs -> In f sed ->
                    exists sed', In sed' SEDs' /\ In f sed').
  { intros sed f Hsed Hf.
    destruct (Forall2_in_left _ _ _ _ Happ Hsed) as [sed' [Hsed' [extra ->]]].
    exists (sed ++ extra). split; [assumption|]. apply in_app_iff. now left. }
  split.
  - apply strictly_sorted_unique; try apply sorted_set_sorted.
    intros w. rewrite !observed_wavelengths_In. split.
    + intros [sed' [f [Hsed' [Hf Hw]]]].
      destruct (Hprov sed' f Hsed' Hf) as [[sed [Hsed Hfs]] | [Hwf _]];
        [eauto|].
      rewrite Hw in Hwf. now apply observed_wavelengths_In in Hwf.
    + intros [sed [f [Hsed [Hf Hw]]]].
      destruct (Hkept sed f Hsed Hf) as [sed' [Hsed' Hf']]. eauto.
  - apply strictly_sorted_unique; try apply sorted_set_sorted.
    intros t. rewrite !observed_times_In. split.
    + intros [sed' [f [Hsed' [Hf Ht]]]].
      destruct (Hprov sed' f Hsed' Hf) as [[sed [Hsed Hfs]] | [_ Htf]];
        [eauto|].
      rewrite Ht in Htf. now apply observed_times_In in Htf.
    + intros [sed [f [Hsed [Hf Ht]]]].
      destruct (Hkept sed f Hsed Hf) as [sed' [Hsed' Hf']]. eauto.
Qed.

(** ** The weighted mean on doubles *)

Module DoubleFacts.
Import PrimFloat.
Local Open Scope float_scope.
Set Warnings "-inexact-float".


Set Warnings "+inexact-float".
End DoubleFacts.
